(** * esptool.py: the ESP8266 ROM bootloader utility

    A shallow embedding of [bin/esptool.py] (Python 2): the SLIP framing
    layer, the command engine, [flash_begin] and the firmware image codec,
    followed by the properties established about them.

    Conventions.
    - A Python [str] is a [list byte]; a Python [int] is a [Z].
    - Methods that touch the serial port or a file are state-passing
      functions; an exception leaves the mutations made so far in place.
    - [while] loops whose trip count is not bounded by the code take a
      [fuel] argument, one unit per iteration. *)

From Stdlib Require Import ZArith List String Lia Bool QArith Qround.
From Stdlib Require Import Strings.Byte.
Import ListNotations.

Local Open Scope Z_scope.

(** ** Python values *)

Module Py.

Definition bytes := list byte.

Definition ord (c : byte) : Z := Z.of_N (Byte.to_N c).

(** [chr] on an argument already reduced to [0, 255]. *)
Definition chr (z : Z) : byte :=
  match Byte.of_N (Z.to_N z) with
  | Some c => c
  | None => x00
  end.

Definition len {A} (s : list A) : Z := Z.of_nat (List.length s).

Fixpoint bytes_eqb (a b : bytes) : bool :=
  match a, b with
  | [], [] => true
  | x :: a', y :: b' => Byte.eqb x y && bytes_eqb a' b'
  | _, _ => false
  end.

(** [s.replace(old, new)] where [old] is one character long, the only way
    [ESPROM.write] calls it. *)
Fixpoint replace (old : byte) (new : bytes) (s : bytes) : bytes :=
  match s with
  | [] => []
  | c :: s' => (if Byte.eqb c old then new else [c]) ++ replace old new s'
  end.

(** *** The [struct] module, little-endian unsigned codes *)

Inductive code := B | H | I.

Definition code_size (c : code) : nat :=
  match c with B => 1 | H => 2 | I => 4 end%nat.

Fixpoint le_bytes (n : nat) (x : Z) : bytes :=
  match n with
  | O => []
  | S n' => chr (x mod 256) :: le_bytes n' (x / 256)
  end.

Fixpoint le_int (bs : bytes) : Z :=
  match bs with
  | [] => 0
  | c :: bs' => ord c + 256 * le_int bs'
  end.

Definition in_range (c : code) (x : Z) : bool :=
  (0 <=? x) && (x <? 256 ^ Z.of_nat (code_size c)).

(** [struct.pack('<...', v1, ...)]; [None] is [struct.error]. *)
Fixpoint pack (fmt : list code) (vals : list Z) : option bytes :=
  match fmt, vals with
  | [], [] => Some []
  | c :: fmt', v :: vals' =>
      if in_range c v then
        match pack fmt' vals' with
        | Some bs => Some (le_bytes (code_size c) v ++ bs)
        | None => None
        end
      else None
  | _, _ => None
  end.

Definition calcsize (fmt : list code) : nat :=
  fold_right (fun c n => (code_size c + n)%nat) 0%nat fmt.

Fixpoint unpack_fields (fmt : list code) (bs : bytes) : list Z :=
  match fmt with
  | [] => []
  | c :: fmt' =>
      le_int (firstn (code_size c) bs) :: unpack_fields fmt' (skipn (code_size c) bs)
  end.

(** [struct.unpack('<...', s)]; [None] is [struct.error] (wrong length). *)
Definition unpack (fmt : list code) (bs : bytes) : option (list Z) :=
  if Nat.eqb (List.length bs) (calcsize fmt) then Some (unpack_fields fmt bs)
  else None.

End Py.
Import Py.

(** ** Exceptions and the state-and-exception monad *)

(** The exception classes the modelled code can raise.  A message built with
    [%] is kept as its format string and the list of its arguments. *)
Inductive exn :=
| FatalError (message : string) (args : list Z)
| Exception (message : string)
| struct_error
| TypeError.

Inductive outcome (A : Type) :=
| Return (a : A)
| Raise (e : exn)
| OutOfFuel.
Arguments Return {A} a.
Arguments Raise {A} e.
Arguments OutOfFuel {A}.

Definition M (S A : Type) : Type := S -> outcome A * S.

Definition ret {S A} (a : A) : M S A := fun s => (Return a, s).

Definition raise {S A} (e : exn) : M S A := fun s => (Raise e, s).

Definition bind {S A B} (m : M S A) (k : A -> M S B) : M S B :=
  fun s =>
    match m s with
    | (Return a, s') => k a s'
    | (Raise e, s') => (Raise e, s')
    | (OutOfFuel, s') => (OutOfFuel, s')
    end.

Definition modify {S} (f : S -> S) : M S unit := fun s => (Return tt, f s).

(** A [struct] call inside a method: [struct.error] propagates. *)
Definition lift_struct {S A} (o : option A) : M S A :=
  match o with
  | Some a => ret a
  | None => raise struct_error
  end.

Declare Scope py_scope.
Delimit Scope py_scope with py.
Notation "x <- m ;; k" := (bind m (fun x => k))
  (at level 61, m at next level, right associativity) : py_scope.
Notation "m ;;; k" := (bind m (fun _ => k))
  (at level 61, right associativity) : py_scope.
Local Open Scope py_scope.

(** ** class ESPROM *)

Module ESPROM.

Definition ESP_FLASH_BEGIN := 0x02.
Definition ESP_FLASH_DATA := 0x03.
Definition ESP_FLASH_END := 0x04.
Definition ESP_MEM_BEGIN := 0x05.
Definition ESP_MEM_END := 0x06.
Definition ESP_MEM_DATA := 0x07.
Definition ESP_SYNC := 0x08.
Definition ESP_WRITE_REG := 0x09.
Definition ESP_READ_REG := 0x0a.

Definition ESP_RAM_BLOCK := 0x1800.
Definition ESP_FLASH_BLOCK := 0x400.

Definition ESP_IMAGE_MAGIC := 0xe9.
Definition ESP_CHECKSUM_MAGIC := 0xef.

(** The [serial.Serial] object behind [self._port]: its read timeout, the
    bytes the device has sent and the host has not read yet, and the bytes
    the host has written.  Once [input] is empty the device has stopped
    sending, and [read(1)] comes back empty after the timeout. *)
Record Serial := mkSerial {
  timeout : option Q;
  input : bytes;
  output : bytes
}.

(** The object itself.  [rx_calls] is a ghost counter of the calls of
    [receive_response]; no code reads it. *)
Record t := mk {
  _port : Serial;
  rx_calls : nat
}.

Definition set_timeout (v : option Q) : M t unit :=
  modify (fun s => mk (mkSerial v (input (_port s)) (output (_port s))) (rx_calls s)).

Definition get_timeout : M t (option Q) :=
  fun s => (Return (timeout (_port s)), s).

(** [self._port.read(1)] *)
Definition port_read1 : M t bytes :=
  fun s =>
    match input (_port s) with
    | [] => (Return [], s)
    | c :: rest =>
        (Return [c],
         mk (mkSerial (timeout (_port s)) rest (output (_port s))) (rx_calls s))
    end.

(** [self._port.write(buf)] *)
Definition port_write (buf : bytes) : M t unit :=
  modify (fun s =>
    mk (mkSerial (timeout (_port s)) (input (_port s)) (output (_port s) ++ buf))
       (rx_calls s)).

Definition tick_rx : M t unit :=
  modify (fun s => mk (_port s) (S (rx_calls s))).

(** The [while len(b) < length] loop of [read]. *)
Fixpoint read_loop (fuel : nat) (length : Z) (b : bytes) : M t bytes :=
  if len b <? length then
    match fuel with
    | O => fun s => (OutOfFuel, s)
    | S fuel' =>
        c <- port_read1 ;;
        if bytes_eqb c [xdb] then
          c <- port_read1 ;;
          if bytes_eqb c [xdc] then
            read_loop fuel' length (b ++ [xc0])
          else if bytes_eqb c [xdd] then
            read_loop fuel' length (b ++ [xdb])
          else
            raise (FatalError "Invalid SLIP escape" [])
        else
          read_loop fuel' length (b ++ c)
    end
  else ret b.

(** Read bytes from the serial port while performing SLIP unescaping *)
Definition read (fuel : nat) (length : Z) : M t bytes :=
  read_loop fuel length [].

(** The escaped payload [write] puts between the two delimiters. *)
Definition slip_escape (packet : bytes) : bytes :=
  replace xc0 [xdb; xdc]
    (replace xdb [xdb; xdd] packet).

(** Write bytes to the serial port while performing SLIP escaping *)
Definition write (packet : bytes) : M t unit :=
  let buf := [xc0] ++ slip_escape packet ++ [xc0] in
  port_write buf.

(** Calculate checksum of a blob, as it is defined by the ROM *)
Fixpoint checksum (data : bytes) (state : Z) : Z :=
  match data with
  | [] => state
  | b :: data' => checksum data' (Z.lxor state (ord b))
  end.

(** [if op:] is taken for an opcode that is neither [None] nor [0]. *)
Definition truthy (op : option Z) : bool :=
  match op with
  | Some o => negb (o =? 0)
  | None => false
  end.

(** [op is None or op_ret == op] *)
Definition accepts (op : option Z) (op_ret : Z) : bool :=
  match op with
  | None => true
  | Some o => op_ret =? o
  end.

Definition invalid_response_message : string :=
  String.append "Invalid response 0x%02x" (String (Ascii.ascii_of_nat 34) " to command").

(** Receive a response to a command *)
Definition receive_response (fuel : nat) : M t (Z * Z * bytes) :=
  tick_rx ;;;
  c <- port_read1 ;;
  if negb (bytes_eqb c [xc0]) then
    raise (FatalError "Invalid head of packet" [])
  else
    hdr <- read fuel 8 ;;
    fields <- lift_struct (unpack [B; B; H; I] hdr) ;;
    match fields with
    | [resp; op_ret; len_ret; val] =>
        if negb (resp =? 0x01) then
          raise (FatalError invalid_response_message [resp])
        else
          body <- read fuel len_ret ;;
          c <- port_read1 ;;
          if negb (bytes_eqb c [chr 0xc0]) then
            raise (FatalError "Invalid end of packet" [])
          else
            ret (op_ret, val, body)
    | _ => raise struct_error
    end.

(** The [while retries > 0] loop of [command]; [retries] counts down by one
    per iteration. *)
Fixpoint command_loop (fuel : nat) (retries : nat) (op : option Z)
  : M t (Z * bytes) :=
  match retries with
  | O => raise (FatalError "Response doesn't match request" [])
  | S retries' =>
      r <- receive_response fuel ;;
      let '(op_ret, val, body) := r in
      if accepts op op_ret then ret (val, body)
      else command_loop fuel retries' op
  end.

(** Send a request and read the response *)
Definition command (fuel : nat) (op : option Z) (data : option bytes) (chk : Z)
  : M t (Z * bytes) :=
  (if truthy op then
     match op, data with
     | Some o, Some d =>
         pkt <- lift_struct (pack [B; B; H; I] [0x00; o; len d; chk]) ;;
         write (pkt ++ d)
     | _, _ => raise TypeError
     end
   else ret tt) ;;;
  command_loop fuel 100 op.

(** Start downloading an application image to RAM *)
Definition mem_begin (fuel : nat) (size blocks blocksize offset : Z) : M t unit :=
  pkt <- lift_struct (pack [I; I; I; I] [size; blocks; blocksize; offset]) ;;
  res <- command fuel (Some ESP_MEM_BEGIN) (Some pkt) 0 ;;
  if negb (bytes_eqb (snd res) [x00; x00]) then
    raise (FatalError "Failed to enter RAM download mode" [])
  else ret tt.

(** The erase size [flash_begin] computes, with the names of its locals.
    [math.ceil(total_sector_num/2.0) * 4096] is taken over the rationals. *)
Definition flash_begin_size (_size offset : Z) : Z :=
  let area_len := _size in
  let sector_no := offset / 4096 in
  let sector_num_per_block := 16 in
  let total_sector_num :=
    if 0 =? area_len mod 4096 then area_len / 4096
    else 1 + area_len / 4096 in
  let head_sector_num := sector_num_per_block - sector_no mod sector_num_per_block in
  let head_sector_num :=
    if head_sector_num >=? total_sector_num then total_sector_num
    else head_sector_num in
  if total_sector_num - 2 * head_sector_num >? 0 then
    (total_sector_num - head_sector_num) * 4096
  else
    Qceiling (inject_Z total_sector_num / 2)%Q * 4096.

(** Start downloading to Flash (performs an erase) *)
Definition flash_begin (fuel : nat) (_size offset : Z) : M t unit :=
  old_tmo <- get_timeout ;;
  set_timeout (Some 10%Q) ;;;
  let size := flash_begin_size _size offset in
  pkt <- lift_struct (pack [I; I; I; I] [size; 0x200; ESP_FLASH_BLOCK; offset]) ;;
  res <- command fuel (Some ESP_FLASH_BEGIN) (Some pkt) 0 ;;
  if negb (bytes_eqb (snd res) [x00; x00]) then
    raise (Exception "Failed to enter Flash download mode")
  else
    set_timeout old_tmo.

(** Leave flash mode and run/reboot *)
Definition flash_finish (fuel : nat) (reboot : bool) : M t unit :=
  pkt <- lift_struct (pack [I] [if negb reboot then 1 else 0]) ;;
  res <- command fuel (Some ESP_FLASH_END) (Some pkt) 0 ;;
  if negb (bytes_eqb (snd res) [x00; x00]) then
    raise (FatalError "Failed to leave Flash mode" [])
  else ret tt.

(** Sflash stub: an assembly routine to read from spi flash and send to host *)
Definition SFLASH_STUB : bytes :=
  [x80; x3c; x00; x40; x1c; x4b; x00; x40; x21; x11; x00; x40; x00; x80;
   xfe; x3f; xc1; xfb; xff; xd1; xf8; xff; x2d; x0d; x31; xfd; xff; x41; xf7; xff; x4a;
   xdd; x51; xf9; xff; xc0; x05; x00; x21; xf9; xff; x31; xf3; xff; x41; xf5; xff; xc0;
   x04; x00; x0b; xcc; x56; xec; xfd; x06; xff; xff; x00; x00].

(** The [for i in xrange(7): self.command()] loop of [sync]. *)
Fixpoint sync_drain (fuel : nat) (n : nat) : M t unit :=
  match n with
  | O => ret tt
  | S n' => command fuel None None 0 ;;; sync_drain fuel n'
  end.

(** Perform a connection test *)
Definition sync (fuel : nat) : M t unit :=
  command fuel (Some ESP_SYNC)
    (Some ([x07; x07; x12; x20] ++ List.repeat x55 32)) 0 ;;;
  sync_drain fuel 7.

(** Read memory address in target *)
Definition read_reg (fuel : nat) (addr : Z) : M t Z :=
  pkt <- lift_struct (pack [I] [addr]) ;;
  res <- command fuel (Some ESP_READ_REG) (Some pkt) 0 ;;
  if negb (bytes_eqb (snd res) [x00; x00]) then
    raise (FatalError "Failed to read target memory" [])
  else ret (fst res).

(** Write to memory address in target *)
Definition write_reg (fuel : nat) (addr value mask delay_us : Z) : M t unit :=
  pkt <- lift_struct (pack [I; I; I; I] [addr; value; mask; delay_us]) ;;
  res <- command fuel (Some ESP_WRITE_REG) (Some pkt) 0 ;;
  if negb (bytes_eqb (snd res) [x00; x00]) then
    raise (FatalError "Failed to write target memory" [])
  else ret tt.

(** Send a block of an image to RAM *)
Definition mem_block (fuel : nat) (data : bytes) (seq : Z) : M t unit :=
  pkt <- lift_struct (pack [I; I; I; I] [len data; seq; 0; 0]) ;;
  res <- command fuel (Some ESP_MEM_DATA) (Some (pkt ++ data))
           (checksum data ESP_CHECKSUM_MAGIC) ;;
  if negb (bytes_eqb (snd res) [x00; x00]) then
    raise (FatalError "Failed to write to target RAM" [])
  else ret tt.

(** Leave download mode and run the application *)
Definition mem_finish (fuel : nat) (entrypoint : Z) : M t unit :=
  pkt <- lift_struct (pack [I; I] [if entrypoint =? 0 then 1 else 0; entrypoint]) ;;
  res <- command fuel (Some ESP_MEM_END) (Some pkt) 0 ;;
  if negb (bytes_eqb (snd res) [x00; x00]) then
    raise (FatalError "Failed to leave RAM download mode" [])
  else ret tt.

(** Write block to flash.  [FatalError.WithResult] formats the bytes of
    [result] into the message: they are the arguments after [seq]. *)
Definition flash_block (fuel : nat) (data : bytes) (seq : Z) : M t unit :=
  pkt <- lift_struct (pack [I; I; I; I] [len data; seq; 0; 0]) ;;
  res <- command fuel (Some ESP_FLASH_DATA) (Some (pkt ++ data))
           (checksum data ESP_CHECKSUM_MAGIC) ;;
  let result := snd res in
  if negb (bytes_eqb result [x00; x00]) then
    raise (FatalError "Failed to write to target Flash after seq %d (got result %%s)"
                      (seq :: map ord result))
  else ret tt.

(** Read SPI flash manufacturer and device id *)
Definition flash_id (fuel : nat) : M t Z :=
  flash_begin fuel 0 0 ;;;
  write_reg fuel 0x60000240 0x0 0xffffffff 0 ;;;
  write_reg fuel 0x60000200 0x10000000 0xffffffff 0 ;;;
  flash_id <- read_reg fuel 0x60000240 ;;
  flash_finish fuel false ;;;
  ret flash_id.

(** The [for _ in xrange(count)] loop of [flash_read]. *)
Fixpoint flash_read_loop (fuel : nat) (size : Z) (count : nat) (data : bytes)
  : M t bytes :=
  match count with
  | O => ret data
  | S count' =>
      c <- port_read1 ;;
      if negb (bytes_eqb c [xc0]) then
        raise (FatalError "Invalid head of packet (sflash read)" [])
      else
        block <- read fuel size ;;
        let data := data ++ block in
        c <- port_read1 ;;
        if negb (bytes_eqb c [chr 0xc0]) then
          raise (FatalError "Invalid end of packet (sflash read)" [])
        else
          flash_read_loop fuel size count' data
  end.

(** Read SPI flash *)
Definition flash_read (fuel : nat) (offset size count : Z) : M t bytes :=
  hdr <- lift_struct (pack [I; I; I] [offset; size; count]) ;;
  let stub := hdr ++ SFLASH_STUB in
  flash_begin fuel 0 0 ;;;
  mem_begin fuel (len stub) 1 (len stub) 0x40100000 ;;;
  mem_block fuel stub 0 ;;;
  mem_finish fuel 0x4010001c ;;;
  flash_read_loop fuel size (Z.to_nat count) [].

End ESPROM.

(** ** class ESPFirmwareImage *)

Module ESPFirmwareImage.

(** A Python file object: the bytes of the file and the current position. *)
Record file := mkFile {
  content : bytes;
  pos : nat
}.

(** [f.read(n)] for [n >= 0]: at most [n] bytes, fewer at end of file. *)
Definition f_read (n : Z) : M file bytes :=
  fun f =>
    let r := firstn (Z.to_nat n) (skipn (pos f) (content f)) in
    (Return r, mkFile (content f) (pos f + List.length r)).

(** [f.tell()] *)
Definition f_tell : M file Z := fun f => (Return (Z.of_nat (pos f)), f).

(** [f.seek(offset, 1)], relative to the current position. *)
Definition f_seek_cur (offset : Z) : M file unit :=
  modify (fun f => mkFile (content f) (Z.to_nat (Z.of_nat (pos f) + offset))).

(** [f.write(data)]: a gap left by seeking past the end reads as zeros. *)
Definition f_write (data : bytes) : M file unit :=
  modify (fun f =>
    let before := firstn (pos f) (content f) in
    let gap := List.repeat x00 (pos f - List.length (content f)) in
    let after := skipn (pos f + List.length data) (content f) in
    mkFile (before ++ gap ++ data ++ after) (pos f + List.length data)).

(** An element of [self.segments]: [(offset, size, data)]. *)
Definition segment : Type := Z * Z * bytes.

(** The attributes of the object; [checksum] exists only on an image that
    was read from a file. *)
Record t := mk {
  segments : list segment;
  entrypoint : Z;
  flash_mode : Z;
  flash_size_freq : Z;
  checksum : option Z
}.

(** [ESPFirmwareImage()] *)
Definition empty : t := mk [] 0 0 0 None.

(** The [for i in xrange(segments)] loop of [__init__]. *)
Fixpoint read_segments (n : nat) (segs : list segment) : M file (list segment) :=
  match n with
  | O => ret segs
  | S n' =>
      hdr <- f_read 8 ;;
      fields <- lift_struct (unpack [I; I] hdr) ;;
      match fields with
      | [offset; size] =>
          if (offset >? 0x40200000) || (offset <? 0x3ffe0000) || (size >? 65536) then
            raise (FatalError "Suspicious segment 0x%x, length %d" [offset; size])
          else
            segment_data <- f_read size ;;
            if len segment_data <? size then
              raise (FatalError
                       "End of file reading segment 0x%x, length %d (actual length %d)"
                       [offset; size; len segment_data])
            else
              read_segments n' (segs ++ [(offset, size, segment_data)])
      | _ => raise struct_error
      end
  end.

(** [ESPFirmwareImage(filename)], on the file once opened for reading. *)
Definition __init__ : M file t :=
  hdr <- f_read 8 ;;
  fields <- lift_struct (unpack [B; B; B; B; I] hdr) ;;
  match fields with
  | [magic; nsegments; flash_mode; flash_size_freq; entrypoint] =>
      if negb (magic =? ESPROM.ESP_IMAGE_MAGIC) || (nsegments >? 16) then
        raise (FatalError "Invalid firmware image" [])
      else
        segs <- read_segments (Z.to_nat nsegments) [] ;;
        p <- f_tell ;;
        let align := 15 - p mod 16 in
        f_seek_cur align ;;;
        c <- f_read 1 ;;
        match c with
        | [b] => ret (mk segs entrypoint flash_mode flash_size_freq (Some (ord b)))
        | _ => raise TypeError
        end
  | _ => raise struct_error
  end.

(** The [for (offset, size, data) in self.segments] loop of [save]. *)
Fixpoint save_segments (segs : list segment) (checksum : Z) : M file Z :=
  match segs with
  | [] => ret checksum
  | (offset, size, data) :: segs' =>
      hdr <- lift_struct (pack [I; I] [offset; size]) ;;
      f_write hdr ;;;
      f_write data ;;;
      save_segments segs' (ESPROM.checksum data checksum)
  end.

(** [save], on the file once opened for writing. *)
Definition save (self : t) : M file unit :=
  hdr <- lift_struct (pack [B; B; B; B; I]
                        [ESPROM.ESP_IMAGE_MAGIC; len (segments self);
                         flash_mode self; flash_size_freq self; entrypoint self]) ;;
  f_write hdr ;;;
  checksum <- save_segments (segments self) ESPROM.ESP_CHECKSUM_MAGIC ;;
  p <- f_tell ;;
  let align := 15 - p mod 16 in
  f_seek_cur align ;;;
  last <- lift_struct (pack [B] [checksum]) ;;
  f_write last.

(** [file(filename, 'wb')]: the file is created empty. *)
Definition open_wb : file := mkFile [] 0.

(** [file(filename, 'rb')] on a file holding [data]. *)
Definition open_rb (data : bytes) : file := mkFile data 0.

(** The checksum the [image_info] operation of [main] recomputes. *)
Definition image_info_checksum (image : t) : Z :=
  fold_left (fun checksum '(offset, size, data) => ESPROM.checksum data checksum)
            (segments image) ESPROM.ESP_CHECKSUM_MAGIC.

(** [add_segment]: the object after the call. *)
Definition add_segment (addr : Z) (data : bytes) (self : t) : t :=
  let l := len data in
  let data :=
    if negb (l mod 4 =? 0) then data ++ List.repeat x00 (Z.to_nat (4 - l mod 4))
    else data in
  if l >? 0 then
    mk (segments self ++ [(addr, len data, data)]) (entrypoint self)
       (flash_mode self) (flash_size_freq self) (checksum self)
  else self.

End ESPFirmwareImage.

(** ** Module-level functions *)

(** Return a/b rounded up to nearest integer *)
Definition div_roundup (a b : Z) : Z := (a + b - 1) / b.

(** ** Operations of [main] on images *)

(** The [make_image] operation: [segfile] holds the contents of the
    segment input files, [segaddr] the base addresses. *)
Definition make_image (segfile : list bytes) (segaddr : list Z) (entrypoint : Z)
  : M ESPFirmwareImage.file unit :=
  let image := ESPFirmwareImage.empty in
  if len segfile =? 0 then
    raise (FatalError "No segments specified" [])
  else if negb (len segfile =? len segaddr) then
    raise (FatalError
             "Number of specified files does not match number of specified addresses" [])
  else
    let image :=
      fold_left (fun image '(data, addr) => ESPFirmwareImage.add_segment addr data image)
                (combine segfile segaddr) image in
    let image :=
      ESPFirmwareImage.mk (ESPFirmwareImage.segments image) entrypoint
        (ESPFirmwareImage.flash_mode image) (ESPFirmwareImage.flash_size_freq image)
        (ESPFirmwareImage.checksum image) in
    ESPFirmwareImage.save image.

(** What the [image_info] operation prints after [Checksum:]: whether the
    stored checksum is the recomputed one. *)
Definition image_info_valid (image : ESPFirmwareImage.t) : bool :=
  match ESPFirmwareImage.checksum image with
  | Some c => c =? ESPFirmwareImage.image_info_checksum image
  | None => false
  end.

(** ** The [write_flash] operation of [main], for one address and file *)

(** The block the loop of [write_flash] sends at sequence number [seq]
    when [image] is what is left of the file: the next 0x400 bytes, with
    the flash configuration bytes put into the first block of an image
    written at address 0, padded with 0xFF. *)
Definition write_flash_block (flash_info : bytes) (address seq : Z) (image : bytes)
  : bytes :=
  let block := firstn (Z.to_nat ESPROM.ESP_FLASH_BLOCK) image in
  let block :=
    if (address =? 0) && (seq =? 0) && bytes_eqb (firstn 1 block) [xe9] then
      firstn 2 block ++ flash_info ++ skipn 4 block
    else block in
  block ++ List.repeat xff (Z.to_nat (ESPROM.ESP_FLASH_BLOCK - len block)).

(** The [while len(image) > 0] loop of [write_flash]; [turns] bounds its
    number of turns.  It returns [written], which the code prints. *)
Fixpoint write_flash_loop (fuel turns : nat) (flash_info : bytes) (address : Z)
    (image : bytes) (seq written : Z) : M ESPROM.t Z :=
  if len image >? 0 then
    match turns with
    | O => fun s => (OutOfFuel, s)
    | S turns' =>
        let block := write_flash_block flash_info address seq image in
        ESPROM.flash_block fuel block seq ;;;
        write_flash_loop fuel turns' flash_info address
          (skipn (Z.to_nat ESPROM.ESP_FLASH_BLOCK) image) (seq + 1) (written + len block)
    end
  else ret written.

(** One turn of the [while args.addr_filename] loop of [write_flash], on
    the contents [image] of the file. *)
Definition write_flash_file (fuel turns : nat) (flash_info : bytes) (address : Z)
    (image : bytes) : M ESPROM.t Z :=
  let blocks := div_roundup (len image) ESPROM.ESP_FLASH_BLOCK in
  ESPROM.flash_begin fuel (blocks * ESPROM.ESP_FLASH_BLOCK) address ;;;
  write_flash_loop fuel turns flash_info address image 0 0.

(** ** The [load_ram] operation of [main] *)

(** The [while len(data) > 0] loop of [load_ram]; [turns] bounds its number
    of turns. *)
Fixpoint load_ram_blocks (fuel turns : nat) (data : bytes) (seq : Z)
  : M ESPROM.t unit :=
  if len data >? 0 then
    match turns with
    | O => fun s => (OutOfFuel, s)
    | S turns' =>
        ESPROM.mem_block fuel (firstn (Z.to_nat ESPROM.ESP_RAM_BLOCK) data) seq ;;;
        load_ram_blocks fuel turns' (skipn (Z.to_nat ESPROM.ESP_RAM_BLOCK) data) (seq + 1)
    end
  else ret tt.

(** The [for (offset, size, data) in image.segments] loop of [load_ram]. *)
Fixpoint load_ram_segments (fuel turns : nat) (segs : list ESPFirmwareImage.segment)
  : M ESPROM.t unit :=
  match segs with
  | [] => ret tt
  | (offset, size, data) :: segs' =>
      ESPROM.mem_begin fuel size (div_roundup size ESPROM.ESP_RAM_BLOCK)
        ESPROM.ESP_RAM_BLOCK offset ;;;
      load_ram_blocks fuel turns data 0 ;;;
      load_ram_segments fuel turns segs'
  end.

(** [load_ram], on the image once read from the file. *)
Definition load_ram (fuel turns : nat) (image : ESPFirmwareImage.t) : M ESPROM.t unit :=
  load_ram_segments fuel turns (ESPFirmwareImage.segments image) ;;;
  ESPROM.mem_finish fuel (ESPFirmwareImage.entrypoint image).

(** ** The guard around [main] *)

(** The exit status of the interpreter after [try: main() except FatalError],
    given how [main] ended: [sys.exit(2)] in the handler, status 1 with a
    traceback for an exception the handler does not catch. *)
Definition exit_status {A} (r : outcome A) : option Z :=
  match r with
  | Return _ => Some 0
  | Raise (FatalError _ _) => Some 2
  | Raise _ => Some 1
  | OutOfFuel => None
  end.

(** * Vocabulary of the statements *)

(** The object [st] with the unread device bytes replaced by [i]. *)
Definition with_input (st : ESPROM.t) (i : bytes) : ESPROM.t :=
  ESPROM.mk
    (ESPROM.mkSerial (ESPROM.timeout (ESPROM._port st)) i
                     (ESPROM.output (ESPROM._port st)))
    (ESPROM.rx_calls st).

(** The object [st] with [o] as the bytes written to the device so far. *)
Definition with_output (st : ESPROM.t) (o : bytes) : ESPROM.t :=
  ESPROM.mk
    (ESPROM.mkSerial (ESPROM.timeout (ESPROM._port st))
                     (ESPROM.input (ESPROM._port st)) o)
    (ESPROM.rx_calls st).

(** A port on which the device sends nothing. *)
Definition silent (st : ESPROM.t) : Prop := ESPROM.input (ESPROM._port st) = [].

(** The erase size as the specification words it: [S] the requested size in
    bytes, [O] the flash offset, [ceil] the ceiling of a rational. *)
Definition ceil (x : Q) : Z := Qceiling x.

Definition spec_erase_size (S O : Z) : Z :=
  let total_sectors := ceil (inject_Z S / 4096) in
  let head_sectors := Z.min (16 - (O / 4096) mod 16) total_sectors in
  if total_sectors - 2 * head_sectors >? 0 then
    (total_sectors - head_sectors) * 4096
  else
    ceil (inject_Z total_sectors / 2) * 4096.

(** A response of the device, as [receive_response] returns it. *)
Record response := mkResponse {
  r_op : Z;
  r_val : Z;
  r_body : bytes
}.

(** A response is well formed when its fields fit the wire format
    [direction=0x01][opcode:u8][length:u16][value:u32] + body. *)
Definition wf_response (r : response) : Prop :=
  0 <= r_op r < 256 /\ 0 <= r_val r < 2 ^ 32 /\ len (r_body r) < 65536.

(** The bytes of a response before framing. *)
Definition response_packet (r : response) : bytes :=
  le_bytes 1 0x01 ++ le_bytes 1 (r_op r) ++ le_bytes 2 (len (r_body r))
    ++ le_bytes 4 (r_val r) ++ r_body r.

(** The frame the device puts on the wire for a response. *)
Definition response_frame (r : response) : bytes :=
  [xc0] ++ ESPROM.slip_escape (response_packet r) ++ [xc0].

Definition response_frames (rs : list response) : bytes :=
  List.concat (map response_frame rs).

(** The object [st] after [n] more calls of [receive_response]. *)
Definition ticks (n : nat) (st : ESPROM.t) : ESPROM.t :=
  ESPROM.mk (ESPROM._port st) (n + ESPROM.rx_calls st).

(** A request [command] can pack: opcode u8, body length u16, checksum u32. *)
Definition wf_request (op : Z) (data : bytes) (chk : Z) : Prop :=
  0 <= op < 256 /\ len data < 65536 /\ 0 <= chk < 2 ^ 32.

(** [fuel] turns are enough for [read] to take the header and the body of
    each of the responses [rs]. *)
Definition enough_fuel (fuel : nat) (rs : list response) : Prop :=
  (8 <= fuel)%nat /\ Forall (fun r => (List.length (r_body r) <= fuel)%nat) rs.

(** The bytes of a request before framing. *)
Definition request_packet (op : Z) (data : bytes) (chk : Z) : bytes :=
  (le_bytes 1 0x00 ++ le_bytes 1 op ++ le_bytes 2 (len data) ++ le_bytes 4 chk ++ [])
    ++ data.

(** The object once [command] has sent its request; opcode 0 sends nothing. *)
Definition after_request (op : Z) (data : bytes) (chk : Z) (st : ESPROM.t) : ESPROM.t :=
  if op =? 0 then st
  else with_output st
         (ESPROM.output (ESPROM._port st)
            ++ [xc0] ++ ESPROM.slip_escape (request_packet op data chk) ++ [xc0]).

(** The object [st] with the read timeout of its port set to [v]. *)
Definition with_timeout (st : ESPROM.t) (v : option Q) : ESPROM.t :=
  ESPROM.mk
    (ESPROM.mkSerial v (ESPROM.input (ESPROM._port st))
                     (ESPROM.output (ESPROM._port st)))
    (ESPROM.rx_calls st).

(** A computation on the object that leaves the read timeout as it was,
    however it ends. *)
Definition keeps_timeout {A} (m : M ESPROM.t A) : Prop :=
  forall st, ESPROM.timeout (ESPROM._port (snd (m st))) = ESPROM.timeout (ESPROM._port st).

(** A device that answers the flash-begin request of [flash_begin(0, 0)]
    with the status bytes 01 06 in the body; the port timeout is 5 seconds. *)
Definition refusing_device : ESPROM.t :=
  ESPROM.mk
    (ESPROM.mkSerial (Some 5%Q)
       (response_frame (mkResponse ESPROM.ESP_FLASH_BEGIN 0 [x01; x06])) []) 0.

(** The bytes of a segment in an image file: header, then data. *)
Definition seg_bytes (s : ESPFirmwareImage.segment) : bytes :=
  let '(offset, size, data) := s in
  (le_bytes 4 offset ++ le_bytes 4 size ++ []) ++ data.

Definition segs_bytes (segs : list ESPFirmwareImage.segment) : bytes :=
  List.concat (map seg_bytes segs).

(** A segment the parser accepts: the stored size is the length of the
    data, the load address is in [0x3ffe0000, 0x40200000], the size is at
    most 65536. *)
Definition seg_ok (s : ESPFirmwareImage.segment) : Prop :=
  let '(offset, size, data) := s in
  size = len data /\ 0x3ffe0000 <= offset <= 0x40200000 /\ size <= 65536.

(** The checksum folded over the data of the segments, from [checksum]. *)
Definition segments_checksum (segs : list ESPFirmwareImage.segment) (checksum : Z) : Z :=
  fold_left (fun checksum '(offset, size, data) => ESPROM.checksum data checksum)
            segs checksum.

(** The header fields [save] writes fit their codes. *)
Definition header_ok (image : ESPFirmwareImage.t) : Prop :=
  0 <= ESPFirmwareImage.flash_mode image < 256
  /\ 0 <= ESPFirmwareImage.flash_size_freq image < 256
  /\ 0 <= ESPFirmwareImage.entrypoint image < 2 ^ 32.

(** The bytes [save] writes for an image: header, segments, zero padding
    up to one byte short of a multiple of 16, checksum byte. *)
Definition image_header (image : ESPFirmwareImage.t) : bytes :=
  le_bytes 1 ESPROM.ESP_IMAGE_MAGIC
    ++ le_bytes 1 (len (ESPFirmwareImage.segments image))
    ++ le_bytes 1 (ESPFirmwareImage.flash_mode image)
    ++ le_bytes 1 (ESPFirmwareImage.flash_size_freq image)
    ++ le_bytes 4 (ESPFirmwareImage.entrypoint image) ++ [].

Definition image_body (image : ESPFirmwareImage.t) : bytes :=
  image_header image ++ segs_bytes (ESPFirmwareImage.segments image).

Definition image_padding (image : ESPFirmwareImage.t) : nat :=
  Z.to_nat (15 - len (image_body image) mod 16).

Definition image_bytes (image : ESPFirmwareImage.t) : bytes :=
  image_body image
    ++ List.repeat x00 (image_padding image)
    ++ le_bytes 1 (segments_checksum (ESPFirmwareImage.segments image)
                     ESPROM.ESP_CHECKSUM_MAGIC) ++ [].

(** The two-segment image of the specification's checksum example. *)
Definition example_image : ESPFirmwareImage.t :=
  ESPFirmwareImage.mk
    [(0x40100000, 4, [x00; x00; x00; x00]); (0x3ffe8000, 4, [xff; xff; xff; xff])]
    0x40100004 0 0 None.

(** A segment whose header [save] can pack: address and size are u32. *)
Definition seg_packable (s : ESPFirmwareImage.segment) : Prop :=
  let '(offset, size, data) := s in
  0 <= offset < 2 ^ 32 /\ 0 <= size < 2 ^ 32.

(** The segments [add_segment] builds from (data, address) pairs. *)
Definition added_segments (parts : list (bytes * Z)) : list ESPFirmwareImage.segment :=
  ESPFirmwareImage.segments
    (fold_left (fun image '(data, addr) => ESPFirmwareImage.add_segment addr data image)
               parts ESPFirmwareImage.empty).

(** An input of [make_image] that ends in a parsable image: a load address
    in [0x3ffe0000, 0x40200000] and at most 65536 bytes. *)
Definition part_ok (p : bytes * Z) : Prop :=
  let '(data, addr) := p in
  0x3ffe0000 <= addr <= 0x40200000 /\ len data <= 65536.

(** [st'] is [st] after [n] more calls of [receive_response] that left
    [rest] unread on the wire, with the read timeout as it was. *)
Definition served_by (n : nat) (rest : bytes) (st st' : ESPROM.t) : Prop :=
  ESPROM.input (ESPROM._port st') = rest
  /\ ESPROM.timeout (ESPROM._port st') = ESPROM.timeout (ESPROM._port st)
  /\ ESPROM.rx_calls st' = (n + ESPROM.rx_calls st)%nat.

(** A well-formed response to [op] that reports success. *)
Definition ack (op : Z) (r : response) : Prop :=
  wf_response r /\ r_op r = op /\ r_body r = [x00; x00].

(** The frame the flash-read stub sends for one block. *)
Definition block_frame (block : bytes) : bytes :=
  [xc0] ++ ESPROM.slip_escape block ++ [xc0].

(** The frame of the FLASH_DATA request for [block] at sequence number
    [seq]. *)
Definition flash_data_frame (seq : Z) (block : bytes) : bytes :=
  [xc0]
    ++ ESPROM.slip_escape
         (request_packet ESPROM.ESP_FLASH_DATA
            ((le_bytes 4 (len block) ++ le_bytes 4 seq ++ le_bytes 4 0 ++ le_bytes 4 0 ++ [])
               ++ block)
            (ESPROM.checksum block ESPROM.ESP_CHECKSUM_MAGIC))
    ++ [xc0].

(** The frames of consecutive blocks, numbered from [seq]. *)
Fixpoint flash_data_frames (seq : Z) (blocks : list bytes) : bytes :=
  match blocks with
  | [] => []
  | b :: blocks' => flash_data_frame seq b ++ flash_data_frames (seq + 1) blocks'
  end.

(** The blocks the loop of [write_flash] goes through in at most [turns]
    turns. *)
Fixpoint flash_blocks (turns : nat) (flash_info : bytes) (address seq : Z)
    (image : bytes) : list bytes :=
  match turns with
  | O => []
  | S turns' =>
      if len image >? 0 then
        write_flash_block flash_info address seq image
          :: flash_blocks turns' flash_info address (seq + 1)
               (skipn (Z.to_nat ESPROM.ESP_FLASH_BLOCK) image)
      else []
  end.

(** The frame of a request. *)
Definition request_frame (op : Z) (data : bytes) (chk : Z) : bytes :=
  [xc0] ++ ESPROM.slip_escape (request_packet op data chk) ++ [xc0].

(** [data] cut into pieces of 0x1800 bytes, the last one shorter; at most
    [turns] pieces. *)
Fixpoint ram_chunks (turns : nat) (data : bytes) : list bytes :=
  match turns with
  | O => []
  | S turns' =>
      if len data >? 0 then
        firstn (Z.to_nat ESPROM.ESP_RAM_BLOCK) data
          :: ram_chunks turns' (skipn (Z.to_nat ESPROM.ESP_RAM_BLOCK) data)
      else []
  end.

(** The frames of the MEM_DATA requests for consecutive blocks, numbered
    from [seq]. *)
Fixpoint mem_data_frames (seq : Z) (blocks : list bytes) : bytes :=
  match blocks with
  | [] => []
  | b :: blocks' =>
      request_frame ESPROM.ESP_MEM_DATA
        ((le_bytes 4 (len b) ++ le_bytes 4 seq ++ le_bytes 4 0 ++ le_bytes 4 0 ++ []) ++ b)
        (ESPROM.checksum b ESPROM.ESP_CHECKSUM_MAGIC)
        ++ mem_data_frames (seq + 1) blocks'
  end.

(** The frames that upload one segment to RAM: the MEM_BEGIN request with
    the size, the number of blocks, the block size and the address, then
    the blocks. *)
Definition segment_frames (turns : nat) (s : ESPFirmwareImage.segment) : bytes :=
  let '(offset, size, data) := s in
  request_frame ESPROM.ESP_MEM_BEGIN
    (le_bytes 4 size ++ le_bytes 4 (len (ram_chunks turns data))
       ++ le_bytes 4 ESPROM.ESP_RAM_BLOCK ++ le_bytes 4 offset ++ []) 0
    ++ mem_data_frames 0 (ram_chunks turns data).

(** The opcodes of the requests [load_ram] makes for the segments. *)
Definition segment_ops (turns : nat) (s : ESPFirmwareImage.segment) : list Z :=
  let '(offset, size, data) := s in
  ESPROM.ESP_MEM_BEGIN
    :: List.repeat ESPROM.ESP_MEM_DATA (List.length (ram_chunks turns data)).

(** * Python values: facts *)

Section PyFacts.

Lemma byte_eqb_refl (c : byte) : Byte.eqb c c = true.
Proof. now apply Byte.byte_dec_lb. Qed.

Lemma byte_eqb_neq (c d : byte) : c <> d -> Byte.eqb c d = false.
Proof.
  intros Hne. destruct (Byte.eqb c d) eqn:E; [|reflexivity].
  now apply Byte.byte_dec_bl in E.
Qed.

Lemma bytes_eqb_eq (a b : bytes) : bytes_eqb a b = true <-> a = b.
Proof.
  revert b. induction a as [|x a IH]; intros [|y b]; simpl; split; try easy.
  - intros [E1 E2]%andb_true_iff. apply Byte.byte_dec_bl in E1.
    apply IH in E2. congruence.
  - intros [= -> ->]. rewrite byte_eqb_refl. now apply IH.
Qed.

Lemma bytes_eqb_refl (a : bytes) : bytes_eqb a a = true.
Proof. now apply bytes_eqb_eq. Qed.

Lemma ord_range (c : byte) : 0 <= ord c <= 255.
Proof. unfold ord. pose proof (Byte.to_N_bounded c). lia. Qed.

Lemma chr_ord (c : byte) : chr (ord c) = c.
Proof. unfold chr, ord. now rewrite N2Z.id, Byte.of_to_N. Qed.

Lemma ord_chr (z : Z) : 0 <= z <= 255 -> ord (chr z) = z.
Proof.
  intros Hz. unfold chr, ord.
  destruct (Byte.of_N (Z.to_N z)) as [c|] eqn:E.
  - apply Byte.to_of_N in E. rewrite E. lia.
  - apply Byte.of_N_None_iff in E. lia.
Qed.

Lemma replace_app old new (a b : bytes) :
  replace old new (a ++ b) = replace old new a ++ replace old new b.
Proof.
  induction a as [|c a IH]; simpl; [reflexivity|].
  now rewrite IH, app_assoc.
Qed.

Lemma length_le_bytes n x : List.length (le_bytes n x) = n.
Proof. revert x. induction n; intros x; simpl; congruence. Qed.

Lemma le_int_le_bytes n x :
  0 <= x < 256 ^ Z.of_nat n -> le_int (le_bytes n x) = x.
Proof.
  revert x. induction n as [|n IH]; intros x Hx.
  - simpl in *. lia.
  - cbn [le_bytes le_int].
    rewrite Nat2Z.inj_succ, Z.pow_succ_r in Hx by lia.
    rewrite ord_chr by (pose proof (Z.mod_pos_bound x 256); lia).
    rewrite IH.
    + pose proof (Z.div_mod x 256). lia.
    + split; [apply Z.div_pos; lia | apply Z.div_lt_upper_bound; lia].
Qed.

Lemma le_int_range bs : 0 <= le_int bs < 256 ^ len bs.
Proof.
  unfold len. induction bs as [|c bs IH].
  - simpl. lia.
  - cbn [le_int List.length]. rewrite Nat2Z.inj_succ, Z.pow_succ_r by lia.
    pose proof (ord_range c). lia.
Qed.

Lemma le_bytes_le_int bs : le_bytes (List.length bs) (le_int bs) = bs.
Proof.
  induction bs as [|c bs IH]; [reflexivity|].
  cbn [le_int List.length le_bytes]. pose proof (ord_range c) as Hc.
  replace ((ord c + 256 * le_int bs) mod 256) with (ord c).
  2:{ apply (Z.mod_unique _ _ (le_int bs)); lia. }
  replace ((ord c + 256 * le_int bs) / 256) with (le_int bs).
  2:{ apply (Z.div_unique _ _ _ (ord c)); lia. }
  now rewrite chr_ord, IH.
Qed.

Lemma in_range_spec c x :
  in_range c x = true <-> 0 <= x < 256 ^ Z.of_nat (code_size c).
Proof. unfold in_range. rewrite andb_true_iff, Z.leb_le, Z.ltb_lt. tauto. Qed.

(** What [pack] produced has the size of the format and unpacks to the
    values packed, whatever follows it. *)
Lemma unpack_fields_pack fmt : forall vals bs rest,
  pack fmt vals = Some bs ->
  List.length bs = calcsize fmt /\ unpack_fields fmt (bs ++ rest) = vals.
Proof.
  induction fmt as [|c fmt IH]; intros [|v vals] bs rest Hp; simpl in Hp; try discriminate.
  - injection Hp as <-. now split.
  - destruct (in_range c v) eqn:Hr; [|discriminate].
    destruct (pack fmt vals) as [bs'|] eqn:Hp'; [|discriminate].
    injection Hp as <-. apply in_range_spec in Hr.
    destruct (IH _ _ rest Hp') as [Hl Hu].
    split.
    + rewrite length_app, length_le_bytes. simpl. lia.
    + cbn [unpack_fields]. rewrite <- app_assoc.
      rewrite firstn_app, skipn_app, length_le_bytes, Nat.sub_diag. simpl firstn at 2.
      rewrite app_nil_r.
      rewrite firstn_all2, skipn_all2 by (rewrite length_le_bytes; lia).
      simpl app. now rewrite le_int_le_bytes, Hu.
Qed.

Lemma unpack_pack fmt vals bs :
  pack fmt vals = Some bs -> unpack fmt bs = Some vals.
Proof.
  intros Hp. destruct (unpack_fields_pack fmt vals bs [] Hp) as [Hl Hu].
  unfold unpack. rewrite Hl, Nat.eqb_refl. rewrite app_nil_r in Hu. now rewrite Hu.
Qed.

End PyFacts.

(** * The framing layer *)

Section MonadFacts.

Context {S A B : Type}.

Lemma bind_Return (m : M S A) (k : A -> M S B) s a s' :
  m s = (Return a, s') -> bind m k s = k a s'.
Proof. intros Hm. unfold bind. now rewrite Hm. Qed.

Lemma bind_Raise (m : M S A) (k : A -> M S B) s e s' :
  m s = (Raise e, s') -> bind m k s = (Raise e, s').
Proof. intros Hm. unfold bind. now rewrite Hm. Qed.

Lemma bind_OutOfFuel (m : M S A) (k : A -> M S B) s s' :
  m s = (OutOfFuel, s') -> bind m k s = (OutOfFuel, s').
Proof. intros Hm. unfold bind. now rewrite Hm. Qed.

Lemma bind_ret (a : A) (k : A -> M S B) : bind (ret a) k = k a.
Proof. reflexivity. Qed.

End MonadFacts.

Section Framing.

Import ESPROM.

Lemma with_input_same st : with_input st (input (_port st)) = st.
Proof. now destruct st as [[? ? ?] ?]. Qed.

Lemma with_input_idem st i j : with_input (with_input st i) j = with_input st j.
Proof. reflexivity. Qed.

Lemma port_read1_cons st c rest :
  input (_port st) = c :: rest ->
  port_read1 st = (Return [c], with_input st rest).
Proof. intros Hi. unfold port_read1. now rewrite Hi. Qed.

Lemma port_read1_nil st :
  input (_port st) = [] -> port_read1 st = (Return [], st).
Proof. intros Hi. unfold port_read1. now rewrite Hi. Qed.

(** One turn of the loop of [read]. *)
Lemma read_loop_S fuel length b :
  read_loop (S fuel) length b =
  (if len b <? length then
     (c <- port_read1 ;;
      if bytes_eqb c [xdb] then
        c <- port_read1 ;;
        if bytes_eqb c [xdc] then read_loop fuel length (b ++ [xc0])
        else if bytes_eqb c [xdd] then read_loop fuel length (b ++ [xdb])
        else raise (FatalError "Invalid SLIP escape" [])
      else read_loop fuel length (b ++ c))
   else ret b).
Proof. reflexivity. Qed.

Lemma read_loop_done fuel length b :
  length <= len b -> read_loop fuel length b = ret b.
Proof.
  intros Hl. destruct fuel; simpl;
    (destruct (len b <? length) eqn:E; [apply Z.ltb_lt in E; lia | reflexivity]).
Qed.

Lemma slip_escape_cons c packet :
  slip_escape (c :: packet) =
  (if Byte.eqb c xdb then [xdb; xdd]
   else if Byte.eqb c xc0 then [xdb; xdc] else [c]) ++ slip_escape packet.
Proof.
  unfold slip_escape. cbn [replace]. rewrite replace_app.
  destruct (Byte.eqb c xdb); [reflexivity|].
  cbn [replace]. now rewrite app_nil_r.
Qed.

Lemma slip_escape_app a b : slip_escape (a ++ b) = slip_escape a ++ slip_escape b.
Proof. unfold slip_escape. now rewrite !replace_app. Qed.

Lemma len_app {A} (a b : list A) : len (a ++ b) = len a + len b.
Proof. unfold len. rewrite length_app. lia. Qed.

Lemma len_nonneg {A} (a : list A) : 0 <= len a.
Proof. unfold len. lia. Qed.

(** The loop of [read] undoes [slip_escape]: started with [b] already
    decoded and the escaped form of [packet] next on the wire, it returns
    [b ++ packet] and leaves what follows unread. *)
Lemma read_loop_slip_escape packet : forall fuel length b st rest,
  (List.length packet <= fuel)%nat ->
  length = len b + len packet ->
  input (_port st) = slip_escape packet ++ rest ->
  read_loop fuel length b st = (Return (b ++ packet), with_input st rest).
Proof.
  induction packet as [|c packet IH]; intros fuel length b st rest Hf Hl Hi.
  - rewrite read_loop_done by (unfold len in *; simpl in *; lia).
    unfold ret. rewrite app_nil_r. simpl in Hi. now rewrite <- Hi, with_input_same.
  - destruct fuel as [|fuel]; [simpl in Hf; lia|].
    rewrite read_loop_S.
    assert ((len b <? length) = true) as ->.
    { apply Z.ltb_lt. unfold len in *. simpl in *. lia. }
    rewrite slip_escape_cons in Hi.
    assert (Hl' : forall x, length = len (b ++ [x]) + len packet).
    { intros x. rewrite len_app. unfold len in *. simpl in *. lia. }
    assert (Hf' : (List.length packet <= fuel)%nat) by (simpl in Hf; lia).
    destruct (Byte.eqb c xdb) eqn:Edb.
    + apply Byte.byte_dec_bl in Edb. subst c. cbn [app] in Hi.
      rewrite (bind_Return _ _ _ _ _ (port_read1_cons _ _ _ Hi)).
      cbn [bytes_eqb]. rewrite byte_eqb_refl. cbn [andb].
      rewrite (bind_Return _ _ _ [xdd] (with_input st (slip_escape packet ++ rest)))
        by reflexivity.
      change (bytes_eqb [xdd] [xdc]) with false.
      change (bytes_eqb [xdd] [xdd]) with true. cbv iota.
      rewrite (IH fuel length (b ++ [xdb]) (with_input st (slip_escape packet ++ rest))
                 rest Hf' (Hl' _) eq_refl).
      now rewrite <- app_assoc.
    + destruct (Byte.eqb c xc0) eqn:Ec0.
      * apply Byte.byte_dec_bl in Ec0. subst c. cbn [app] in Hi.
        rewrite (bind_Return _ _ _ _ _ (port_read1_cons _ _ _ Hi)).
        change (bytes_eqb [xdb] [xdb]) with true. cbv iota.
        rewrite (bind_Return _ _ _ [xdc] (with_input st (slip_escape packet ++ rest)))
          by reflexivity.
        change (bytes_eqb [xdc] [xdc]) with true. cbv iota.
        rewrite (IH fuel length (b ++ [xc0]) (with_input st (slip_escape packet ++ rest))
                   rest Hf' (Hl' _) eq_refl).
        now rewrite <- app_assoc.
      * cbn [app] in Hi.
        rewrite (bind_Return _ _ _ _ _ (port_read1_cons _ _ _ Hi)).
        cbn [bytes_eqb]. rewrite Edb. cbn [andb].
        rewrite (IH fuel length (b ++ [c]) (with_input st (slip_escape packet ++ rest))
                   rest Hf' (Hl' _) eq_refl).
        now rewrite <- app_assoc.
Qed.

Lemma read_slip_escape packet fuel st rest :
  (List.length packet <= fuel)%nat ->
  input (_port st) = slip_escape packet ++ rest ->
  read fuel (len packet) st = (Return packet, with_input st rest).
Proof.
  intros Hf Hi. unfold read.
  now rewrite (read_loop_slip_escape packet fuel (len packet) [] st rest Hf).
Qed.

Lemma read_slip_escape_to packet fuel length st rest st' :
  (List.length packet <= fuel)%nat ->
  length = len packet ->
  input (_port st) = slip_escape packet ++ rest ->
  st' = with_input st rest ->
  read fuel length st = (Return packet, st').
Proof. intros Hf -> Hi ->. now apply read_slip_escape. Qed.

Lemma replace_not_In old new s : ~ In old new -> ~ In old (replace old new s).
Proof.
  intros Hn. induction s as [|c s IH]; simpl; [easy|].
  rewrite in_app_iff. intros [Hin | Hin]; [|easy].
  destruct (Byte.eqb c old) eqn:E; [easy|].
  apply Byte.eqb_false in E. simpl in Hin. intuition congruence.
Qed.

(** C1. Escaping and unescaping are inverse.  [write b] puts the delimiter,
    [slip_escape b] and the delimiter on the wire; [read], given as many
    turns as [b] has bytes and a wire that carries [slip_escape b] followed
    by anything, returns exactly [b] and consumes exactly the escaped bytes.
    No condition is put on [b]: it may hold 0xC0 and 0xDB. *)
Theorem slip_escape_read_roundtrip (b rest : bytes) (fuel : nat) (st0 st : t) :
  (List.length b <= fuel)%nat ->
  input (_port st) = slip_escape b ++ rest ->
  write b st0
    = (Return tt, with_output st0 (output (_port st0) ++ [xc0] ++ slip_escape b ++ [xc0]))
  /\ read fuel (len b) st = (Return b, with_input st rest).
Proof.
  intros Hf Hi. split; [reflexivity|].
  now apply read_slip_escape.
Qed.

Lemma slip_escape_read_roundtrip_witness :
  let b := [xc0; xdb; x01; xdc; xdd; xc0] in
  let st := mk (mkSerial (Some 5%Q) (slip_escape b ++ [xc0]) []) 0 in
  write b st
    = (Return tt, with_output st (output (_port st) ++ [xc0] ++ slip_escape b ++ [xc0]))
  /\ read 6 (len b) st = (Return b, with_input st [xc0]).
Proof.
  intros b st.
  apply (slip_escape_read_roundtrip b [xc0] 6 st st); [vm_compute; lia | reflexivity].
Defined.

(** C9. Between the two delimiters [write] emits [slip_escape packet], and
    the raw delimiter 0xC0 does not occur in it. *)
Theorem write_payload_has_no_delimiter (packet : bytes) (st : t) :
  write packet st
    = (Return tt,
       with_output st (output (_port st) ++ [xc0] ++ slip_escape packet ++ [xc0]))
  /\ ~ In xc0 (slip_escape packet).
Proof.
  split; [reflexivity|].
  unfold slip_escape. apply replace_not_In.
  simpl. intros [Hx | [Hx | []]]; discriminate.
Qed.

(** While [b] is short of [length] and the device sends nothing, a turn of
    the loop of [read] changes nothing: no amount of fuel ends it. *)
Lemma read_loop_silent fuel : forall length b st,
  len b < length -> silent st ->
  read_loop fuel length b st = (OutOfFuel, st).
Proof.
  induction fuel as [|fuel IH]; intros length b st Hl Hs.
  - simpl. apply Z.ltb_lt in Hl. now rewrite Hl.
  - rewrite read_loop_S. pose proof Hl as Hl'. apply Z.ltb_lt in Hl'. rewrite Hl'.
    rewrite (bind_Return _ _ _ _ _ (port_read1_nil _ Hs)).
    cbn [bytes_eqb]. rewrite app_nil_r. now apply IH.
Qed.

(** When the loop of [read] returns, it returns exactly [length] bytes. *)
Lemma read_loop_returns fuel : forall length b st r st',
  len b <= length ->
  read_loop fuel length b st = (Return r, st') -> len r = length.
Proof.
  induction fuel as [|fuel IH]; intros length b st r st' Hl Hr.
  - simpl in Hr. destruct (len b <? length) eqn:E; [discriminate|].
    apply Z.ltb_ge in E. injection Hr as <- _. lia.
  - rewrite read_loop_S in Hr. destruct (len b <? length) eqn:E.
    2:{ apply Z.ltb_ge in E. injection Hr as <- _. lia. }
    apply Z.ltb_lt in E.
    assert (Hx : forall x, len (b ++ [x]) <= length).
    { intros x. rewrite len_app. unfold len at 2. simpl. lia. }
    unfold bind in Hr at 1. unfold port_read1 in Hr at 1.
    destruct (input (_port st)) as [|c i].
    + cbn [bytes_eqb] in Hr. rewrite app_nil_r in Hr. eapply IH; [|exact Hr]. lia.
    + destruct (bytes_eqb [c] [xdb]).
      * unfold bind in Hr at 1. unfold port_read1 in Hr at 1. cbn [input _port] in Hr.
        destruct i as [|d i].
        -- discriminate.
        -- destruct (bytes_eqb [d] [xdc]); [eapply IH; [|exact Hr]; apply Hx|].
           destruct (bytes_eqb [d] [xdd]); [eapply IH; [|exact Hr]; apply Hx|].
           discriminate.
      * eapply IH; [|exact Hr]. apply Hx.
Qed.

(** C5, at the failing input.  On a port where the device has stopped
    sending, [read] of a positive number of bytes is still inside its loop
    after any number of turns: it neither returns nor raises. *)
Theorem read_silent_never_ends (fuel : nat) (length : Z) (st : t) :
  0 < length -> silent st ->
  read fuel length st = (OutOfFuel, st).
Proof. intros Hl Hs. unfold read. now apply read_loop_silent. Qed.

Lemma read_silent_never_ends_witness :
  let st := mk (mkSerial (Some 5%Q) [] []) 0 in
  read 1000 8 st = (OutOfFuel, st).
Proof.
  intros st. apply (read_silent_never_ends 1000 8 st); [lia | reflexivity].
Defined.

End Framing.

(** * The erase size of [flash_begin] *)

Section EraseSize.

Import ESPROM.

Lemma ceil_div_pos (a : Z) (b : positive) :
  ceil (inject_Z a / (Z.pos b # 1)) = - ((- a) / Z.pos b).
Proof.
  unfold ceil, Qceiling, Qfloor, Qdiv, Qmult, Qinv, Qopp, inject_Z. simpl.
  now rewrite Z.mul_1_r.
Qed.

Lemma ceil_4096 (a : Z) :
  ceil (inject_Z a / 4096) = if 0 =? a mod 4096 then a / 4096 else 1 + a / 4096.
Proof.
  rewrite (ceil_div_pos a 4096).
  destruct (0 =? a mod 4096) eqn:E;
    [apply Z.eqb_eq in E | apply Z.eqb_neq in E]; Z.div_mod_to_equations; lia.
Qed.

Lemma ceil_half (a : Z) : ceil (inject_Z a / 2) = (a + 1) / 2.
Proof. rewrite (ceil_div_pos a 2). Z.div_mod_to_equations. lia. Qed.

(** The branch of [flash_begin] that goes through floating point is taken
    only for a sector count between 0 and 32, where [total_sector_num/2.0],
    its ceiling and the product by 4096 are exact. *)
Lemma flash_begin_size_float_branch (_size offset : Z) :
  let total_sector_num := ceil (inject_Z _size / 4096) in
  let head_sector_num := Z.min (16 - (offset / 4096) mod 16) total_sector_num in
  (total_sector_num - 2 * head_sector_num >? 0) = false ->
  0 <= total_sector_num <= 32.
Proof.
  intros t h Hb. subst h.
  destruct (Z.gtb_spec (t - 2 * Z.min (16 - (offset / 4096) mod 16) t) 0) as [|Hle];
    [discriminate|].
  pose proof (Z.mod_pos_bound (offset / 4096) 16). lia.
Qed.

(** C2. The erase size [flash_begin] computes is the one of the
    specification, for every size and offset (so for every size [S >= 0] and
    every offset that is a multiple of 4096), and it is 4096, 53248 and
    937984 on the three worked examples. *)
Theorem flash_begin_size_spec :
  (forall S O : Z, flash_begin_size S O = spec_erase_size S O)
  /\ flash_begin_size 4096 0 = 4096
  /\ flash_begin_size 100000 0 = 53248
  /\ flash_begin_size 1000000 0 = 937984.
Proof.
  split; [|now vm_compute].
  intros S O. unfold flash_begin_size, spec_erase_size.
  rewrite ceil_4096.
  set (t := if 0 =? S mod 4096 then S / 4096 else 1 + S / 4096).
  set (h := 16 - (O / 4096) mod 16).
  assert ((if h >=? t then t else h) = Z.min h t) as ->.
  { destruct (Z.geb_spec h t); lia. }
  reflexivity.
Qed.

End EraseSize.

(** * The command engine *)

Section CommandEngine.

Import ESPROM.

Lemma pack_response_header (r : response) :
  wf_response r ->
  pack [B; B; H; I] [0x01; r_op r; len (r_body r); r_val r]
  = Some (le_bytes 1 0x01 ++ le_bytes 1 (r_op r) ++ le_bytes 2 (len (r_body r))
            ++ le_bytes 4 (r_val r) ++ []).
Proof.
  intros (Hop & Hval & Hlen). pose proof (len_nonneg (r_body r)).
  cbn [pack code_size].
  change (in_range B 1) with true.
  assert (in_range B (r_op r) = true) as -> by (apply in_range_spec; simpl; lia).
  assert (in_range H (len (r_body r)) = true) as -> by (apply in_range_spec; simpl; lia).
  assert (in_range I (r_val r) = true) as -> by (apply in_range_spec; simpl; lia).
  reflexivity.
Qed.

(** One call of [receive_response] on a well-formed frame returns the
    response and consumes exactly that frame. *)
Lemma receive_response_frame (fuel : nat) (r : response) (rest : bytes) (st : t) :
  wf_response r -> enough_fuel fuel [r] ->
  input (_port st) = response_frame r ++ rest ->
  receive_response fuel st
  = (Return (r_op r, r_val r, r_body r), ticks 1 (with_input st rest)).
Proof.
  intros Hwf [Hf8 Hfb] Hi. apply Forall_inv in Hfb.
  pose proof (pack_response_header r Hwf) as Hp.
  set (hdr := le_bytes 1 1 ++ le_bytes 1 (r_op r) ++ le_bytes 2 (len (r_body r))
                ++ le_bytes 4 (r_val r) ++ []) in Hp.
  assert (Hlen : List.length hdr = 8%nat).
  { now destruct (unpack_fields_pack _ _ _ [] Hp) as [-> _]. }
  assert (Hpk : response_packet r = hdr ++ r_body r).
  { unfold response_packet, hdr. now rewrite <- !app_assoc. }
  unfold response_frame in Hi. rewrite Hpk, slip_escape_app in Hi.
  cbn [app] in Hi. rewrite <- !app_assoc in Hi.
  unfold receive_response.
  rewrite (bind_Return _ _ _ tt (ticks 1 st)) by reflexivity.
  rewrite (bind_Return _ _ _ [xc0]
             (with_input (ticks 1 st)
                (slip_escape hdr ++ slip_escape (r_body r) ++ [xc0] ++ rest)))
    by (apply port_read1_cons; exact Hi).
  change (bytes_eqb [xc0] [xc0]) with true. cbn [negb].
  rewrite (bind_Return _ _ _ hdr
             (with_input (ticks 1 st) (slip_escape (r_body r) ++ [xc0] ++ rest))).
  2:{ apply (read_slip_escape_to hdr) with (rest := slip_escape (r_body r) ++ [xc0] ++ rest);
        [lia | unfold len; now rewrite Hlen | reflexivity | reflexivity]. }
  rewrite (unpack_pack _ _ _ Hp).
  cbn [lift_struct]. rewrite bind_ret.
  change (1 =? 1) with true. cbn [negb].
  rewrite (bind_Return _ _ _ (r_body r) (with_input (ticks 1 st) ([xc0] ++ rest)))
    by (apply (read_slip_escape_to (r_body r)) with (rest := [xc0] ++ rest);
        [exact Hfb | reflexivity | reflexivity | reflexivity]).
  rewrite (bind_Return _ _ _ [xc0] (with_input (ticks 1 st) rest))
    by exact (port_read1_cons (with_input (ticks 1 st) ([xc0] ++ rest)) xc0 rest eq_refl).
  reflexivity.
Qed.

Lemma ticks_ticks a b st : ticks a (ticks b st) = ticks (a + b) st.
Proof. unfold ticks. cbn [_port rx_calls]. f_equal. lia. Qed.

Lemma ticks_0 st : ticks 0 st = st.
Proof. now destruct st. Qed.

Lemma response_frames_cons r rs rest :
  response_frames (r :: rs) ++ rest = response_frame r ++ response_frames rs ++ rest.
Proof. unfold response_frames. cbn [map List.concat]. now rewrite <- app_assoc. Qed.

Lemma enough_fuel_cons fuel r rs :
  enough_fuel fuel (r :: rs) -> enough_fuel fuel [r] /\ enough_fuel fuel rs.
Proof.
  intros [H8 Hall]. inversion Hall; subst. repeat split; auto.
Qed.

Lemma command_loop_S fuel retries op :
  command_loop fuel (S retries) op =
  (r <- receive_response fuel ;;
   let '(op_ret, val, body) := r in
   if accepts op op_ret then ret (val, body)
   else command_loop fuel retries op).
Proof. reflexivity. Qed.

(** Each well-formed response whose opcode is not the requested one costs
    the loop of [command] one retry and one call of [receive_response]. *)
Lemma command_loop_discards rs : forall fuel retries op st rest,
  Forall wf_response rs -> enough_fuel fuel rs ->
  Forall (fun r => r_op r <> op) rs ->
  (List.length rs <= retries)%nat ->
  input (_port st) = response_frames rs ++ rest ->
  command_loop fuel retries (Some op) st
  = command_loop fuel (retries - List.length rs) (Some op)
      (ticks (List.length rs) (with_input st rest)).
Proof.
  induction rs as [|r rs IH]; intros fuel retries op st rest Hwf Hfuel Hop Hn Hi.
  - cbn [List.length]. rewrite Nat.sub_0_r, ticks_0.
    simpl in Hi. now rewrite <- Hi, with_input_same.
  - destruct retries as [|retries]; [simpl in Hn; lia|].
    inversion Hwf as [|? ? Hwf1 Hwf']; subst.
    inversion Hop as [|? ? Hop1 Hop']; subst.
    destruct (enough_fuel_cons _ _ _ Hfuel) as [Hf1 Hf'].
    rewrite response_frames_cons in Hi.
    rewrite command_loop_S.
    rewrite (bind_Return _ _ _ _ _ (receive_response_frame fuel r _ st Hwf1 Hf1 Hi)).
    cbn [accepts]. apply Z.eqb_neq in Hop1. rewrite Hop1.
    rewrite (IH fuel retries op _ rest Hwf' Hf' Hop') by (simpl in Hn; lia || reflexivity).
    cbn [List.length]. rewrite Nat.sub_succ.
    f_equal. change (with_input (ticks 1 (with_input st (response_frames rs ++ rest))) rest)
      with (ticks 1 (with_input st rest)).
    rewrite ticks_ticks. f_equal. lia.
Qed.

(** The request part of [command]: a well-formed request is packed and
    written; nothing is read. *)
Lemma command_request (fuel : nat) (op : Z) (data : bytes) (chk : Z) (st : t) :
  wf_request op data chk ->
  command fuel (Some op) (Some data) chk st
  = command_loop fuel 100 (Some op) (after_request op data chk st).
Proof.
  intros (Hop & Hlen & Hchk). pose proof (len_nonneg data).
  unfold command, after_request. cbn [truthy].
  destruct (op =? 0); cbn [negb]; [reflexivity|].
  cbn [pack code_size].
  change (in_range B 0) with true.
  assert (in_range B op = true) as -> by (apply in_range_spec; simpl; lia).
  assert (in_range H (len data) = true) as -> by (apply in_range_spec; simpl; lia).
  assert (in_range I chk = true) as -> by (apply in_range_spec; simpl; lia).
  reflexivity.
Qed.

(** C3. The retry budget of [command].  Given a well-formed request and a
    wire that carries well-formed responses [rs], none with the opcode of
    the request:
    - if [rs] has 100 responses, [command] raises the response-mismatch
      error, having called [receive_response] exactly 100 times and read
      exactly those 100 frames (what follows them on the wire is unread);
    - if [rs] has fewer than 100 responses and the next response [r] has
      the opcode of the request, [command] returns the value and the body
      of [r]. *)
Theorem command_retry_budget
    (fuel : nat) (op : Z) (data : bytes) (chk : Z) (st : t)
    (rs : list response) (rest : bytes) :
  wf_request op data chk ->
  Forall wf_response rs -> enough_fuel fuel rs ->
  Forall (fun r => r_op r <> op) rs ->
  (List.length rs = 100%nat ->
   input (_port st) = response_frames rs ++ rest ->
   command fuel (Some op) (Some data) chk st
   = (Raise (FatalError "Response doesn't match request" []),
      ticks 100 (with_input (after_request op data chk st) rest)))
  /\ (forall r : response,
       (List.length rs < 100)%nat ->
       wf_response r -> enough_fuel fuel [r] -> r_op r = op ->
       input (_port st) = response_frames rs ++ response_frame r ++ rest ->
       command fuel (Some op) (Some data) chk st
       = (Return (r_val r, r_body r),
          ticks (S (List.length rs)) (with_input (after_request op data chk st) rest))).
Proof.
  intros Hreq Hwf Hfuel Hop.
  assert (Hin : input (_port (after_request op data chk st)) = input (_port st)).
  { unfold after_request. now destruct (op =? 0). }
  split.
  - intros Hn Hi. rewrite (command_request fuel op data chk st Hreq).
    rewrite (command_loop_discards rs fuel 100 op _ rest Hwf Hfuel Hop)
      by (rewrite ?Hin; lia || assumption).
    rewrite Hn. reflexivity.
  - intros r Hn Hwfr Hfr Hopr Hi. rewrite (command_request fuel op data chk st Hreq).
    rewrite (command_loop_discards rs fuel 100 op _ (response_frame r ++ rest)
               Hwf Hfuel Hop)
      by (rewrite ?Hin; lia || assumption).
    destruct (100 - List.length rs)%nat as [|n] eqn:En; [lia|].
    rewrite command_loop_S.
    rewrite (bind_Return _ _ _ _ _
               (receive_response_frame fuel r rest
                  (ticks (List.length rs)
                     (with_input (after_request op data chk st) (response_frame r ++ rest)))
                  Hwfr Hfr eq_refl)).
    cbn [accepts]. rewrite Hopr, Z.eqb_refl.
    reflexivity.
Qed.

Lemma command_retry_budget_witness :
  let rs := List.repeat (mkResponse 0x08 0 []) 100 in
  let st := mk (mkSerial (Some 5%Q) (response_frames rs) []) 0 in
  command 8 (Some 0x02) (Some []) 0 st
  = (Raise (FatalError "Response doesn't match request" []),
     ticks 100 (with_input (after_request 0x02 [] 0 st) [])).
Proof.
  intros rs st.
  refine (proj1 (command_retry_budget 8 0x02 [] 0 st rs [] _ _ _ _) _ _).
  - unfold wf_request, len. simpl. lia.
  - apply Forall_forall. intros r Hr. apply repeat_spec in Hr. subst r.
    unfold wf_response, len. simpl. lia.
  - split; [lia|]. apply Forall_forall. intros r Hr. apply repeat_spec in Hr.
    subst r. simpl. lia.
  - apply Forall_forall. intros r Hr. apply repeat_spec in Hr. subst r.
    simpl. discriminate.
  - reflexivity.
  - rewrite app_nil_r. reflexivity.
Defined.

End CommandEngine.

(** * [flash_begin]: the read timeout and the failure of the success check *)

Section FlashBegin.

Import ESPROM.

Lemma keeps_ret {A} (a : A) : keeps_timeout (ret a).
Proof. now intros st. Qed.

Lemma keeps_raise {A} (e : exn) : keeps_timeout (@raise t A e).
Proof. now intros st. Qed.

Lemma keeps_bind {A B} (m : M t A) (k : A -> M t B) :
  keeps_timeout m -> (forall a, keeps_timeout (k a)) -> keeps_timeout (bind m k).
Proof.
  intros Hm Hk st. specialize (Hm st). unfold bind.
  destruct (m st) as [[a|e|] st1]; cbn [snd] in *; try assumption.
  now rewrite Hk.
Qed.

Lemma keeps_lift_struct {A} (o : option A) : keeps_timeout (lift_struct o).
Proof. destruct o; [apply keeps_ret | apply keeps_raise]. Qed.

Lemma keeps_port_read1 : keeps_timeout port_read1.
Proof. intros st. unfold port_read1. now destruct (input (_port st)). Qed.

Lemma keeps_port_write buf : keeps_timeout (port_write buf).
Proof. now intros st. Qed.

Lemma keeps_tick_rx : keeps_timeout tick_rx.
Proof. now intros st. Qed.

Create HintDb keeps.

#[local] Hint Resolve keeps_ret keeps_raise keeps_lift_struct keeps_port_read1
  keeps_port_write keeps_tick_rx : keeps.

(** Goes through a method body: binds, conditionals and pattern matches. *)
Ltac keeps :=
  repeat first
    [ solve [auto with keeps]
    | apply keeps_bind; [|intros ?]
    | match goal with
      | |- keeps_timeout (if ?c then _ else _) => destruct c
      | |- keeps_timeout (match ?x with _ => _ end) => destruct x
      end ].

Lemma keeps_read_loop fuel : forall length b, keeps_timeout (read_loop fuel length b).
Proof.
  induction fuel as [|fuel IH]; intros length b.
  - simpl. destruct (len b <? length); [now intros st | apply keeps_ret].
  - rewrite read_loop_S. keeps; apply IH.
Qed.

Lemma keeps_read fuel length : keeps_timeout (read fuel length).
Proof. apply keeps_read_loop. Qed.

Lemma keeps_write packet : keeps_timeout (write packet).
Proof. apply keeps_port_write. Qed.

#[local] Hint Resolve keeps_read keeps_write : keeps.

Lemma keeps_receive_response fuel : keeps_timeout (receive_response fuel).
Proof. unfold receive_response. keeps. Qed.

#[local] Hint Resolve keeps_receive_response : keeps.

Lemma keeps_command_loop fuel retries op :
  keeps_timeout (command_loop fuel retries op).
Proof.
  induction retries as [|retries IH]; [apply keeps_raise|].
  rewrite command_loop_S. keeps.
Qed.

#[local] Hint Resolve keeps_command_loop : keeps.

Lemma keeps_command fuel op data chk : keeps_timeout (command fuel op data chk).
Proof. unfold command. keeps. Qed.

(** [flash_begin], after it has saved the old timeout and set 10. *)
Lemma flash_begin_unfold fuel _size offset st :
  flash_begin fuel _size offset st
  = (pkt <- lift_struct (pack [I; I; I; I]
                           [flash_begin_size _size offset; 0x200; ESP_FLASH_BLOCK; offset]) ;;
     res <- command fuel (Some ESP_FLASH_BEGIN) (Some pkt) 0 ;;
     if negb (bytes_eqb (snd res) [x00; x00]) then
       raise (Exception "Failed to enter Flash download mode")
     else set_timeout (timeout (_port st)))
      (with_timeout st (Some 10%Q)).
Proof. reflexivity. Qed.

(** C4, as amended.  [flash_begin] puts the read timeout back to the value
    it had on entry when it returns; when it raises, whatever the exception,
    the timeout is the 10 seconds it set on entry. *)
Theorem flash_begin_timeout (fuel : nat) (_size offset : Z) (st : t) :
  match flash_begin fuel _size offset st with
  | (Return _, st') => timeout (_port st') = timeout (_port st)
  | (Raise _, st') => timeout (_port st') = Some 10%Q
  | (OutOfFuel, _) => True
  end.
Proof.
  rewrite flash_begin_unfold.
  set (st10 := with_timeout st (Some 10%Q)).
  destruct (pack [I; I; I; I]
              [flash_begin_size _size offset; 0x200; ESP_FLASH_BLOCK; offset]) as [pkt|];
    cbn [lift_struct]; [rewrite bind_ret | reflexivity].
  unfold bind.
  pose proof (keeps_command fuel (Some ESP_FLASH_BEGIN) (Some pkt) 0 st10) as Hk.
  destruct (command fuel (Some ESP_FLASH_BEGIN) (Some pkt) 0 st10) as [[res|e|] st1];
    cbn [snd] in Hk; [|exact Hk|exact Logic.I].
  destruct (negb (bytes_eqb (snd res) [x00; x00])); [exact Hk | reflexivity].
Qed.

(** C4, counterexample.  With a timeout of 5 seconds on entry and a device
    that refuses the request, [flash_begin] raises and the timeout is not
    the one it was on entry. *)
Lemma flash_begin_timeout_not_restored :
  exists e st',
    flash_begin 8 0 0 refusing_device = (Raise e, st')
    /\ timeout (_port refusing_device) = Some 5%Q
    /\ timeout (_port st') <> timeout (_port refusing_device).
Proof.
  eexists. eexists. split; [vm_compute; reflexivity|].
  split; [reflexivity|]. cbn. discriminate.
Qed.

(** C8, at the failing input.  When the response to the flash-begin request
    is well formed and its body is not the two zero bytes, [flash_begin]
    raises [Exception], which the guard around [main] does not catch: the
    exit status is 1, not 2. *)
Theorem flash_begin_failure_not_fatal
    (fuel : nat) (_size offset : Z) (st st1 : t) (pkt : bytes) (res : Z * bytes) :
  pack [I; I; I; I] [flash_begin_size _size offset; 0x200; ESP_FLASH_BLOCK; offset]
    = Some pkt ->
  command fuel (Some ESP_FLASH_BEGIN) (Some pkt) 0 (with_timeout st (Some 10%Q))
    = (Return res, st1) ->
  snd res <> [x00; x00] ->
  flash_begin fuel _size offset st
    = (Raise (Exception "Failed to enter Flash download mode"), st1)
  /\ exit_status (fst (flash_begin fuel _size offset st)) = Some 1.
Proof.
  intros Hp Hc Hres.
  assert (Hfb : flash_begin fuel _size offset st
                = (Raise (Exception "Failed to enter Flash download mode"), st1)).
  { rewrite flash_begin_unfold, Hp. cbn [lift_struct]. rewrite bind_ret.
    rewrite (bind_Return _ _ _ _ _ Hc).
    destruct (bytes_eqb (snd res) [x00; x00]) eqn:E; [|reflexivity].
    now apply bytes_eqb_eq in E. }
  split; [exact Hfb | now rewrite Hfb].
Qed.

Lemma flash_begin_failure_not_fatal_witness :
  exists st1,
    flash_begin 8 0 0 refusing_device
      = (Raise (Exception "Failed to enter Flash download mode"), st1)
    /\ exit_status (fst (flash_begin 8 0 0 refusing_device)) = Some 1.
Proof.
  eexists.
  refine (flash_begin_failure_not_fatal 8 0 0 refusing_device _ _ (0, [x01; x06]) _ _ _).
  - vm_compute. reflexivity.
  - vm_compute. reflexivity.
  - cbn. discriminate.
Defined.

(** The sibling [mem_begin], on the same failure of its success check,
    raises [FatalError], which the guard catches: exit status 2. *)
Lemma mem_begin_failure_fatal
    (fuel : nat) (size blocks blocksize offset : Z) (st st1 : t)
    (pkt : bytes) (res : Z * bytes) :
  pack [I; I; I; I] [size; blocks; blocksize; offset] = Some pkt ->
  command fuel (Some ESP_MEM_BEGIN) (Some pkt) 0 st = (Return res, st1) ->
  snd res <> [x00; x00] ->
  mem_begin fuel size blocks blocksize offset st
    = (Raise (FatalError "Failed to enter RAM download mode" []), st1)
  /\ exit_status (fst (mem_begin fuel size blocks blocksize offset st)) = Some 2.
Proof.
  intros Hp Hc Hres.
  assert (Hmb : mem_begin fuel size blocks blocksize offset st
                = (Raise (FatalError "Failed to enter RAM download mode" []), st1)).
  { unfold mem_begin. rewrite Hp. cbn [lift_struct]. rewrite bind_ret.
    rewrite (bind_Return _ _ _ _ _ Hc).
    destruct (bytes_eqb (snd res) [x00; x00]) eqn:E; [|reflexivity].
    now apply bytes_eqb_eq in E. }
  split; [exact Hmb | now rewrite Hmb].
Qed.

End FlashBegin.

(** * The checksum and the firmware image codec *)

Section Checksum.

Lemma lxor_byte (a b : Z) : 0 <= a <= 255 -> 0 <= b <= 255 -> 0 <= Z.lxor a b <= 255.
Proof.
  intros Ha Hb.
  assert (Hnn : 0 <= Z.lxor a b) by (apply Z.lxor_nonneg; lia).
  split; [exact Hnn|].
  destruct (Z.eq_dec (Z.lxor a b) 0) as [->|Hne]; [lia|].
  assert (Hlog : forall x, 0 <= x <= 255 -> Z.log2 x < 8).
  { intros x Hx. destruct (Z.eq_dec x 0) as [->|]; [reflexivity|].
    apply Z.log2_lt_pow2; lia. }
  enough (Z.lxor a b < 2 ^ 8) by lia.
  apply Z.log2_lt_pow2; [lia|].
  eapply Z.le_lt_trans; [apply Z.log2_lxor; lia|].
  apply Z.max_lub_lt; apply Hlog; lia.
Qed.

Lemma checksum_range (data : bytes) : forall state,
  0 <= state <= 255 -> 0 <= ESPROM.checksum data state <= 255.
Proof.
  induction data as [|b data IH]; intros state Hs; [exact Hs|].
  cbn [ESPROM.checksum]. apply IH. apply lxor_byte; [exact Hs | apply ord_range].
Qed.

Lemma segments_checksum_range (segs : list ESPFirmwareImage.segment) : forall c,
  0 <= c <= 255 -> 0 <= segments_checksum segs c <= 255.
Proof.
  unfold segments_checksum.
  induction segs as [|[[offset size] data] segs IH]; intros c Hc; [exact Hc|].
  cbn [fold_left]. apply IH. now apply checksum_range.
Qed.

End Checksum.

Section ImageCodec.

Import ESPFirmwareImage.

Lemma f_read_at (pre chunk rest : bytes) (n : Z) (f : file) (p : nat) :
  content f = pre ++ chunk ++ rest ->
  pos f = List.length pre ->
  n = len chunk ->
  p = (List.length pre + List.length chunk)%nat ->
  f_read n f = (Return chunk, mkFile (content f) p).
Proof.
  intros Hc Hp -> ->. unfold f_read. rewrite Hp, Hc.
  rewrite skipn_app, skipn_all, Nat.sub_diag. cbn [skipn app].
  unfold len. rewrite Nat2Z.id.
  rewrite firstn_app, firstn_all, Nat.sub_diag. cbn [firstn]. now rewrite app_nil_r.
Qed.

Lemma f_write_gap (data : bytes) (f : file) (k : nat) :
  pos f = (List.length (content f) + k)%nat ->
  f_write data f
  = (Return tt, mkFile (content f ++ List.repeat x00 k ++ data)
                  (List.length (content f ++ List.repeat x00 k ++ data))).
Proof.
  intros Hp. unfold f_write, modify. rewrite Hp.
  rewrite firstn_all2 by lia. rewrite skipn_all2 by lia.
  replace (List.length (content f) + k - List.length (content f))%nat with k by lia.
  rewrite app_nil_r. f_equal. f_equal.
  rewrite !length_app, repeat_length. lia.
Qed.

Lemma f_write_end (data : bytes) (f : file) :
  pos f = List.length (content f) ->
  f_write data f
  = (Return tt, mkFile (content f ++ data) (List.length (content f ++ data))).
Proof.
  intros Hp. rewrite (f_write_gap data f 0) by lia. reflexivity.
Qed.

Lemma pack_II (offset size : Z) :
  0 <= offset < 2 ^ 32 -> 0 <= size < 2 ^ 32 ->
  pack [I; I] [offset; size] = Some (le_bytes 4 offset ++ le_bytes 4 size ++ []).
Proof.
  intros Ho Hs. cbn [pack code_size].
  assert (in_range I offset = true) as -> by (apply in_range_spec; simpl; lia).
  assert (in_range I size = true) as -> by (apply in_range_spec; simpl; lia).
  reflexivity.
Qed.

Lemma seg_ok_packable offset size data :
  seg_ok (offset, size, data) -> 0 <= offset < 2 ^ 32 /\ 0 <= size < 2 ^ 32.
Proof.
  intros (Hs & Ho & Hm). pose proof (len_nonneg data). lia.
Qed.

Lemma segs_bytes_cons s segs : segs_bytes (s :: segs) = seg_bytes s ++ segs_bytes segs.
Proof. reflexivity. Qed.

(** The checksum [save] ends its loop with is the fold over the segments. *)
Lemma save_segments_checksum segs : forall c f,
  match save_segments segs c f with
  | (Return c', _) => c' = segments_checksum segs c
  | _ => True
  end.
Proof.
  induction segs as [|[[offset size] data] segs IH]; intros c f; [reflexivity|].
  cbn [save_segments].
  destruct (pack [I; I] [offset; size]) as [hdr|]; cbn [lift_struct]; [|exact Logic.I].
  rewrite bind_ret. unfold bind at 1. cbn [f_write modify].
  unfold bind at 1. cbn [f_write modify].
  apply IH.
Qed.

(** [save] appends the bytes of the segments to the file. *)
Lemma save_segments_ok segs : forall c f,
  Forall seg_ok segs -> pos f = List.length (content f) ->
  save_segments segs c f
  = (Return (segments_checksum segs c),
     mkFile (content f ++ segs_bytes segs) (List.length (content f ++ segs_bytes segs))).
Proof.
  induction segs as [|[[offset size] data] segs IH]; intros c f Hok Hp.
  - cbn [save_segments segs_bytes map List.concat]. unfold ret, segments_checksum.
    cbn [fold_left]. rewrite app_nil_r, <- Hp. now destruct f.
  - inversion Hok as [|? ? Hok1 Hok']; subst.
    destruct (seg_ok_packable _ _ _ Hok1) as [Ho Hs].
    cbn [save_segments]. rewrite (pack_II _ _ Ho Hs). cbn [lift_struct]. rewrite bind_ret.
    rewrite (bind_Return _ _ _ _ _ (f_write_end _ f Hp)).
    set (hdr := le_bytes 4 offset ++ le_bytes 4 size ++ []).
    rewrite (bind_Return _ _ _ _ _
               (f_write_end data
                  (mkFile (content f ++ hdr) (List.length (content f ++ hdr))) eq_refl)).
    rewrite IH by (assumption || reflexivity).
    cbn [content]. rewrite segs_bytes_cons. unfold seg_bytes. fold hdr.
    rewrite <- !app_assoc. reflexivity.
Qed.

(** The loop of [__init__] reads the segments [save] wrote one by one and
    goes on with what follows them. *)
Lemma read_segments_prefix segs : forall m acc f pre rest,
  Forall seg_ok segs ->
  content f = pre ++ segs_bytes segs ++ rest ->
  pos f = List.length pre ->
  read_segments (List.length segs + m) acc f
  = read_segments m (acc ++ segs)
      (mkFile (content f) (List.length pre + List.length (segs_bytes segs))).
Proof.
  induction segs as [|[[offset size] data] segs IH]; intros m acc f pre rest Hok Hc Hp.
  - cbn [List.length segs_bytes map List.concat Nat.add].
    rewrite app_nil_r, Nat.add_0_r, <- Hp. now destruct f.
  - inversion Hok as [|? ? Hok1 Hok']; subst.
    destruct (seg_ok_packable _ _ _ Hok1) as [Ho Hs].
    destruct Hok1 as (Hsz & Hoff & Hmax).
    pose proof (pack_II _ _ Ho Hs) as Hpk.
    set (hdr := le_bytes 4 offset ++ le_bytes 4 size ++ []) in *.
    assert (Hlen : List.length hdr = 8%nat)
      by now destruct (unpack_fields_pack _ _ _ [] Hpk) as [-> _].
    rewrite segs_bytes_cons in Hc. unfold seg_bytes in Hc. fold hdr in Hc.
    rewrite <- !app_assoc in Hc.
    cbn [List.length Nat.add read_segments].
    rewrite (bind_Return _ _ _ _ _
               (f_read_at pre hdr (data ++ segs_bytes segs ++ rest) 8 f
                  (List.length pre + 8) Hc Hp
                  ltac:(unfold len; now rewrite Hlen) ltac:(now rewrite Hlen))).
    rewrite (unpack_pack _ _ _ Hpk). cbn [lift_struct]. rewrite bind_ret.
    assert ((offset >? 0x40200000) || (offset <? 0x3ffe0000) || (size >? 65536) = false)
      as ->.
    { rewrite !Z.gtb_ltb, !orb_false_iff, !Z.ltb_ge. lia. }
    rewrite (bind_Return _ _ _ data
               (mkFile (content f) (List.length pre + 8 + List.length data))).
    2:{ apply (f_read_at (pre ++ hdr) data (segs_bytes segs ++ rest) size
                 (mkFile (content f) (List.length pre + 8)));
          cbn [content pos]; rewrite ?length_app, ?Hlen; try reflexivity; try assumption.
        now rewrite <- app_assoc. }
    assert ((len data <? size) = false) as -> by (apply Z.ltb_ge; lia).
    rewrite (IH m _ _ ((pre ++ hdr) ++ data) rest Hok').
    + cbn [content]. rewrite <- app_assoc. f_equal. f_equal.
      rewrite segs_bytes_cons. unfold seg_bytes. fold hdr.
      rewrite !length_app, Hlen. lia.
    + cbn [content]. now rewrite <- !app_assoc.
    + cbn [pos]. rewrite !length_app, Hlen. lia.
Qed.

Lemma read_segments_ok segs : forall acc f pre rest,
  Forall seg_ok segs ->
  content f = pre ++ segs_bytes segs ++ rest ->
  pos f = List.length pre ->
  read_segments (List.length segs) acc f
  = (Return (acc ++ segs),
     mkFile (content f) (List.length pre + List.length (segs_bytes segs))).
Proof.
  intros acc f pre rest Hok Hc Hp.
  rewrite <- (Nat.add_0_r (List.length segs)) at 1.
  now rewrite (read_segments_prefix segs 0 acc f pre rest Hok Hc Hp).
Qed.

(** A segment header with an address or a size out of bounds stops the
    loop right after the header. *)
Lemma read_segments_suspicious m acc f pre sh rest offset size :
  pack [I; I] [offset; size] = Some sh ->
  offset > 0x40200000 \/ offset < 0x3ffe0000 \/ size > 65536 ->
  content f = pre ++ sh ++ rest ->
  pos f = List.length pre ->
  read_segments (S m) acc f
  = (Raise (FatalError "Suspicious segment 0x%x, length %d" [offset; size]),
     mkFile (content f) (List.length pre + 8)).
Proof.
  intros Hpk Hbad Hc Hp.
  assert (Hlen : List.length sh = 8%nat)
    by now destruct (unpack_fields_pack _ _ _ [] Hpk) as [-> _].
  cbn [read_segments].
  rewrite (bind_Return _ _ _ _ _
             (f_read_at pre sh rest 8 f (List.length pre + 8) Hc Hp
                ltac:(unfold len; now rewrite Hlen) ltac:(now rewrite Hlen))).
  rewrite (unpack_pack _ _ _ Hpk). cbn [lift_struct]. rewrite bind_ret.
  assert ((offset >? 0x40200000) || (offset <? 0x3ffe0000) || (size >? 65536) = true)
    as ->; [|reflexivity].
  rewrite !Z.gtb_ltb, !orb_true_iff, !Z.ltb_lt. lia.
Qed.

Lemma pack_header (magic n mode freq entry : Z) :
  0 <= magic < 256 -> 0 <= n < 256 -> 0 <= mode < 256 -> 0 <= freq < 256 ->
  0 <= entry < 2 ^ 32 ->
  pack [B; B; B; B; I] [magic; n; mode; freq; entry]
  = Some (le_bytes 1 magic ++ le_bytes 1 n ++ le_bytes 1 mode ++ le_bytes 1 freq
            ++ le_bytes 4 entry ++ []).
Proof.
  intros Hm Hn Hmo Hf He. cbn [pack code_size].
  assert (in_range B magic = true) as -> by (apply in_range_spec; simpl; lia).
  assert (in_range B n = true) as -> by (apply in_range_spec; simpl; lia).
  assert (in_range B mode = true) as -> by (apply in_range_spec; simpl; lia).
  assert (in_range B freq = true) as -> by (apply in_range_spec; simpl; lia).
  assert (in_range I entry = true) as -> by (apply in_range_spec; simpl; lia).
  reflexivity.
Qed.

Lemma pack_image_header (image : t) :
  header_ok image -> (List.length (segments image) <= 16)%nat ->
  pack [B; B; B; B; I]
    [ESPROM.ESP_IMAGE_MAGIC; len (segments image); flash_mode image;
     flash_size_freq image; entrypoint image]
  = Some (image_header image) /\ List.length (image_header image) = 8%nat.
Proof.
  intros (Hmo & Hf & He) Hn.
  assert (Hp : pack [B; B; B; B; I]
                 [ESPROM.ESP_IMAGE_MAGIC; len (segments image); flash_mode image;
                  flash_size_freq image; entrypoint image]
               = Some (image_header image)).
  { apply pack_header; try assumption; unfold ESPROM.ESP_IMAGE_MAGIC, len; lia. }
  split; [exact Hp|]. now destruct (unpack_fields_pack _ _ _ [] Hp) as [-> _].
Qed.

Lemma image_padding_spec (image : t) :
  Z.of_nat (image_padding image) = 15 - len (image_body image) mod 16
  /\ 0 <= 15 - len (image_body image) mod 16.
Proof.
  unfold image_padding. pose proof (Z.mod_pos_bound (len (image_body image)) 16). lia.
Qed.

(** What [save] writes. *)
Lemma save_ok (image : t) :
  (List.length (segments image) <= 16)%nat ->
  Forall seg_ok (segments image) -> header_ok image ->
  save image open_wb
  = (Return tt, mkFile (image_bytes image) (List.length (image_bytes image))).
Proof.
  intros Hn Hok Hh. destruct (pack_image_header image Hh Hn) as [Hp Hlen].
  unfold save. rewrite Hp. cbn [lift_struct]. rewrite bind_ret.
  rewrite (bind_Return _ _ _ tt (mkFile (image_header image) 8)).
  2:{ rewrite (f_write_end (image_header image) open_wb eq_refl).
      cbn [open_wb content app]. now rewrite Hlen. }
  rewrite (bind_Return _ _ _ _ _
             (save_segments_ok (segments image) ESPROM.ESP_CHECKSUM_MAGIC
                (mkFile (image_header image) 8) Hok (eq_sym Hlen))).
  cbn [content]. fold (image_body image).
  rewrite (bind_Return _ _ _ (len (image_body image))
             (mkFile (image_body image) (List.length (image_body image)))) by reflexivity.
  destruct (image_padding_spec image) as [Hpad Hpos].
  rewrite (bind_Return _ _ _ tt
             (mkFile (image_body image)
                (List.length (image_body image) + image_padding image))).
  2:{ unfold f_seek_cur, modify. cbn [content pos]. f_equal. f_equal.
      unfold len in *. lia. }
  set (cs := segments_checksum (segments image) ESPROM.ESP_CHECKSUM_MAGIC).
  assert (Hcs : 0 <= cs <= 255)
    by (apply segments_checksum_range; unfold ESPROM.ESP_CHECKSUM_MAGIC; lia).
  cbn [pack code_size].
  assert (in_range B cs = true) as -> by (apply in_range_spec; simpl; lia).
  cbn [lift_struct]. rewrite bind_ret.
  rewrite (f_write_gap _ _ (image_padding image)) by reflexivity.
  reflexivity.
Qed.

(** What [__init__] reads back from it. *)
Lemma init_saved (image : t) :
  (List.length (segments image) <= 16)%nat ->
  Forall seg_ok (segments image) -> header_ok image ->
  __init__ (open_rb (image_bytes image))
  = (Return (mk (segments image) (entrypoint image) (flash_mode image)
               (flash_size_freq image)
               (Some (segments_checksum (segments image) ESPROM.ESP_CHECKSUM_MAGIC))),
     mkFile (image_bytes image) (List.length (image_bytes image))).
Proof.
  intros Hn Hok Hh. destruct (pack_image_header image Hh Hn) as [Hp Hlen].
  set (cs := segments_checksum (segments image) ESPROM.ESP_CHECKSUM_MAGIC).
  assert (Hcs : 0 <= cs <= 255)
    by (apply segments_checksum_range; unfold ESPROM.ESP_CHECKSUM_MAGIC; lia).
  set (tail := List.repeat x00 (image_padding image) ++ le_bytes 1 cs ++ []).
  assert (Hbytes : image_bytes image
                   = [] ++ image_header image ++ segs_bytes (segments image) ++ tail).
  { unfold image_bytes, image_body, tail. fold cs. now rewrite <- app_assoc. }
  unfold __init__.
  rewrite (bind_Return _ _ _ (image_header image) (mkFile (image_bytes image) 8)).
  2:{ apply (f_read_at [] (image_header image) (segs_bytes (segments image) ++ tail));
        [exact Hbytes | reflexivity | unfold len; now rewrite Hlen
        | now rewrite Hlen]. }
  rewrite (unpack_pack _ _ _ Hp). cbn [lift_struct]. rewrite bind_ret.
  assert (negb (ESPROM.ESP_IMAGE_MAGIC =? ESPROM.ESP_IMAGE_MAGIC)
          || (len (segments image) >? 16) = false) as ->.
  { rewrite Z.eqb_refl, Z.gtb_ltb. cbn [negb orb]. apply Z.ltb_ge. unfold len. lia. }
  unfold len at 1. rewrite Nat2Z.id.
  rewrite (bind_Return _ _ _ _ _
             (read_segments_ok (segments image) [] (mkFile (image_bytes image) 8)
                (image_header image) tail Hok Hbytes (eq_sym Hlen))).
  cbn [app content]. rewrite <- length_app. fold (image_body image).
  rewrite (bind_Return _ _ _ (len (image_body image))
             (mkFile (image_bytes image) (List.length (image_body image)))) by reflexivity.
  destruct (image_padding_spec image) as [Hpad Hpos].
  rewrite (bind_Return _ _ _ tt
             (mkFile (image_bytes image)
                (List.length (image_body image) + image_padding image))).
  2:{ unfold f_seek_cur, modify. cbn [content pos]. f_equal. f_equal.
      unfold len in *. lia. }
  rewrite (bind_Return _ _ _ (le_bytes 1 cs ++ [])
             (mkFile (image_bytes image) (List.length (image_bytes image)))).
  2:{ apply (f_read_at (image_body image ++ List.repeat x00 (image_padding image))
               (le_bytes 1 cs ++ []) []).
      - cbn [content]. unfold image_bytes. fold cs.
        now rewrite app_nil_r, <- app_assoc.
      - cbn [pos]. now rewrite length_app, repeat_length.
      - reflexivity.
      - unfold image_bytes. fold cs. rewrite !length_app. lia. }
  cbn [le_bytes app]. unfold ret.
  rewrite Z.mod_small by lia. rewrite ord_chr by lia. reflexivity.
Qed.

(** C6. Round trip of the image codec.  For an image with at most 16
    segments, each with its stored size equal to the length of its data, a
    load address in [0x3ffe0000, 0x40200000] and a size of at most 65536,
    and with flash mode, flash size/frequency and entry point that fit
    their header fields: [save] succeeds, [__init__] on the bytes it wrote
    succeeds, the parsed image has the segments, entry point and flash
    fields of the original, and its stored checksum is the checksum
    recomputed over its segments. *)
Theorem save_init_roundtrip (image : t) :
  (List.length (segments image) <= 16)%nat ->
  Forall seg_ok (segments image) ->
  header_ok image ->
  exists (f f' : file) (parsed : t),
    save image open_wb = (Return tt, f)
    /\ __init__ (open_rb (content f)) = (Return parsed, f')
    /\ segments parsed = segments image
    /\ entrypoint parsed = entrypoint image
    /\ flash_mode parsed = flash_mode image
    /\ flash_size_freq parsed = flash_size_freq image
    /\ checksum parsed = Some (image_info_checksum parsed).
Proof.
  intros Hn Hok Hh.
  eexists. eexists. eexists.
  split; [apply (save_ok image Hn Hok Hh)|].
  split; [apply (init_saved image Hn Hok Hh)|].
  repeat split; reflexivity.
Qed.

Lemma save_init_roundtrip_witness :
  exists (f f' : file) (parsed : t),
    save example_image open_wb = (Return tt, f)
    /\ __init__ (open_rb (content f)) = (Return parsed, f')
    /\ segments parsed = segments example_image
    /\ entrypoint parsed = entrypoint example_image
    /\ flash_mode parsed = flash_mode example_image
    /\ flash_size_freq parsed = flash_size_freq example_image
    /\ checksum parsed = Some (image_info_checksum parsed).
Proof.
  apply (save_init_roundtrip example_image).
  - simpl. lia.
  - repeat constructor; simpl; lia.
  - unfold header_ok. simpl. lia.
Defined.

(** C7. Rejection without further reading.
    - A header that declares more than 16 segments (17, say) makes
      [__init__] raise the invalid-image error with the file position at 8:
      nothing after the 8-byte header was read.
    - After a good header and any number of good segments, a segment header
      with an address outside [0x3ffe0000, 0x40200000] or a size above
      65536 (70000, say) makes [__init__] raise the suspicious-segment
      error with the file position right after that segment header: the
      data of the segment was not read. *)
Theorem init_rejects_before_reading_on :
  (forall (magic n mode freq entry : Z) (hdr rest : bytes),
     pack [B; B; B; B; I] [magic; n; mode; freq; entry] = Some hdr ->
     n > 16 ->
     __init__ (open_rb (hdr ++ rest))
     = (Raise (FatalError "Invalid firmware image" []), mkFile (hdr ++ rest) 8))
  /\ (forall (n mode freq entry offset size : Z) (good : list segment)
            (hdr sh rest : bytes),
       pack [B; B; B; B; I] [ESPROM.ESP_IMAGE_MAGIC; n; mode; freq; entry] = Some hdr ->
       Forall seg_ok good ->
       len good < n <= 16 ->
       pack [I; I] [offset; size] = Some sh ->
       offset > 0x40200000 \/ offset < 0x3ffe0000 \/ size > 65536 ->
       __init__ (open_rb (hdr ++ segs_bytes good ++ sh ++ rest))
       = (Raise (FatalError "Suspicious segment 0x%x, length %d" [offset; size]),
          mkFile (hdr ++ segs_bytes good ++ sh ++ rest)
                 (8 + List.length (segs_bytes good) + 8))).
Proof.
  split.
  - intros magic n mode freq entry hdr rest Hp Hn.
    assert (Hlen : List.length hdr = 8%nat)
      by now destruct (unpack_fields_pack _ _ _ [] Hp) as [-> _].
    unfold __init__.
    rewrite (bind_Return _ _ _ hdr (mkFile (hdr ++ rest) 8)).
    2:{ apply (f_read_at [] hdr rest);
          [reflexivity | reflexivity | unfold len; now rewrite Hlen | now rewrite Hlen]. }
    rewrite (unpack_pack _ _ _ Hp). cbn [lift_struct]. rewrite bind_ret.
    assert ((n >? 16) = true) as -> by (rewrite Z.gtb_ltb; apply Z.ltb_lt; lia).
    now rewrite orb_true_r.
  - intros n mode freq entry offset size good hdr sh rest Hp Hok Hn Hps Hbad.
    assert (Hlen : List.length hdr = 8%nat)
      by now destruct (unpack_fields_pack _ _ _ [] Hp) as [-> _].
    set (data := hdr ++ segs_bytes good ++ sh ++ rest).
    unfold __init__.
    rewrite (bind_Return _ _ _ hdr (mkFile data 8)).
    2:{ apply (f_read_at [] hdr (segs_bytes good ++ sh ++ rest));
          [reflexivity | reflexivity | unfold len; now rewrite Hlen | now rewrite Hlen]. }
    rewrite (unpack_pack _ _ _ Hp). cbn [lift_struct]. rewrite bind_ret.
    assert (negb (ESPROM.ESP_IMAGE_MAGIC =? ESPROM.ESP_IMAGE_MAGIC) || (n >? 16) = false)
      as ->.
    { rewrite Z.eqb_refl, Z.gtb_ltb. cbn [negb orb]. apply Z.ltb_ge. lia. }
    unfold len in Hn.
    replace (Z.to_nat n)
      with (List.length good + S (Z.to_nat n - List.length good - 1))%nat by lia.
    apply bind_Raise.
    rewrite (read_segments_prefix good _ [] (mkFile data 8) hdr (sh ++ rest) Hok
               eq_refl (eq_sym Hlen)).
    rewrite (read_segments_suspicious _ _ _ (hdr ++ segs_bytes good) sh rest offset size
               Hps Hbad).
    + cbn [content]. f_equal. f_equal. rewrite length_app, Hlen. reflexivity.
    + cbn [content]. unfold data. now rewrite <- app_assoc.
    + cbn [pos]. now rewrite length_app, Hlen.
Qed.

Lemma init_rejects_before_reading_on_witness :
  __init__ (open_rb ([xe9; x11; x00; x00; x00; x00; x10; x40] ++ [x55; x55]))
  = (Raise (FatalError "Invalid firmware image" []),
     mkFile ([xe9; x11; x00; x00; x00; x00; x10; x40] ++ [x55; x55]) 8)
  /\ __init__ (open_rb ([xe9; x02; x00; x00; x00; x00; x10; x40]
                         ++ segs_bytes [(0x40100000, 4, [x00; x00; x00; x00])]
                         ++ [x00; x80; xfe; x3f; x70; x11; x01; x00] ++ [x55; x55]))
     = (Raise (FatalError "Suspicious segment 0x%x, length %d" [0x3ffe8000; 70000]),
        mkFile ([xe9; x02; x00; x00; x00; x00; x10; x40]
                  ++ segs_bytes [(0x40100000, 4, [x00; x00; x00; x00])]
                  ++ [x00; x80; xfe; x3f; x70; x11; x01; x00] ++ [x55; x55])
               (8 + List.length (segs_bytes [(0x40100000, 4, [x00; x00; x00; x00])]) + 8)).
Proof.
  split.
  - apply (proj1 init_rejects_before_reading_on 0xe9 17 0 0 0x40100000);
      [reflexivity | lia].
  - apply (proj2 init_rejects_before_reading_on 2 0 0 0x40100000 0x3ffe8000 70000
             [(0x40100000, 4, [x00; x00; x00; x00])]).
    + reflexivity.
    + repeat constructor; simpl; lia.
    + unfold len. simpl. lia.
    + reflexivity.
    + lia.
Defined.

(** C10. The checksum stays in a byte: from a state in [0, 255] the
    checksum of any data is in [0, 255]; and the checksum [save] has folded
    over the segments, from the seed 0xEF, is in [0, 255], so that packing
    it into the trailing byte does not fail. *)
Theorem checksum_fits_a_byte
    (data : bytes) (state : Z) (segs : list segment) (f : file) :
  0 <= state <= 255 ->
  0 <= ESPROM.checksum data state <= 255
  /\ match save_segments segs ESPROM.ESP_CHECKSUM_MAGIC f with
     | (Return checksum, _) =>
         0 <= checksum <= 255 /\ pack [B] [checksum] = Some [chr checksum]
     | _ => True
     end.
Proof.
  intros Hs. split; [now apply checksum_range|].
  pose proof (save_segments_checksum segs ESPROM.ESP_CHECKSUM_MAGIC f) as Hc.
  destruct (save_segments segs ESPROM.ESP_CHECKSUM_MAGIC f) as [[c| |] f']; try exact Logic.I.
  subst c.
  assert (Hr : 0 <= segments_checksum segs ESPROM.ESP_CHECKSUM_MAGIC <= 255)
    by (apply segments_checksum_range; unfold ESPROM.ESP_CHECKSUM_MAGIC; lia).
  split; [exact Hr|].
  cbn [pack code_size].
  assert (in_range B (segments_checksum segs ESPROM.ESP_CHECKSUM_MAGIC) = true) as ->
    by (apply in_range_spec; simpl; lia).
  cbn [le_bytes app]. now rewrite Z.mod_small by lia.
Qed.

Lemma checksum_fits_a_byte_witness :
  0 <= ESPROM.checksum [xff; x01] 0xef <= 255
  /\ match save_segments (segments example_image) ESPROM.ESP_CHECKSUM_MAGIC open_wb with
     | (Return checksum, _) =>
         0 <= checksum <= 255 /\ pack [B] [checksum] = Some [chr checksum]
     | _ => True
     end.
Proof.
  apply (checksum_fits_a_byte [xff; x01] 0xef (segments example_image) open_wb). lia.
Defined.

End ImageCodec.

(** * More on the image codec *)

Section ImageCodecMore.

Import ESPFirmwareImage.

(** [div_roundup a b] is the ceiling of [a / b] for a positive [b]: the
    least [q] with [a <= q * b]. *)
Theorem div_roundup_ceiling (a b : Z) :
  0 < b ->
  (div_roundup a b - 1) * b < a <= div_roundup a b * b.
Proof.
  intros Hb. unfold div_roundup.
  pose proof (Z.div_mod (a + b - 1) b ltac:(lia)) as Hdm.
  pose proof (Z.mod_pos_bound (a + b - 1) b Hb) as Hm.
  nia.
Qed.

Lemma div_roundup_ceiling_witness :
  (div_roundup 1025 0x400 - 1) * 0x400 < 1025 <= div_roundup 1025 0x400 * 0x400.
Proof. apply (div_roundup_ceiling 1025 0x400). lia. Defined.

Lemma checksum_app (a b : bytes) (state : Z) :
  ESPROM.checksum (a ++ b) state = ESPROM.checksum b (ESPROM.checksum a state).
Proof.
  revert state. induction a as [|c a IH]; intros state; [reflexivity|].
  cbn [app ESPROM.checksum]. apply IH.
Qed.

(** The checksum of an image is the checksum of the data of its segments
    put end to end: segment boundaries, addresses and sizes do not enter. *)
Theorem image_checksum_is_checksum_of_data (image : t) :
  image_info_checksum image
  = ESPROM.checksum (List.concat (map (fun s => snd s) (segments image)))
      ESPROM.ESP_CHECKSUM_MAGIC.
Proof.
  unfold image_info_checksum.
  generalize ESPROM.ESP_CHECKSUM_MAGIC as c.
  induction (segments image) as [|[[offset size] data] segs IH]; intros c; [reflexivity|].
  cbn [fold_left map List.concat snd]. now rewrite checksum_app, IH.
Qed.

Lemma pad_to_multiple (n m : Z) : 0 < m -> (n + (m - n mod m)) mod m = 0.
Proof.
  intros Hm. rewrite (Z.div_mod n m) at 1 by lia.
  replace (m * (n / m) + n mod m + (m - n mod m)) with ((n / m + 1) * m) by ring.
  apply Z.mod_mul. lia.
Qed.

(** [add_segment] with empty data changes nothing.  With data that is not
    empty it appends one segment at the given address: the data followed
    by fewer than four zero bytes, none when the length is already a
    multiple of 4; the stored size is the padded length, a multiple of 4;
    the other attributes of the image are untouched. *)
Theorem add_segment_word_aligned (addr : Z) (data : bytes) (self : t) :
  match data with
  | [] => add_segment addr data self = self
  | _ :: _ =>
      exists pad : bytes,
        add_segment addr data self
        = mk (segments self ++ [(addr, len (data ++ pad), data ++ pad)])
             (entrypoint self) (flash_mode self) (flash_size_freq self) (checksum self)
        /\ pad = List.repeat x00 (List.length pad)
        /\ len pad < 4
        /\ len (data ++ pad) mod 4 = 0
        /\ (len data mod 4 = 0 -> pad = [])
  end.
Proof.
  destruct data as [|b data]; [reflexivity|].
  set (d := b :: data). unfold add_segment.
  assert (Hl : 0 < len d) by (unfold len, d; simpl; lia).
  assert ((len d >? 0) = true) as -> by (rewrite Z.gtb_ltb; now apply Z.ltb_lt).
  pose proof (Z.mod_pos_bound (len d) 4 ltac:(lia)) as Hm.
  destruct (len d mod 4 =? 0) eqn:E; cbn [negb].
  - apply Z.eqb_eq in E. exists []. rewrite app_nil_r.
    repeat split; try reflexivity; assumption.
  - apply Z.eqb_neq in E. exists (List.repeat x00 (Z.to_nat (4 - len d mod 4))).
    split; [reflexivity|]. rewrite repeat_length. split; [reflexivity|].
    assert (Hpad : len (List.repeat x00 (Z.to_nat (4 - len d mod 4))) = 4 - len d mod 4)
      by (unfold len at 1; rewrite repeat_length; lia).
    rewrite len_app, Hpad.
    split; [lia|]. split; [|lia].
    apply pad_to_multiple. lia.
Qed.

Lemma segs_bytes_app a b : segs_bytes (a ++ b) = segs_bytes a ++ segs_bytes b.
Proof. unfold segs_bytes. now rewrite map_app, concat_app. Qed.

Lemma seg_ok_is_packable s : seg_ok s -> seg_packable s.
Proof. destruct s as [[offset size] data]. apply seg_ok_packable. Qed.

(** [save] writes any segment whose address and size are u32, whatever the
    address, the size and the length of the data. *)
Lemma save_segments_packable segs : forall c f,
  Forall seg_packable segs -> pos f = List.length (content f) ->
  save_segments segs c f
  = (Return (segments_checksum segs c),
     mkFile (content f ++ segs_bytes segs) (List.length (content f ++ segs_bytes segs))).
Proof.
  induction segs as [|[[offset size] data] segs IH]; intros c f Hok Hp.
  - cbn [save_segments segs_bytes map List.concat]. unfold ret, segments_checksum.
    cbn [fold_left]. rewrite app_nil_r, <- Hp. now destruct f.
  - inversion Hok as [|? ? Hok1 Hok']; subst. destruct Hok1 as [Ho Hs].
    cbn [save_segments]. rewrite (pack_II _ _ Ho Hs). cbn [lift_struct]. rewrite bind_ret.
    rewrite (bind_Return _ _ _ _ _ (f_write_end _ f Hp)).
    set (hdr := le_bytes 4 offset ++ le_bytes 4 size ++ []).
    rewrite (bind_Return _ _ _ _ _
               (f_write_end data
                  (mkFile (content f ++ hdr) (List.length (content f ++ hdr))) eq_refl)).
    rewrite IH by (assumption || reflexivity).
    cbn [content]. rewrite segs_bytes_cons. unfold seg_bytes. fold hdr.
    rewrite <- !app_assoc. reflexivity.
Qed.

Lemma pack_image_header_255 (image : t) :
  header_ok image -> (List.length (segments image) < 256)%nat ->
  pack [B; B; B; B; I]
    [ESPROM.ESP_IMAGE_MAGIC; len (segments image); flash_mode image;
     flash_size_freq image; entrypoint image]
  = Some (image_header image) /\ List.length (image_header image) = 8%nat.
Proof.
  intros (Hmo & Hf & He) Hn.
  assert (Hp : pack [B; B; B; B; I]
                 [ESPROM.ESP_IMAGE_MAGIC; len (segments image); flash_mode image;
                  flash_size_freq image; entrypoint image]
               = Some (image_header image)).
  { apply pack_header; try assumption; unfold ESPROM.ESP_IMAGE_MAGIC, len; lia. }
  split; [exact Hp|]. now destruct (unpack_fields_pack _ _ _ [] Hp) as [-> _].
Qed.

Lemma save_packable (image : t) :
  (List.length (segments image) < 256)%nat ->
  Forall seg_packable (segments image) -> header_ok image ->
  save image open_wb
  = (Return tt, mkFile (image_bytes image) (List.length (image_bytes image))).
Proof.
  intros Hn Hok Hh. destruct (pack_image_header_255 image Hh Hn) as [Hp Hlen].
  unfold save. rewrite Hp. cbn [lift_struct]. rewrite bind_ret.
  rewrite (bind_Return _ _ _ tt (mkFile (image_header image) 8)).
  2:{ rewrite (f_write_end (image_header image) open_wb eq_refl).
      cbn [open_wb content app]. now rewrite Hlen. }
  rewrite (bind_Return _ _ _ _ _
             (save_segments_packable (segments image) ESPROM.ESP_CHECKSUM_MAGIC
                (mkFile (image_header image) 8) Hok (eq_sym Hlen))).
  cbn [content]. fold (image_body image).
  rewrite (bind_Return _ _ _ (len (image_body image))
             (mkFile (image_body image) (List.length (image_body image)))) by reflexivity.
  destruct (image_padding_spec image) as [Hpad Hpos].
  rewrite (bind_Return _ _ _ tt
             (mkFile (image_body image)
                (List.length (image_body image) + image_padding image))).
  2:{ unfold f_seek_cur, modify. cbn [content pos]. f_equal. f_equal.
      unfold len in *. lia. }
  set (cs := segments_checksum (segments image) ESPROM.ESP_CHECKSUM_MAGIC).
  assert (Hcs : 0 <= cs <= 255)
    by (apply segments_checksum_range; unfold ESPROM.ESP_CHECKSUM_MAGIC; lia).
  cbn [pack code_size].
  assert (in_range B cs = true) as -> by (apply in_range_spec; simpl; lia).
  cbn [lift_struct]. rewrite bind_ret.
  rewrite (f_write_gap _ _ (image_padding image)) by reflexivity.
  reflexivity.
Qed.

(** The file [save] writes has a length that is a multiple of 16 and ends
    with the checksum byte, for every image it can write: at most 255
    segments with u32 addresses and sizes, header fields in range. *)
Theorem save_length_multiple_of_16 (image : t) :
  (List.length (segments image) < 256)%nat ->
  Forall seg_packable (segments image) -> header_ok image ->
  exists (f : file) (front : bytes),
    save image open_wb = (Return tt, f)
    /\ len (content f) mod 16 = 0
    /\ content f = front ++ [chr (image_info_checksum image)].
Proof.
  intros Hn Hok Hh.
  exists (mkFile (image_bytes image) (List.length (image_bytes image))).
  exists (image_body image ++ List.repeat x00 (image_padding image)).
  split; [now apply save_packable|]. cbn [content].
  change (image_info_checksum image)
    with (segments_checksum (segments image) ESPROM.ESP_CHECKSUM_MAGIC).
  set (cs := segments_checksum (segments image) ESPROM.ESP_CHECKSUM_MAGIC).
  assert (Hcs : 0 <= cs <= 255)
    by (apply segments_checksum_range; unfold ESPROM.ESP_CHECKSUM_MAGIC; lia).
  assert (Hb : image_bytes image
               = (image_body image ++ List.repeat x00 (image_padding image))
                   ++ [chr cs]).
  { unfold image_bytes. fold cs. cbn [le_bytes app]. rewrite <- app_assoc.
    now rewrite Z.mod_small by lia. }
  split; [|exact Hb].
  rewrite Hb, !len_app. destruct (image_padding_spec image) as [Hpad Hpos].
  assert (Hz : len (List.repeat x00 (image_padding image))
               = 15 - len (image_body image) mod 16)
    by (unfold len at 1; now rewrite repeat_length).
  rewrite Hz. change (len [chr cs]) with 1.
  replace (len (image_body image) + (15 - len (image_body image) mod 16) + 1)
    with (len (image_body image) + (16 - len (image_body image) mod 16)) by lia.
  apply pad_to_multiple. lia.
Qed.

Lemma save_length_multiple_of_16_witness :
  exists (f : file) (front : bytes),
    save example_image open_wb = (Return tt, f)
    /\ len (content f) mod 16 = 0
    /\ content f = front ++ [chr (image_info_checksum example_image)].
Proof.
  apply (save_length_multiple_of_16 example_image).
  - simpl. lia.
  - repeat constructor; simpl; lia.
  - unfold header_ok. simpl. lia.
Defined.

(** [__init__] up to the end of the segments, on a file that starts with
    the header and the segments of [image]. *)
Lemma init_reads_body (image : t) (tail : bytes) :
  (List.length (segments image) <= 16)%nat ->
  Forall seg_ok (segments image) -> header_ok image ->
  __init__ (open_rb (image_body image ++ tail))
  = (c <- f_read 1 ;;
     match c with
     | [b] => ret (mk (segments image) (entrypoint image) (flash_mode image)
                      (flash_size_freq image) (Some (ord b)))
     | _ => raise TypeError
     end)
      (mkFile (image_body image ++ tail)
         (List.length (image_body image) + image_padding image)).
Proof.
  intros Hn Hok Hh. destruct (pack_image_header image Hh Hn) as [Hp Hlen].
  set (data := image_body image ++ tail).
  assert (Hbytes : data = [] ++ image_header image ++ segs_bytes (segments image) ++ tail).
  { unfold data, image_body. now rewrite <- app_assoc. }
  unfold __init__.
  rewrite (bind_Return _ _ _ (image_header image) (mkFile data 8)).
  2:{ apply (f_read_at [] (image_header image) (segs_bytes (segments image) ++ tail));
        [exact Hbytes | reflexivity | unfold len; now rewrite Hlen
        | now rewrite Hlen]. }
  rewrite (unpack_pack _ _ _ Hp). cbn [lift_struct]. rewrite bind_ret.
  assert (negb (ESPROM.ESP_IMAGE_MAGIC =? ESPROM.ESP_IMAGE_MAGIC)
          || (len (segments image) >? 16) = false) as ->.
  { rewrite Z.eqb_refl, Z.gtb_ltb. cbn [negb orb]. apply Z.ltb_ge. unfold len. lia. }
  unfold len at 1. rewrite Nat2Z.id.
  rewrite (bind_Return _ _ _ _ _
             (read_segments_ok (segments image) [] (mkFile data 8)
                (image_header image) tail Hok Hbytes (eq_sym Hlen))).
  cbn [app content]. rewrite <- length_app. fold (image_body image).
  rewrite (bind_Return _ _ _ (len (image_body image))
             (mkFile data (List.length (image_body image)))) by reflexivity.
  destruct (image_padding_spec image) as [Hpad Hpos].
  rewrite (bind_Return _ _ _ tt
             (mkFile data (List.length (image_body image) + image_padding image))).
  2:{ unfold f_seek_cur, modify. cbn [content pos]. f_equal. f_equal.
      unfold len in *. lia. }
  reflexivity.
Qed.

(** [__init__] checks neither the padding nor the checksum: after the
    header and the segments it skips as many bytes as the padding takes,
    whatever they are, stores the next byte as the checksum, whatever it
    is, and leaves the rest of the file unread.  [image_info] then reports
    the image valid exactly when that byte is the recomputed checksum. *)
Theorem init_takes_any_checksum_byte (image : t) (pad : bytes) (c : byte) (rest : bytes) :
  (List.length (segments image) <= 16)%nat ->
  Forall seg_ok (segments image) -> header_ok image ->
  List.length pad = image_padding image ->
  exists parsed : t,
    __init__ (open_rb (image_body image ++ pad ++ [c] ++ rest))
    = (Return parsed,
       mkFile (image_body image ++ pad ++ [c] ++ rest)
              (List.length (image_body image ++ pad ++ [c])))
    /\ segments parsed = segments image
    /\ checksum parsed = Some (ord c)
    /\ image_info_valid parsed = (ord c =? image_info_checksum image).
Proof.
  intros Hn Hok Hh Hpad.
  exists (mk (segments image) (entrypoint image) (flash_mode image)
             (flash_size_freq image) (Some (ord c))).
  split; [|repeat split; reflexivity].
  rewrite (init_reads_body image (pad ++ [c] ++ rest) Hn Hok Hh).
  rewrite (bind_Return _ _ _ [c]
             (mkFile (image_body image ++ pad ++ [c] ++ rest)
                (List.length (image_body image ++ pad ++ [c])))).
  - reflexivity.
  - apply (f_read_at (image_body image ++ pad) [c] rest).
    + cbn [content]. now rewrite <- !app_assoc.
    + cbn [pos]. rewrite length_app. lia.
    + reflexivity.
    + rewrite !length_app. cbn [List.length]. lia.
Qed.

Lemma init_takes_any_checksum_byte_witness :
  exists parsed : t,
    __init__ (open_rb (image_body example_image
                         ++ List.repeat x55 (image_padding example_image)
                         ++ [x00] ++ [x01; x02]))
    = (Return parsed,
       mkFile (image_body example_image
                 ++ List.repeat x55 (image_padding example_image) ++ [x00] ++ [x01; x02])
              (List.length (image_body example_image
                              ++ List.repeat x55 (image_padding example_image) ++ [x00])))
    /\ segments parsed = segments example_image
    /\ checksum parsed = Some (ord x00)
    /\ image_info_valid parsed = (ord x00 =? image_info_checksum example_image).
Proof.
  apply (init_takes_any_checksum_byte example_image
           (List.repeat x55 (image_padding example_image)) x00 [x01; x02]).
  - simpl. lia.
  - repeat constructor; simpl; lia.
  - unfold header_ok. simpl. lia.
  - reflexivity.
Defined.

(** A file that ends before the position of the checksum byte makes
    [__init__] raise [TypeError] (from [ord] of an empty read), which the
    guard around [main] does not catch: exit status 1. *)
Theorem init_missing_checksum_is_type_error (image : t) (pad : bytes) :
  (List.length (segments image) <= 16)%nat ->
  Forall seg_ok (segments image) -> header_ok image ->
  (List.length pad <= image_padding image)%nat ->
  fst (__init__ (open_rb (image_body image ++ pad))) = Raise TypeError
  /\ exit_status (fst (__init__ (open_rb (image_body image ++ pad)))) = Some 1.
Proof.
  intros Hn Hok Hh Hpad.
  assert (H1 : fst (__init__ (open_rb (image_body image ++ pad))) = Raise TypeError).
  { rewrite (init_reads_body image pad Hn Hok Hh).
    unfold bind, f_read. cbn [content pos].
    rewrite skipn_all2 by (rewrite length_app; lia).
    now rewrite firstn_nil. }
  split; [exact H1 | now rewrite H1].
Qed.

Lemma init_missing_checksum_is_type_error_witness :
  fst (__init__ (open_rb (image_body example_image ++ [x00; x00]))) = Raise TypeError
  /\ exit_status (fst (__init__ (open_rb (image_body example_image ++ [x00; x00]))))
     = Some 1.
Proof.
  apply (init_missing_checksum_is_type_error example_image [x00; x00]).
  - simpl. lia.
  - repeat constructor; simpl; lia.
  - unfold header_ok. simpl. lia.
  - vm_compute. lia.
Defined.

(** A file shorter than the 8-byte header makes [__init__] raise
    [struct.error], not [FatalError]: the guard around [main] does not
    catch it and the exit status is 1. *)
Theorem init_short_file_is_struct_error (data : bytes) :
  (List.length data < 8)%nat ->
  __init__ (open_rb data) = (Raise struct_error, mkFile data (List.length data))
  /\ exit_status (fst (__init__ (open_rb data))) = Some 1.
Proof.
  intros Hl.
  assert (H1 : __init__ (open_rb data)
               = (Raise struct_error, mkFile data (List.length data))).
  { unfold __init__.
    rewrite (bind_Return _ _ _ data (mkFile data (List.length data))).
    2:{ unfold f_read, open_rb. cbn [content pos skipn].
        now rewrite firstn_all2 by (simpl; lia). }
    unfold unpack. cbn [calcsize fold_right code_size].
    assert (Nat.eqb (List.length data) (1 + (1 + (1 + (1 + (4 + 0))))) = false) as ->
      by (apply Nat.eqb_neq; lia).
    reflexivity. }
  split; [exact H1 | now rewrite H1].
Qed.

Lemma init_short_file_is_struct_error_witness :
  __init__ (open_rb [xe9; x00; x00])
  = (Raise struct_error, mkFile [xe9; x00; x00] (List.length [xe9; x00; x00]))
  /\ exit_status (fst (__init__ (open_rb [xe9; x00; x00]))) = Some 1.
Proof. apply (init_short_file_is_struct_error [xe9; x00; x00]). simpl. lia. Defined.

(** A first byte other than 0xE9 makes [__init__] raise the invalid-image
    [FatalError] right after the header, whatever the header declares and
    whatever follows. *)
Theorem init_bad_magic (magic n mode freq entry : Z) (hdr rest : bytes) :
  pack [B; B; B; B; I] [magic; n; mode; freq; entry] = Some hdr ->
  magic <> ESPROM.ESP_IMAGE_MAGIC ->
  __init__ (open_rb (hdr ++ rest))
  = (Raise (FatalError "Invalid firmware image" []), mkFile (hdr ++ rest) 8).
Proof.
  intros Hp Hm.
  assert (Hlen : List.length hdr = 8%nat)
    by now destruct (unpack_fields_pack _ _ _ [] Hp) as [-> _].
  unfold __init__.
  rewrite (bind_Return _ _ _ hdr (mkFile (hdr ++ rest) 8)).
  2:{ apply (f_read_at [] hdr rest);
        [reflexivity | reflexivity | unfold len; now rewrite Hlen | now rewrite Hlen]. }
  rewrite (unpack_pack _ _ _ Hp). cbn [lift_struct]. rewrite bind_ret.
  apply Z.eqb_neq in Hm. now rewrite Hm.
Qed.

Lemma init_bad_magic_witness :
  __init__ (open_rb ([xea; x01; x00; x00; x00; x00; x10; x40] ++ [x55]))
  = (Raise (FatalError "Invalid firmware image" []),
     mkFile ([xea; x01; x00; x00; x00; x00; x10; x40] ++ [x55]) 8).
Proof.
  apply (init_bad_magic 0xea 1 0 0 0x40100000); [reflexivity | discriminate].
Defined.

Lemma f_read_short (pre chunk : bytes) (n : Z) (f : file) :
  content f = pre ++ chunk ->
  pos f = List.length pre ->
  len chunk <= n ->
  f_read n f = (Return chunk, mkFile (content f) (List.length (pre ++ chunk))).
Proof.
  intros Hc Hp Hn. unfold f_read. rewrite Hp, Hc.
  rewrite skipn_app, skipn_all, Nat.sub_diag. cbn [skipn app].
  rewrite firstn_all2 by (unfold len in Hn; lia).
  now rewrite length_app.
Qed.

(** A segment whose data stops short of the size its header declares makes
    [__init__] raise the end-of-file [FatalError], with the address, the
    declared size and the length actually read as arguments; the file has
    been read to its end. *)
Theorem init_truncated_segment
    (n mode freq entry offset size : Z) (good : list segment)
    (hdr sh partial : bytes) :
  pack [B; B; B; B; I] [ESPROM.ESP_IMAGE_MAGIC; n; mode; freq; entry] = Some hdr ->
  Forall seg_ok good ->
  len good < n <= 16 ->
  pack [I; I] [offset; size] = Some sh ->
  0x3ffe0000 <= offset <= 0x40200000 -> size <= 65536 ->
  len partial < size ->
  __init__ (open_rb (hdr ++ segs_bytes good ++ sh ++ partial))
  = (Raise (FatalError "End of file reading segment 0x%x, length %d (actual length %d)"
                       [offset; size; len partial]),
     mkFile (hdr ++ segs_bytes good ++ sh ++ partial)
            (List.length (hdr ++ segs_bytes good ++ sh ++ partial))).
Proof.
  intros Hp Hok Hn Hps Hoff Hsz Hshort.
  assert (Hlen : List.length hdr = 8%nat)
    by now destruct (unpack_fields_pack _ _ _ [] Hp) as [-> _].
  assert (Hlens : List.length sh = 8%nat)
    by now destruct (unpack_fields_pack _ _ _ [] Hps) as [-> _].
  set (data := hdr ++ segs_bytes good ++ sh ++ partial).
  unfold __init__.
  rewrite (bind_Return _ _ _ hdr (mkFile data 8)).
  2:{ apply (f_read_at [] hdr (segs_bytes good ++ sh ++ partial));
        [reflexivity | reflexivity | unfold len; now rewrite Hlen | now rewrite Hlen]. }
  rewrite (unpack_pack _ _ _ Hp). cbn [lift_struct]. rewrite bind_ret.
  assert (negb (ESPROM.ESP_IMAGE_MAGIC =? ESPROM.ESP_IMAGE_MAGIC) || (n >? 16) = false)
    as ->.
  { rewrite Z.eqb_refl, Z.gtb_ltb. cbn [negb orb]. apply Z.ltb_ge. lia. }
  unfold len in Hn.
  replace (Z.to_nat n)
    with (List.length good + S (Z.to_nat n - List.length good - 1))%nat by lia.
  apply bind_Raise.
  rewrite (read_segments_prefix good _ [] (mkFile data 8) hdr (sh ++ partial) Hok
             eq_refl (eq_sym Hlen)).
  cbn [read_segments content].
  rewrite (bind_Return _ _ _ sh
             (mkFile data (List.length hdr + List.length (segs_bytes good) + 8))).
  2:{ apply (f_read_at (hdr ++ segs_bytes good) sh partial); cbn [content pos].
      - unfold data. now rewrite <- app_assoc.
      - now rewrite length_app.
      - unfold len. now rewrite Hlens.
      - rewrite length_app, Hlens. lia. }
  rewrite (unpack_pack _ _ _ Hps). cbn [lift_struct]. rewrite bind_ret.
  assert ((offset >? 0x40200000) || (offset <? 0x3ffe0000) || (size >? 65536) = false)
    as ->.
  { rewrite !Z.gtb_ltb, !orb_false_iff, !Z.ltb_ge. lia. }
  rewrite (bind_Return _ _ _ partial (mkFile data (List.length data))).
  2:{ rewrite (f_read_short ((hdr ++ segs_bytes good) ++ sh) partial size); cbn [content pos].
      - unfold data. now rewrite <- !app_assoc.
      - unfold data. now rewrite <- !app_assoc.
      - rewrite !length_app, Hlens. lia.
      - lia. }
  apply Z.ltb_lt in Hshort. now rewrite Hshort.
Qed.

Lemma init_truncated_segment_witness :
  __init__ (open_rb ([xe9; x01; x00; x00; x00; x00; x10; x40] ++ segs_bytes []
                       ++ [x00; x00; x10; x40; x08; x00; x00; x00] ++ [x01; x02; x03]))
  = (Raise (FatalError "End of file reading segment 0x%x, length %d (actual length %d)"
                       [0x40100000; 8; len [x01; x02; x03]]),
     mkFile ([xe9; x01; x00; x00; x00; x00; x10; x40] ++ segs_bytes []
               ++ [x00; x00; x10; x40; x08; x00; x00; x00] ++ [x01; x02; x03])
            (List.length ([xe9; x01; x00; x00; x00; x00; x10; x40] ++ segs_bytes []
               ++ [x00; x00; x10; x40; x08; x00; x00; x00] ++ [x01; x02; x03]))).
Proof.
  apply (init_truncated_segment 1 0 0 0x40100000 0x40100000 8 []).
  - reflexivity.
  - constructor.
  - unfold len. simpl. lia.
  - reflexivity.
  - lia.
  - lia.
  - unfold len. simpl. lia.
Defined.

(** [save] does not apply the checks of [__init__]: an image with a segment
    whose address is outside [0x3ffe0000, 0x40200000] or whose size is
    above 65536 (both still u32) is written without error, and reading the
    written file back raises the suspicious-segment [FatalError]. *)
Theorem save_writes_what_init_rejects
    (image : t) (good more : list segment) (offset size : Z) (data : bytes) :
  segments image = good ++ (offset, size, data) :: more ->
  (List.length (segments image) <= 16)%nat ->
  Forall seg_ok good ->
  seg_packable (offset, size, data) -> Forall seg_packable more ->
  header_ok image ->
  offset > 0x40200000 \/ offset < 0x3ffe0000 \/ size > 65536 ->
  exists f f' : file,
    save image open_wb = (Return tt, f)
    /\ __init__ (open_rb (content f))
       = (Raise (FatalError "Suspicious segment 0x%x, length %d" [offset; size]), f').
Proof.
  intros Hsegs Hn Hgood Hbad Hmore Hh Hout.
  assert (Hall : Forall seg_packable (segments image)).
  { rewrite Hsegs. apply Forall_app. split.
    - eapply Forall_impl; [|exact Hgood]. apply seg_ok_is_packable.
    - now constructor. }
  eexists. eexists.
  split; [apply save_packable; [lia | exact Hall | exact Hh]|].
  cbn [content].
  destruct (pack_image_header image Hh Hn) as [Hp Hlen].
  destruct Hbad as [Ho Hs]. pose proof (pack_II _ _ Ho Hs) as Hps.
  set (sh := le_bytes 4 offset ++ le_bytes 4 size ++ []) in Hps.
  set (tail := data ++ segs_bytes more
                 ++ List.repeat x00 (image_padding image)
                 ++ le_bytes 1 (segments_checksum (segments image)
                                  ESPROM.ESP_CHECKSUM_MAGIC) ++ []).
  assert (Hbytes : image_bytes image
                   = image_header image ++ segs_bytes good ++ sh ++ tail).
  { unfold image_bytes, image_body, tail. rewrite Hsegs at 1.
    rewrite segs_bytes_app, segs_bytes_cons. unfold seg_bytes. fold sh.
    now rewrite <- !app_assoc. }
  rewrite Hbytes. set (file := image_header image ++ segs_bytes good ++ sh ++ tail).
  unfold __init__.
  rewrite (bind_Return _ _ _ (image_header image) (mkFile file 8)).
  2:{ apply (f_read_at [] (image_header image) (segs_bytes good ++ sh ++ tail));
        [reflexivity | reflexivity | unfold len; now rewrite Hlen | now rewrite Hlen]. }
  rewrite (unpack_pack _ _ _ Hp). cbn [lift_struct]. rewrite bind_ret.
  assert (negb (ESPROM.ESP_IMAGE_MAGIC =? ESPROM.ESP_IMAGE_MAGIC)
          || (len (segments image) >? 16) = false) as ->.
  { rewrite Z.eqb_refl, Z.gtb_ltb. cbn [negb orb]. apply Z.ltb_ge. unfold len. lia. }
  unfold len at 1. rewrite Nat2Z.id, Hsegs, length_app. cbn [List.length].
  apply bind_Raise.
  rewrite (read_segments_prefix good _ [] (mkFile file 8) (image_header image)
             (sh ++ tail) Hgood eq_refl (eq_sym Hlen)).
  apply (read_segments_suspicious _ _ _ (image_header image ++ segs_bytes good) sh tail
           offset size Hps Hout).
  - cbn [content]. unfold file. now rewrite <- app_assoc.
  - cbn [pos]. now rewrite length_app.
Qed.

Lemma save_writes_what_init_rejects_witness :
  exists f f' : file,
    save (mk [(0x40210000, 4, [x01; x02; x03; x04])] 0 0 0 None) open_wb = (Return tt, f)
    /\ __init__ (open_rb (content f))
       = (Raise (FatalError "Suspicious segment 0x%x, length %d" [0x40210000; 4]), f').
Proof.
  apply (save_writes_what_init_rejects
           (mk [(0x40210000, 4, [x01; x02; x03; x04])] 0 0 0 None)
           [] [] 0x40210000 4 [x01; x02; x03; x04]).
  - reflexivity.
  - simpl. lia.
  - constructor.
  - simpl. lia.
  - constructor.
  - unfold header_ok. simpl. lia.
  - lia.
Defined.

(** One [add_segment] keeps the segments acceptable to the parser when the
    address is in range and the data has at most 65536 bytes; it adds at
    most one segment and touches no other attribute. *)
Lemma add_segment_keeps_ok (addr : Z) (data : bytes) (self : t) :
  part_ok (data, addr) -> Forall seg_ok (segments self) ->
  Forall seg_ok (segments (add_segment addr data self))
  /\ (List.length (segments (add_segment addr data self))
      <= S (List.length (segments self)))%nat
  /\ entrypoint (add_segment addr data self) = entrypoint self
  /\ flash_mode (add_segment addr data self) = flash_mode self
  /\ flash_size_freq (add_segment addr data self) = flash_size_freq self.
Proof.
  intros [Haddr Hlen] Hok. unfold add_segment.
  destruct (len data >? 0); [|repeat split; auto].
  cbn [segments entrypoint flash_mode flash_size_freq].
  split; [|rewrite length_app; cbn [List.length]; repeat split; lia].
  apply Forall_app. split; [exact Hok|]. constructor; [|constructor].
  split; [reflexivity|]. split; [exact Haddr|].
  pose proof (len_nonneg data) as Hnn.
  destruct (len data mod 4 =? 0) eqn:E; cbn [negb]; [exact Hlen|].
  apply Z.eqb_neq in E. rewrite len_app.
  assert (Hpad : len (List.repeat x00 (Z.to_nat (4 - len data mod 4)))
                 = 4 - len data mod 4).
  { pose proof (Z.mod_pos_bound (len data) 4 ltac:(lia)).
    unfold len at 1. rewrite repeat_length. lia. }
  rewrite Hpad. Z.div_mod_to_equations. lia.
Qed.

Lemma fold_add_segment_keeps_ok (parts : list (bytes * Z)) : forall image : t,
  Forall part_ok parts -> Forall seg_ok (segments image) ->
  let image' :=
    fold_left (fun image '(data, addr) => add_segment addr data image) parts image in
  Forall seg_ok (segments image')
  /\ (List.length (segments image')
      <= List.length (segments image) + List.length parts)%nat
  /\ entrypoint image' = entrypoint image
  /\ flash_mode image' = flash_mode image
  /\ flash_size_freq image' = flash_size_freq image.
Proof.
  induction parts as [|[data addr] parts IH]; intros image Hparts Hok.
  - cbn. repeat split; auto. lia.
  - inversion Hparts as [|? ? Hp Hparts']; subst.
    destruct (add_segment_keeps_ok addr data image Hp Hok) as (H1 & H2 & H3 & H4 & H5).
    cbn [fold_left].
    destruct (IH (add_segment addr data image) Hparts' H1) as (I1 & I2 & I3 & I4 & I5).
    cbn zeta in *. repeat split; try congruence; try assumption.
    cbn [List.length]. lia.
Qed.

(** The [make_image] operation and the parser.  For at least one and at
    most 16 input files, as many addresses, each address in
    [0x3ffe0000, 0x40200000], each file of at most 65536 bytes, and a u32
    entry point: [make_image] writes a file that [__init__] reads back as
    the segments [add_segment] built (empty files left out, data padded to
    words), with the entry point given, and [image_info] finds its
    checksum valid. *)
Theorem make_image_roundtrip (segfile : list bytes) (segaddr : list Z) (entry : Z) :
  segfile <> [] ->
  List.length segfile = List.length segaddr ->
  (List.length segfile <= 16)%nat ->
  Forall part_ok (combine segfile segaddr) ->
  0 <= entry < 2 ^ 32 ->
  exists (f f' : file) (parsed : t),
    make_image segfile segaddr entry open_wb = (Return tt, f)
    /\ __init__ (open_rb (content f)) = (Return parsed, f')
    /\ segments parsed = added_segments (combine segfile segaddr)
    /\ entrypoint parsed = entry
    /\ image_info_valid parsed = true.
Proof.
  intros Hne Hlen Hn Hparts Hentry.
  destruct (fold_add_segment_keeps_ok (combine segfile segaddr) empty Hparts
              (Forall_nil _)) as (Hok & Hcount & _ & Hmode & Hfreq).
  cbn zeta in *. cbn [empty segments flash_mode flash_size_freq List.length] in *.
  set (built := fold_left (fun image '(data, addr) => add_segment addr data image)
                  (combine segfile segaddr) empty) in *.
  set (image := mk (segments built) entry (flash_mode built) (flash_size_freq built)
                   (checksum built)).
  assert (Hn' : (List.length (segments image) <= 16)%nat).
  { cbn [image segments]. rewrite length_combine in Hcount. lia. }
  assert (Hh : header_ok image).
  { unfold header_ok. cbn [image flash_mode flash_size_freq entrypoint].
    rewrite Hmode, Hfreq. lia. }
  exists (mkFile (image_bytes image) (List.length (image_bytes image))).
  exists (mkFile (image_bytes image) (List.length (image_bytes image))).
  exists (mk (segments image) (entrypoint image) (flash_mode image)
             (flash_size_freq image)
             (Some (segments_checksum (segments image) ESPROM.ESP_CHECKSUM_MAGIC))).
  split; [|split; [exact (init_saved image Hn' Hok Hh)|]].
  - unfold make_image.
    assert ((len segfile =? 0) = false) as ->.
    { apply Z.eqb_neq. unfold len. destruct segfile; [congruence | simpl; lia]. }
    assert ((len segfile =? len segaddr) = true) as ->
      by (apply Z.eqb_eq; unfold len; now rewrite Hlen).
    cbn [negb]. fold built. fold image. exact (save_ok image Hn' Hok Hh).
  - repeat split. unfold image_info_valid. cbn [checksum]. apply Z.eqb_refl.
Qed.

Lemma make_image_roundtrip_witness :
  exists (f f' : file) (parsed : t),
    make_image [[x01; x02; x03; x04; x05]; []; [xc0; xdb]] [0x40100000; 0x3ffe8000; 0x3ffe8400]
               0x40100004 open_wb = (Return tt, f)
    /\ __init__ (open_rb (content f)) = (Return parsed, f')
    /\ segments parsed
       = added_segments
           (combine [[x01; x02; x03; x04; x05]; []; [xc0; xdb]]
                    [0x40100000; 0x3ffe8000; 0x3ffe8400])
    /\ entrypoint parsed = 0x40100004
    /\ image_info_valid parsed = true.
Proof.
  apply (make_image_roundtrip [[x01; x02; x03; x04; x05]; []; [xc0; xdb]]
           [0x40100000; 0x3ffe8000; 0x3ffe8400] 0x40100004).
  - discriminate.
  - reflexivity.
  - simpl. lia.
  - repeat constructor; unfold len; simpl; lia.
  - lia.
Defined.

End ImageCodecMore.

(** * More on the framing layer and the command engine *)

Section EngineMore.

Import ESPROM.

(** The loop of [read] decodes an escaped prefix and goes on with what
    follows it on the wire. *)
Lemma read_loop_prefix pre : forall fuel length b st rest,
  len b + len pre <= length ->
  input (_port st) = slip_escape pre ++ rest ->
  read_loop (List.length pre + fuel) length b st
  = read_loop fuel length (b ++ pre) (with_input st rest).
Proof.
  induction pre as [|c pre IH]; intros fuel length b st rest Hl Hi.
  - cbn [List.length Nat.add]. rewrite app_nil_r. simpl in Hi.
    now rewrite <- Hi, with_input_same.
  - cbn [List.length Nat.add]. rewrite read_loop_S.
    assert ((len b <? length) = true) as ->.
    { apply Z.ltb_lt. unfold len in *. simpl in *. lia. }
    rewrite slip_escape_cons in Hi.
    assert (Hl' : forall x, len (b ++ [x]) + len pre <= length).
    { intros x. rewrite len_app. unfold len in *. simpl in *. lia. }
    destruct (Byte.eqb c xdb) eqn:Edb.
    + apply Byte.byte_dec_bl in Edb. subst c. cbn [app] in Hi.
      rewrite (bind_Return _ _ _ _ _ (port_read1_cons _ _ _ Hi)).
      change (bytes_eqb [xdb] [xdb]) with true. cbv iota.
      rewrite (bind_Return _ _ _ [xdd] (with_input st (slip_escape pre ++ rest)))
        by reflexivity.
      change (bytes_eqb [xdd] [xdc]) with false.
      change (bytes_eqb [xdd] [xdd]) with true. cbv iota.
      rewrite (IH fuel length (b ++ [xdb]) (with_input st (slip_escape pre ++ rest))
                 rest (Hl' _) eq_refl).
      now rewrite <- app_assoc.
    + destruct (Byte.eqb c xc0) eqn:Ec0.
      * apply Byte.byte_dec_bl in Ec0. subst c. cbn [app] in Hi.
        rewrite (bind_Return _ _ _ _ _ (port_read1_cons _ _ _ Hi)).
        change (bytes_eqb [xdb] [xdb]) with true. cbv iota.
        rewrite (bind_Return _ _ _ [xdc] (with_input st (slip_escape pre ++ rest)))
          by reflexivity.
        change (bytes_eqb [xdc] [xdc]) with true. cbv iota.
        rewrite (IH fuel length (b ++ [xc0]) (with_input st (slip_escape pre ++ rest))
                   rest (Hl' _) eq_refl).
        now rewrite <- app_assoc.
      * cbn [app] in Hi.
        rewrite (bind_Return _ _ _ _ _ (port_read1_cons _ _ _ Hi)).
        cbn [bytes_eqb]. rewrite Edb. cbn [andb].
        rewrite (IH fuel length (b ++ [c]) (with_input st (slip_escape pre ++ rest))
                   rest (Hl' _) eq_refl).
        now rewrite <- app_assoc.
Qed.

(** An escape byte 0xDB that is followed by anything but 0xDC or 0xDD, or
    by nothing before the timeout, makes [read] raise the invalid-escape
    [FatalError], whatever was decoded before it; the escape byte and the
    byte after it have been consumed. *)
Theorem read_invalid_escape (fuel : nat) (n : Z) (pre next : bytes) (st : t) :
  len pre < n ->
  input (_port st) = slip_escape pre ++ [xdb] ++ next ->
  (forall c, hd_error next = Some c -> c <> xdc /\ c <> xdd) ->
  read (List.length pre + S fuel) n st
  = (Raise (FatalError "Invalid SLIP escape" []), with_input st (tl next)).
Proof.
  intros Hn Hi Hnext. unfold read.
  rewrite (read_loop_prefix pre (S fuel) n [] st ([xdb] ++ next)) by (cbn; lia || exact Hi).
  cbn [app]. rewrite read_loop_S.
  apply Z.ltb_lt in Hn. rewrite Hn.
  rewrite (bind_Return _ _ _ [xdb] (with_input st next)) by reflexivity.
  change (bytes_eqb [xdb] [xdb]) with true. cbv iota.
  destruct next as [|c next].
  - rewrite (bind_Return _ _ _ _ _ (port_read1_nil (with_input st []) eq_refl)).
    reflexivity.
  - rewrite (bind_Return _ _ _ [c] (with_input st next)) by reflexivity.
    destruct (Hnext c eq_refl) as [Hdc Hdd].
    cbn [bytes_eqb]. rewrite (byte_eqb_neq _ _ Hdc), (byte_eqb_neq _ _ Hdd). reflexivity.
Qed.

Lemma read_invalid_escape_witness :
  let st := mk (mkSerial (Some 5%Q) (slip_escape [x01; xc0] ++ [xdb] ++ [x41; x42]) []) 0 in
  read (List.length [x01; xc0] + S 0) 4 st
  = (Raise (FatalError "Invalid SLIP escape" []), with_input st (tl [x41; x42])).
Proof.
  intros st. apply (read_invalid_escape 0 4 [x01; xc0] [x41; x42] st).
  - unfold len. simpl. lia.
  - reflexivity.
  - intros c [= <-]. split; discriminate.
Defined.

(** The first well-formed response with the opcode of the request ends
    [command]. *)
Lemma command_ok (fuel : nat) (op : Z) (data : bytes) (chk : Z)
    (r : response) (rest : bytes) (st : t) :
  wf_request op data chk ->
  wf_response r -> enough_fuel fuel [r] -> r_op r = op ->
  input (_port st) = response_frame r ++ rest ->
  command fuel (Some op) (Some data) chk st
  = (Return (r_val r, r_body r),
     ticks 1 (with_input (after_request op data chk st) rest)).
Proof.
  intros Hreq Hwf Hfuel Hop Hi.
  assert (Hin : input (_port (after_request op data chk st)) = response_frame r ++ rest).
  { unfold after_request. now destruct (op =? 0). }
  rewrite (command_request fuel op data chk st Hreq), command_loop_S.
  rewrite (bind_Return _ _ _ _ _ (receive_response_frame fuel r rest _ Hwf Hfuel Hin)).
  cbn [accepts]. now rewrite Hop, Z.eqb_refl.
Qed.

Lemma command_without_op_frame
    (fuel : nat) (chk : Z) (r : response) (rest : bytes) (st : t) :
  wf_response r -> enough_fuel fuel [r] ->
  input (_port st) = response_frame r ++ rest ->
  command fuel None None chk st
  = (Return (r_val r, r_body r), ticks 1 (with_input st rest)).
Proof.
  intros Hwf Hfuel Hi. unfold command. cbn [truthy]. rewrite bind_ret.
  change (command_loop fuel 100 None)
    with (r <- receive_response fuel ;;
          let '(op_ret, val, body) := r in
          if accepts None op_ret then ret (val, body)
          else command_loop fuel 99 None).
  now rewrite (bind_Return _ _ _ _ _ (receive_response_frame fuel r rest st Hwf Hfuel Hi)).
Qed.

(** [command()] without an opcode sends nothing and returns the value and
    the body of the first well-formed response, whatever its opcode, after
    one call of [receive_response]. *)
Theorem command_without_op_takes_first
    (fuel : nat) (chk : Z) (r : response) (rest : bytes) (st : t) :
  wf_response r -> enough_fuel fuel [r] ->
  input (_port st) = response_frame r ++ rest ->
  command fuel None None chk st
  = (Return (r_val r, r_body r), ticks 1 (with_input st rest)).
Proof.
  intros Hwf Hfuel Hi. now apply command_without_op_frame.
Qed.

Lemma command_without_op_takes_first_witness :
  let r := mkResponse 0x04 7 [x01; xc0] in
  let st := mk (mkSerial (Some 5%Q) (response_frame r ++ [x55]) []) 0 in
  command 8 None None 0 st = (Return (r_val r, r_body r), ticks 1 (with_input st [x55])).
Proof.
  intros r st. apply (command_without_op_takes_first 8 0 r [x55] st).
  - subst r. unfold wf_response, len. simpl. lia.
  - subst r. split; [lia|]. repeat constructor.
  - reflexivity.
Defined.

(** On a device that sends nothing, [command] writes its request, calls
    [receive_response] once and raises the invalid-head [FatalError]: the
    timeout on the first byte of a response does end the call. *)
Theorem command_silent_device_raises
    (fuel : nat) (op : Z) (data : bytes) (chk : Z) (st : t) :
  wf_request op data chk -> silent st ->
  command fuel (Some op) (Some data) chk st
  = (Raise (FatalError "Invalid head of packet" []),
     ticks 1 (after_request op data chk st)).
Proof.
  intros Hreq Hs.
  assert (Hin : input (_port (ticks 1 (after_request op data chk st))) = []).
  { unfold after_request. now destruct (op =? 0). }
  rewrite (command_request fuel op data chk st Hreq), command_loop_S.
  apply bind_Raise. unfold receive_response.
  rewrite (bind_Return _ _ _ tt (ticks 1 (after_request op data chk st))) by reflexivity.
  now rewrite (bind_Return _ _ _ _ _ (port_read1_nil _ Hin)).
Qed.

Lemma command_silent_device_raises_witness :
  let st := mk (mkSerial (Some 5%Q) [] []) 0 in
  command 8 (Some ESP_READ_REG) (Some [x00; x00; x00; x60]) 0 st
  = (Raise (FatalError "Invalid head of packet" []),
     ticks 1 (after_request ESP_READ_REG [x00; x00; x00; x60] 0 st)).
Proof.
  intros st. apply (command_silent_device_raises 8 ESP_READ_REG [x00; x00; x00; x60] 0 st).
  - unfold wf_request, ESP_READ_REG, len. simpl. lia.
  - reflexivity.
Defined.

(** A frame whose first header byte is not 0x01 makes [receive_response]
    raise the invalid-response [FatalError] with that byte as argument, as
    soon as the 8 header bytes are read: the body is left on the wire. *)
Theorem receive_response_bad_direction
    (fuel : nat) (resp op_ret len_ret val : Z) (hdr rest : bytes) (st : t) :
  pack [B; B; H; I] [resp; op_ret; len_ret; val] = Some hdr ->
  resp <> 0x01 -> (8 <= fuel)%nat ->
  input (_port st) = [xc0] ++ slip_escape hdr ++ rest ->
  receive_response fuel st
  = (Raise (FatalError invalid_response_message [resp]), ticks 1 (with_input st rest)).
Proof.
  intros Hp Hresp Hf Hi.
  assert (Hlen : List.length hdr = 8%nat)
    by now destruct (unpack_fields_pack _ _ _ [] Hp) as [-> _].
  unfold receive_response.
  rewrite (bind_Return _ _ _ tt (ticks 1 st)) by reflexivity.
  rewrite (bind_Return _ _ _ [xc0] (with_input (ticks 1 st) (slip_escape hdr ++ rest)))
    by (apply port_read1_cons; exact Hi).
  change (bytes_eqb [xc0] [xc0]) with true. cbn [negb].
  rewrite (bind_Return _ _ _ hdr (with_input (ticks 1 st) rest)).
  2:{ apply (read_slip_escape_to hdr) with (rest := rest);
        [lia | unfold len; now rewrite Hlen | reflexivity | reflexivity]. }
  rewrite (unpack_pack _ _ _ Hp). cbn [lift_struct]. rewrite bind_ret.
  apply Z.eqb_neq in Hresp. now rewrite Hresp.
Qed.

Lemma receive_response_bad_direction_witness :
  let st := mk (mkSerial (Some 5%Q)
                  ([xc0] ++ slip_escape [x00; x08; x02; x00; x00; x00; x00; x00]
                     ++ [x00; x00; xc0]) []) 0 in
  receive_response 8 st
  = (Raise (FatalError invalid_response_message [0x00]),
     ticks 1 (with_input st [x00; x00; xc0])).
Proof.
  intros st.
  apply (receive_response_bad_direction 8 0 8 2 0 [x00; x08; x02; x00; x00; x00; x00; x00]
           [x00; x00; xc0] st).
  - reflexivity.
  - discriminate.
  - lia.
  - reflexivity.
Defined.

(** After a well-formed header and body, anything but the delimiter 0xC0,
    or nothing before the timeout, makes [receive_response] raise the
    invalid-end [FatalError]. *)
Theorem receive_response_bad_end (fuel : nat) (r : response) (next : bytes) (st : t) :
  wf_response r -> enough_fuel fuel [r] ->
  input (_port st) = [xc0] ++ slip_escape (response_packet r) ++ next ->
  (forall c, hd_error next = Some c -> c <> xc0) ->
  receive_response fuel st
  = (Raise (FatalError "Invalid end of packet" []), ticks 1 (with_input st (tl next))).
Proof.
  intros Hwf [Hf8 Hfb] Hi Hnext. apply Forall_inv in Hfb.
  pose proof (pack_response_header r Hwf) as Hp.
  set (hdr := le_bytes 1 1 ++ le_bytes 1 (r_op r) ++ le_bytes 2 (len (r_body r))
                ++ le_bytes 4 (r_val r) ++ []) in Hp.
  assert (Hlen : List.length hdr = 8%nat)
    by now destruct (unpack_fields_pack _ _ _ [] Hp) as [-> _].
  assert (Hpk : response_packet r = hdr ++ r_body r).
  { unfold response_packet, hdr. now rewrite <- !app_assoc. }
  rewrite Hpk, slip_escape_app in Hi. cbn [app] in Hi. rewrite <- !app_assoc in Hi.
  unfold receive_response.
  rewrite (bind_Return _ _ _ tt (ticks 1 st)) by reflexivity.
  rewrite (bind_Return _ _ _ [xc0]
             (with_input (ticks 1 st) (slip_escape hdr ++ slip_escape (r_body r) ++ next)))
    by (apply port_read1_cons; exact Hi).
  change (bytes_eqb [xc0] [xc0]) with true. cbn [negb].
  rewrite (bind_Return _ _ _ hdr
             (with_input (ticks 1 st) (slip_escape (r_body r) ++ next))).
  2:{ apply (read_slip_escape_to hdr) with (rest := slip_escape (r_body r) ++ next);
        [lia | unfold len; now rewrite Hlen | reflexivity | reflexivity]. }
  rewrite (unpack_pack _ _ _ Hp). cbn [lift_struct]. rewrite bind_ret.
  change (1 =? 1) with true. cbn [negb].
  rewrite (bind_Return _ _ _ (r_body r) (with_input (ticks 1 st) next))
    by (apply (read_slip_escape_to (r_body r)) with (rest := next);
        [exact Hfb | reflexivity | reflexivity | reflexivity]).
  destruct next as [|c next].
  - rewrite (bind_Return _ _ _ _ _ (port_read1_nil (with_input (ticks 1 st) []) eq_refl)).
    reflexivity.
  - rewrite (bind_Return _ _ _ _ _
               (port_read1_cons (with_input (ticks 1 st) (c :: next)) c next eq_refl)).
    change (chr 192) with xc0. cbn [bytes_eqb].
    rewrite (byte_eqb_neq _ _ (Hnext c eq_refl)). reflexivity.
Qed.

Lemma receive_response_bad_end_witness :
  let r := mkResponse 0x0a 0 [x00; x00] in
  let st := mk (mkSerial (Some 5%Q)
                  ([xc0] ++ slip_escape (response_packet r) ++ [x55; xc0]) []) 0 in
  receive_response 8 st
  = (Raise (FatalError "Invalid end of packet" []),
     ticks 1 (with_input st (tl [x55; xc0]))).
Proof.
  intros r st. apply (receive_response_bad_end 8 r [x55; xc0] st).
  - subst r. unfold wf_response, len. simpl. lia.
  - subst r. split; [lia|]. repeat constructor.
  - reflexivity.
  - intros c [= <-]. discriminate.
Defined.

Lemma response_frames_app a b :
  response_frames (a ++ b) = response_frames a ++ response_frames b.
Proof. unfold response_frames. now rewrite map_app, concat_app. Qed.

(** The draining loop of [sync] takes one well-formed response per turn,
    whatever its opcode. *)
Lemma sync_drain_frames rs : forall fuel st rest,
  Forall wf_response rs -> enough_fuel fuel rs ->
  input (_port st) = response_frames rs ++ rest ->
  sync_drain fuel (List.length rs) st
  = (Return tt, ticks (List.length rs) (with_input st rest)).
Proof.
  induction rs as [|r rs IH]; intros fuel st rest Hwf Hfuel Hi.
  - cbn [List.length sync_drain]. unfold ret. rewrite ticks_0.
    simpl in Hi. now rewrite <- Hi, with_input_same.
  - inversion Hwf as [|? ? Hwf1 Hwf']; subst.
    destruct (enough_fuel_cons _ _ _ Hfuel) as [Hf1 Hf'].
    rewrite response_frames_cons in Hi.
    cbn [List.length sync_drain].
    rewrite (bind_Return _ _ _ _ _
               (command_without_op_frame fuel 0 r _ st Hwf1 Hf1 Hi)).
    rewrite (IH fuel (ticks 1 (with_input st (response_frames rs ++ rest))) rest
               Hwf' Hf' eq_refl).
    f_equal.
    change (with_input (ticks 1 (with_input st (response_frames rs ++ rest))) rest)
      with (ticks 1 (with_input st rest)).
    rewrite ticks_ticks. f_equal. lia.
Qed.

(** [sync] sends one request and consumes exactly eight responses: the
    answer to the sync request, then seven more of any opcode.  What
    follows them on the wire is left unread. *)
Theorem sync_takes_eight_responses
    (fuel : nat) (r : response) (rs : list response) (rest : bytes) (st : t) :
  wf_response r -> r_op r = ESP_SYNC ->
  Forall wf_response rs -> List.length rs = 7%nat ->
  enough_fuel fuel (r :: rs) ->
  input (_port st) = response_frame r ++ response_frames rs ++ rest ->
  sync fuel st
  = (Return tt,
     ticks 8 (with_input
                (after_request ESP_SYNC ([x07; x07; x12; x20] ++ List.repeat x55 32) 0 st)
                rest)).
Proof.
  intros Hwf Hop Hwfs Hn Hfuel Hi.
  destruct (enough_fuel_cons _ _ _ Hfuel) as [Hf1 Hf'].
  unfold sync.
  rewrite (bind_Return _ _ _ _ _
             (command_ok fuel ESP_SYNC ([x07; x07; x12; x20] ++ List.repeat x55 32) 0 r
                (response_frames rs ++ rest) st
                ltac:(unfold wf_request, ESP_SYNC, len; simpl; lia) Hwf Hf1 Hop Hi)).
  replace (sync_drain fuel 7) with (sync_drain fuel (List.length rs)) by now rewrite Hn.
  rewrite (sync_drain_frames rs fuel
             (ticks 1 (with_input
                         (after_request ESP_SYNC
                            ([x07; x07; x12; x20] ++ List.repeat x55 32) 0 st)
                         (response_frames rs ++ rest)))
             rest Hwfs Hf' eq_refl).
  f_equal. rewrite Hn. reflexivity.
Qed.

Lemma sync_takes_eight_responses_witness :
  let r := mkResponse 0x08 0 [x07; x07; x12; x20] in
  let rs := List.repeat r 7 in
  let st := mk (mkSerial (Some (3 # 10)%Q)
                  (response_frame r ++ response_frames rs ++ [xc0]) []) 0 in
  sync 8 st
  = (Return tt,
     ticks 8 (with_input
                (after_request ESP_SYNC ([x07; x07; x12; x20] ++ List.repeat x55 32) 0 st)
                [xc0])).
Proof.
  intros r rs st. apply (sync_takes_eight_responses 8 r rs [xc0] st).
  - subst r. unfold wf_response, len. simpl. lia.
  - reflexivity.
  - apply Forall_forall. intros x Hx. apply repeat_spec in Hx. subst x r.
    unfold wf_response, len. simpl. lia.
  - reflexivity.
  - split; [lia|]. apply Forall_forall. intros x Hx.
    destruct Hx as [<- | Hx]; [subst r; simpl; lia|].
    apply repeat_spec in Hx. subst x r. simpl. lia.
  - reflexivity.
Defined.

End EngineMore.

(** * Register access and the transfer operations *)

Section Transfers.

Import ESPROM.

Lemma pack_len fmt vals pkt :
  pack fmt vals = Some pkt -> len pkt = Z.of_nat (calcsize fmt).
Proof.
  intros Hp. unfold len. now destruct (unpack_fields_pack _ _ _ [] Hp) as [-> _].
Qed.

Lemma enough_fuel_ack fuel op r : (8 <= fuel)%nat -> ack op r -> enough_fuel fuel [r].
Proof.
  intros Hf (_ & _ & Hb). split; [exact Hf|]. repeat constructor. rewrite Hb. simpl. lia.
Qed.

(** A command whose response is there on the wire, inside a method. *)
Lemma command_bind_ok {A} (fuel : nat) (op : Z) (data : bytes) (chk : Z)
    (k : Z * bytes -> M t A) (r : response) (rest : bytes) (st : t) :
  wf_request op data chk ->
  wf_response r -> enough_fuel fuel [r] -> r_op r = op ->
  input (_port st) = response_frame r ++ rest ->
  (res <- command fuel (Some op) (Some data) chk ;; k res) st
  = k (r_val r, r_body r) (ticks 1 (with_input (after_request op data chk st) rest)).
Proof.
  intros Hreq Hwf Hfuel Hop Hi.
  now rewrite (bind_Return _ _ _ _ _ (command_ok fuel op data chk r rest st
                                        Hreq Hwf Hfuel Hop Hi)).
Qed.

Lemma served_by_command op data chk rest st :
  served_by 1 rest st (ticks 1 (with_input (after_request op data chk st) rest)).
Proof. unfold served_by, after_request. destruct (op =? 0); repeat split. Qed.

Lemma served_by_trans a b rest1 rest2 st st1 st2 :
  served_by a rest1 st st1 -> served_by b rest2 st1 st2 ->
  served_by (b + a) rest2 st st2.
Proof.
  intros (_ & Ht1 & Hc1) (Hi2 & Ht2 & Hc2). repeat split; [assumption|congruence|lia].
Qed.

(** [read_reg] returns the value field of the response when its body is
    the two zero bytes, and raises [FatalError] when it is anything else;
    either way one request was sent and one response consumed. *)
Theorem read_reg_result (fuel : nat) (addr : Z) (r : response) (rest : bytes) (st : t) :
  0 <= addr < 2 ^ 32 ->
  wf_response r -> r_op r = ESP_READ_REG -> enough_fuel fuel [r] ->
  input (_port st) = response_frame r ++ rest ->
  read_reg fuel addr st
  = (if bytes_eqb (r_body r) [x00; x00] then Return (r_val r)
     else Raise (FatalError "Failed to read target memory" []),
     ticks 1 (with_input (after_request ESP_READ_REG (le_bytes 4 addr ++ []) 0 st) rest)).
Proof.
  intros Haddr Hwf Hop Hfuel Hi. unfold read_reg.
  cbn [pack code_size].
  assert (in_range I addr = true) as -> by (apply in_range_spec; simpl; lia).
  cbn [lift_struct]. rewrite bind_ret.
  rewrite (command_bind_ok fuel ESP_READ_REG (le_bytes 4 addr ++ []) 0 _ r rest st)
    by (assumption || (unfold wf_request, ESP_READ_REG, len; simpl; lia)).
  cbn [snd fst]. now destruct (bytes_eqb (r_body r) [x00; x00]).
Qed.

Lemma read_reg_result_witness :
  let r := mkResponse 0x0a 0x1640ef [x00; x00] in
  let st := mk (mkSerial (Some 5%Q) (response_frame r ++ []) []) 0 in
  read_reg 8 0x60000240 st
  = (if bytes_eqb (r_body r) [x00; x00] then Return (r_val r)
     else Raise (FatalError "Failed to read target memory" []),
     ticks 1 (with_input
                (after_request ESP_READ_REG (le_bytes 4 0x60000240 ++ []) 0 st) [])).
Proof.
  intros r st. apply (read_reg_result 8 0x60000240 r [] st).
  - lia.
  - subst r. unfold wf_response, len. simpl. lia.
  - reflexivity.
  - subst r. split; [lia|]. repeat constructor.
  - reflexivity.
Defined.

(** When the device refuses a flash block, [flash_block] raises
    [FatalError] with the sequence number of the block and the status
    bytes of the response as arguments; the guard around [main] turns it
    into exit status 2. *)
Theorem flash_block_failure_reports_seq
    (fuel : nat) (data : bytes) (seq : Z) (st st1 : t) (pkt : bytes) (res : Z * bytes) :
  pack [I; I; I; I] [len data; seq; 0; 0] = Some pkt ->
  command fuel (Some ESP_FLASH_DATA) (Some (pkt ++ data))
    (checksum data ESP_CHECKSUM_MAGIC) st = (Return res, st1) ->
  snd res <> [x00; x00] ->
  flash_block fuel data seq st
  = (Raise (FatalError "Failed to write to target Flash after seq %d (got result %%s)"
                       (seq :: map ord (snd res))), st1)
  /\ exit_status (fst (flash_block fuel data seq st)) = Some 2.
Proof.
  intros Hp Hc Hres.
  assert (Hfb : flash_block fuel data seq st
                = (Raise (FatalError
                            "Failed to write to target Flash after seq %d (got result %%s)"
                            (seq :: map ord (snd res))), st1)).
  { unfold flash_block. rewrite Hp. cbn [lift_struct]. rewrite bind_ret.
    rewrite (bind_Return _ _ _ _ _ Hc). cbv zeta.
    destruct (bytes_eqb (snd res) [x00; x00]) eqn:E; [|reflexivity].
    now apply bytes_eqb_eq in E. }
  split; [exact Hfb | now rewrite Hfb].
Qed.

Lemma flash_block_failure_reports_seq_witness :
  let st := mk (mkSerial (Some 5%Q)
                  (response_frame (mkResponse 0x03 0 [x01; x07])) []) 0 in
  exists st1,
    flash_block 8 [xaa; xbb] 3 st
    = (Raise (FatalError "Failed to write to target Flash after seq %d (got result %%s)"
                         (3 :: map ord (snd (0, [x01; x07])))), st1)
    /\ exit_status (fst (flash_block 8 [xaa; xbb] 3 st)) = Some 2.
Proof.
  intros st. eexists.
  refine (flash_block_failure_reports_seq 8 [xaa; xbb] 3 st _ _ (0, [x01; x07]) _ _ _).
  - vm_compute. reflexivity.
  - vm_compute. reflexivity.
  - cbn. discriminate.
Defined.

(** [flash_begin] when the device acknowledges. *)
Lemma flash_begin_ok (fuel : nat) (_size offset : Z) (pkt : bytes)
    (r : response) (rest : bytes) (st : t) :
  pack [I; I; I; I] [flash_begin_size _size offset; 0x200; ESP_FLASH_BLOCK; offset]
    = Some pkt ->
  ack ESP_FLASH_BEGIN r -> (8 <= fuel)%nat ->
  input (_port st) = response_frame r ++ rest ->
  flash_begin fuel _size offset st
  = (Return tt,
     with_timeout
       (ticks 1 (with_input
                   (after_request ESP_FLASH_BEGIN pkt 0 (with_timeout st (Some 10%Q))) rest))
       (timeout (_port st))).
Proof.
  intros Hp Hack Hf Hi. pose proof (enough_fuel_ack fuel _ r Hf Hack) as Hfuel.
  destruct Hack as (Hwf & Hop & Hbody).
  rewrite flash_begin_unfold, Hp. cbn [lift_struct]. rewrite bind_ret.
  rewrite (command_bind_ok fuel ESP_FLASH_BEGIN pkt 0 _ r rest (with_timeout st (Some 10%Q)))
    by (assumption
        || (unfold wf_request, ESP_FLASH_BEGIN; rewrite (pack_len _ _ _ Hp); simpl; lia)).
  cbn [snd]. rewrite Hbody. reflexivity.
Qed.

(** What [flash_begin] puts on the wire: one FLASH_BEGIN request whose
    body is the erase size it computed, the block count 0x200, the block
    size 0x400 and the offset, each as a little-endian u32.  When the
    device acknowledges, it returns with that one response consumed and
    the read timeout as it was on entry. *)
Theorem flash_begin_sends_erase_size
    (fuel : nat) (_size offset : Z) (r : response) (rest : bytes) (st : t) :
  0 <= flash_begin_size _size offset < 2 ^ 32 -> 0 <= offset < 2 ^ 32 ->
  ack ESP_FLASH_BEGIN r -> (8 <= fuel)%nat ->
  input (_port st) = response_frame r ++ rest ->
  exists st' : t,
    flash_begin fuel _size offset st = (Return tt, st')
    /\ served_by 1 rest st st'
    /\ output (_port st')
       = output (_port st)
           ++ [xc0]
           ++ slip_escape
                (request_packet ESP_FLASH_BEGIN
                   (le_bytes 4 (flash_begin_size _size offset) ++ le_bytes 4 0x200
                      ++ le_bytes 4 0x400 ++ le_bytes 4 offset ++ []) 0)
           ++ [xc0].
Proof.
  intros Hsize Hoff Hack Hf Hi.
  assert (Hp : pack [I; I; I; I]
                 [flash_begin_size _size offset; 0x200; ESP_FLASH_BLOCK; offset]
               = Some (le_bytes 4 (flash_begin_size _size offset) ++ le_bytes 4 0x200
                         ++ le_bytes 4 0x400 ++ le_bytes 4 offset ++ [])).
  { cbn [pack code_size].
    assert (in_range I (flash_begin_size _size offset) = true) as ->
      by (apply in_range_spec; simpl; lia).
    assert (in_range I offset = true) as -> by (apply in_range_spec; simpl; lia).
    reflexivity. }
  eexists. split; [exact (flash_begin_ok fuel _size offset _ r rest st Hp Hack Hf Hi)|].
  split; repeat split.
Qed.

Lemma flash_begin_sends_erase_size_witness :
  let r := mkResponse 0x02 0 [x00; x00] in
  let st := mk (mkSerial (Some 5%Q) (response_frame r ++ [x55]) []) 0 in
  exists st' : t,
    flash_begin 8 100000 0 st = (Return tt, st')
    /\ served_by 1 [x55] st st'
    /\ output (_port st')
       = output (_port st)
           ++ [xc0]
           ++ slip_escape
                (request_packet ESP_FLASH_BEGIN
                   (le_bytes 4 (flash_begin_size 100000 0) ++ le_bytes 4 0x200
                      ++ le_bytes 4 0x400 ++ le_bytes 4 0 ++ []) 0)
           ++ [xc0].
Proof.
  intros r st. apply (flash_begin_sends_erase_size 8 100000 0 r [x55] st).
  - vm_compute. split; congruence.
  - lia.
  - subst r. unfold ack, wf_response, len. simpl. repeat split; lia.
  - lia.
  - reflexivity.
Defined.

Lemma mem_begin_ok (fuel : nat) (size blocks blocksize offset : Z) (pkt : bytes)
    (r : response) (rest : bytes) (st : t) :
  pack [I; I; I; I] [size; blocks; blocksize; offset] = Some pkt ->
  ack ESP_MEM_BEGIN r -> (8 <= fuel)%nat ->
  input (_port st) = response_frame r ++ rest ->
  mem_begin fuel size blocks blocksize offset st
  = (Return tt, ticks 1 (with_input (after_request ESP_MEM_BEGIN pkt 0 st) rest)).
Proof.
  intros Hp Hack Hf Hi. pose proof (enough_fuel_ack fuel _ r Hf Hack) as Hfuel.
  destruct Hack as (Hwf & Hop & Hbody).
  unfold mem_begin. rewrite Hp. cbn [lift_struct]. rewrite bind_ret.
  rewrite (command_bind_ok fuel ESP_MEM_BEGIN pkt 0 _ r rest st)
    by (assumption
        || (unfold wf_request, ESP_MEM_BEGIN; rewrite (pack_len _ _ _ Hp); simpl; lia)).
  cbn [snd]. rewrite Hbody. reflexivity.
Qed.

Lemma mem_block_ok (fuel : nat) (data : bytes) (seq : Z) (pkt : bytes)
    (r : response) (rest : bytes) (st : t) :
  pack [I; I; I; I] [len data; seq; 0; 0] = Some pkt ->
  len data < 65536 - 16 ->
  ack ESP_MEM_DATA r -> (8 <= fuel)%nat ->
  input (_port st) = response_frame r ++ rest ->
  mem_block fuel data seq st
  = (Return tt,
     ticks 1 (with_input
                (after_request ESP_MEM_DATA (pkt ++ data)
                   (checksum data ESP_CHECKSUM_MAGIC) st) rest)).
Proof.
  intros Hp Hlen Hack Hf Hi. pose proof (enough_fuel_ack fuel _ r Hf Hack) as Hfuel.
  destruct Hack as (Hwf & Hop & Hbody).
  pose proof (checksum_range data ESP_CHECKSUM_MAGIC
                ltac:(unfold ESP_CHECKSUM_MAGIC; lia)) as Hchk.
  unfold mem_block. rewrite Hp. cbn [lift_struct]. rewrite bind_ret.
  rewrite (command_bind_ok fuel ESP_MEM_DATA (pkt ++ data) _ _ r rest st)
    by (assumption
        || (unfold wf_request, ESP_MEM_DATA; rewrite len_app, (pack_len _ _ _ Hp);
            cbn [calcsize fold_right code_size Nat.add Z.of_nat Pos.of_succ_nat Pos.succ];
            lia)).
  cbn [snd]. rewrite Hbody. reflexivity.
Qed.

Lemma mem_finish_ok (fuel : nat) (entrypoint : Z) (pkt : bytes)
    (r : response) (rest : bytes) (st : t) :
  pack [I; I] [if entrypoint =? 0 then 1 else 0; entrypoint] = Some pkt ->
  ack ESP_MEM_END r -> (8 <= fuel)%nat ->
  input (_port st) = response_frame r ++ rest ->
  mem_finish fuel entrypoint st
  = (Return tt, ticks 1 (with_input (after_request ESP_MEM_END pkt 0 st) rest)).
Proof.
  intros Hp Hack Hf Hi. pose proof (enough_fuel_ack fuel _ r Hf Hack) as Hfuel.
  destruct Hack as (Hwf & Hop & Hbody).
  unfold mem_finish. rewrite Hp. cbn [lift_struct]. rewrite bind_ret.
  rewrite (command_bind_ok fuel ESP_MEM_END pkt 0 _ r rest st)
    by (assumption
        || (unfold wf_request, ESP_MEM_END; rewrite (pack_len _ _ _ Hp); simpl; lia)).
  cbn [snd]. rewrite Hbody. reflexivity.
Qed.

(** The loop of [flash_read] takes one delimited frame per block and puts
    the decoded blocks end to end. *)
Lemma flash_read_loop_blocks (fuel : nat) (size : Z) (blocks : list bytes) :
  forall (data rest : bytes) (st : t),
  Forall (fun b => len b = size /\ (List.length b <= fuel)%nat) blocks ->
  input (_port st) = List.concat (map block_frame blocks) ++ rest ->
  flash_read_loop fuel size (List.length blocks) data st
  = (Return (data ++ List.concat blocks), with_input st rest).
Proof.
  induction blocks as [|b blocks IH]; intros data rest st Hall Hi.
  - cbn [List.length flash_read_loop List.concat]. unfold ret. rewrite app_nil_r.
    simpl in Hi. now rewrite <- Hi, with_input_same.
  - inversion Hall as [|? ? [Hsz Hfb] Hall']; subst.
    cbn [map List.concat] in Hi. unfold block_frame at 1 in Hi.
    cbn [app] in Hi. rewrite <- !app_assoc in Hi.
    set (tail := List.concat (map block_frame blocks) ++ rest) in *.
    cbn [List.length flash_read_loop].
    rewrite (bind_Return _ _ _ [xc0] (with_input st (slip_escape b ++ [xc0] ++ tail)))
      by (apply port_read1_cons; exact Hi).
    change (bytes_eqb [xc0] [xc0]) with true. cbn [negb].
    rewrite (bind_Return _ _ _ b (with_input st ([xc0] ++ tail)))
      by (apply (read_slip_escape_to b) with (rest := [xc0] ++ tail);
          [exact Hfb | reflexivity | reflexivity | reflexivity]).
    rewrite (bind_Return _ _ _ [xc0] (with_input st tail))
      by exact (port_read1_cons (with_input st ([xc0] ++ tail)) xc0 tail eq_refl).
    change (chr 192) with xc0. change (bytes_eqb [xc0] [xc0]) with true. cbn [negb].
    rewrite (IH (data ++ b) rest (with_input st tail) Hall' eq_refl).
    cbn [List.concat]. now rewrite <- app_assoc.
Qed.

(** [flash_read] end to end.  When the device acknowledges the flash-begin
    request and the three requests that download and start the stub, and
    then sends as many delimited frames as blocks were asked for, each of
    [size] decoded bytes, [flash_read] returns the blocks put end to end;
    four responses were consumed through [receive_response], the frames of
    the blocks were read directly, what follows them is unread and the
    read timeout is as it was. *)
Theorem flash_read_returns_blocks
    (fuel : nat) (offset size : Z) (blocks : list bytes)
    (r1 r2 r3 r4 : response) (rest : bytes) (st : t) :
  0 <= offset < 2 ^ 32 -> 0 <= size < 2 ^ 32 -> len blocks < 2 ^ 32 ->
  ack ESP_FLASH_BEGIN r1 -> ack ESP_MEM_BEGIN r2 ->
  ack ESP_MEM_DATA r3 -> ack ESP_MEM_END r4 ->
  (8 <= fuel)%nat ->
  Forall (fun b => len b = size /\ (List.length b <= fuel)%nat) blocks ->
  input (_port st)
  = response_frame r1 ++ response_frame r2 ++ response_frame r3 ++ response_frame r4
      ++ List.concat (map block_frame blocks) ++ rest ->
  exists st' : t,
    flash_read fuel offset size (len blocks) st = (Return (List.concat blocks), st')
    /\ served_by 4 rest st st'.
Proof.
  intros Hoff Hsize Hcount Ha1 Ha2 Ha3 Ha4 Hf Hblocks Hi.
  pose proof (len_nonneg blocks) as Hnn.
  assert (Hp : pack [I; I; I] [offset; size; len blocks]
               = Some (le_bytes 4 offset ++ le_bytes 4 size ++ le_bytes 4 (len blocks) ++ [])).
  { cbn [pack code_size].
    assert (in_range I offset = true) as -> by (apply in_range_spec; simpl; lia).
    assert (in_range I size = true) as -> by (apply in_range_spec; simpl; lia).
    assert (in_range I (len blocks) = true) as -> by (apply in_range_spec; simpl; lia).
    reflexivity. }
  set (hdr := le_bytes 4 offset ++ le_bytes 4 size ++ le_bytes 4 (len blocks) ++ []) in *.
  set (stub := hdr ++ SFLASH_STUB).
  assert (Hstub : len stub = 72).
  { unfold stub. rewrite len_app, (pack_len _ _ _ Hp). reflexivity. }
  set (w2 := response_frame r2 ++ response_frame r3 ++ response_frame r4
               ++ List.concat (map block_frame blocks) ++ rest) in *.
  set (w3 := response_frame r3 ++ response_frame r4
               ++ List.concat (map block_frame blocks) ++ rest) in *.
  set (w4 := response_frame r4 ++ List.concat (map block_frame blocks) ++ rest) in *.
  set (w5 := List.concat (map block_frame blocks) ++ rest) in *.
  unfold flash_read. rewrite Hp. cbn [lift_struct]. rewrite bind_ret. cbv zeta.
  fold stub. rewrite Hstub.
  assert (Hp1 : exists pkt, pack [I; I; I; I]
                              [flash_begin_size 0 0; 0x200; ESP_FLASH_BLOCK; 0] = Some pkt)
    by (eexists; reflexivity).
  destruct Hp1 as [pkt1 Hp1].
  rewrite (bind_Return _ _ _ _ _ (flash_begin_ok fuel 0 0 pkt1 r1 w2 st Hp1 Ha1 Hf Hi)).
  set (st1 := with_timeout _ _).
  assert (Hp2 : exists pkt, pack [I; I; I; I] [72; 1; 72; 0x40100000] = Some pkt)
    by (eexists; reflexivity).
  destruct Hp2 as [pkt2 Hp2].
  rewrite (bind_Return _ _ _ _ _
             (mem_begin_ok fuel 72 1 72 0x40100000 pkt2 r2 w3 st1 Hp2 Ha2 Hf eq_refl)).
  set (st2 := ticks 1 _).
  assert (Hp3 : exists pkt, pack [I; I; I; I] [len stub; 0; 0; 0] = Some pkt)
    by (rewrite Hstub; eexists; reflexivity).
  destruct Hp3 as [pkt3 Hp3].
  rewrite (bind_Return _ _ _ _ _
             (mem_block_ok fuel stub 0 pkt3 r3 w4 st2 Hp3 ltac:(lia) Ha3 Hf eq_refl)).
  set (st3 := ticks 1 _).
  assert (Hp4 : exists pkt,
             pack [I; I] [if 0x4010001c =? 0 then 1 else 0; 0x4010001c] = Some pkt)
    by (eexists; reflexivity).
  destruct Hp4 as [pkt4 Hp4].
  rewrite (bind_Return _ _ _ _ _
             (mem_finish_ok fuel 0x4010001c pkt4 r4 w5 st3 Hp4 Ha4 Hf eq_refl)).
  set (st4 := ticks 1 _).
  unfold len at 1. rewrite Nat2Z.id.
  rewrite (flash_read_loop_blocks fuel size blocks [] rest st4 Hblocks eq_refl).
  eexists. split; [reflexivity|].
  repeat split.
Qed.

Lemma flash_read_returns_blocks_witness :
  let r1 := mkResponse 0x02 0 [x00; x00] in
  let r2 := mkResponse 0x05 0 [x00; x00] in
  let r3 := mkResponse 0x07 0 [x00; x00] in
  let r4 := mkResponse 0x06 0 [x00; x00] in
  let blocks := [[xc0; x01; xdb; x02]; [x03; x04; x05; x06]] in
  let st := mk (mkSerial (Some 5%Q)
                  (response_frame r1 ++ response_frame r2 ++ response_frame r3
                     ++ response_frame r4
                     ++ List.concat (map block_frame blocks) ++ [x55]) []) 0 in
  exists st' : t,
    flash_read 8 0x1000 4 (len blocks) st = (Return (List.concat blocks), st')
    /\ served_by 4 [x55] st st'.
Proof.
  intros r1 r2 r3 r4 blocks st.
  apply (flash_read_returns_blocks 8 0x1000 4 blocks r1 r2 r3 r4 [x55] st).
  - lia.
  - lia.
  - unfold len. simpl. lia.
  - subst r1. unfold ack, wf_response, len. simpl. repeat split; lia.
  - subst r2. unfold ack, wf_response, len. simpl. repeat split; lia.
  - subst r3. unfold ack, wf_response, len. simpl. repeat split; lia.
  - subst r4. unfold ack, wf_response, len. simpl. repeat split; lia.
  - lia.
  - subst blocks. repeat constructor; unfold len; simpl; lia.
  - reflexivity.
Defined.

Lemma write_reg_ok (fuel : nat) (addr value mask delay_us : Z) (pkt : bytes)
    (r : response) (rest : bytes) (st : t) :
  pack [I; I; I; I] [addr; value; mask; delay_us] = Some pkt ->
  ack ESP_WRITE_REG r -> (8 <= fuel)%nat ->
  input (_port st) = response_frame r ++ rest ->
  write_reg fuel addr value mask delay_us st
  = (Return tt, ticks 1 (with_input (after_request ESP_WRITE_REG pkt 0 st) rest)).
Proof.
  intros Hp Hack Hf Hi. pose proof (enough_fuel_ack fuel _ r Hf Hack) as Hfuel.
  destruct Hack as (Hwf & Hop & Hbody).
  unfold write_reg. rewrite Hp. cbn [lift_struct]. rewrite bind_ret.
  rewrite (command_bind_ok fuel ESP_WRITE_REG pkt 0 _ r rest st)
    by (assumption
        || (unfold wf_request, ESP_WRITE_REG; rewrite (pack_len _ _ _ Hp); simpl; lia)).
  cbn [snd]. rewrite Hbody. reflexivity.
Qed.

Lemma read_reg_ok (fuel : nat) (addr : Z) (pkt : bytes)
    (r : response) (rest : bytes) (st : t) :
  pack [I] [addr] = Some pkt ->
  ack ESP_READ_REG r -> (8 <= fuel)%nat ->
  input (_port st) = response_frame r ++ rest ->
  read_reg fuel addr st
  = (Return (r_val r), ticks 1 (with_input (after_request ESP_READ_REG pkt 0 st) rest)).
Proof.
  intros Hp Hack Hf Hi. pose proof (enough_fuel_ack fuel _ r Hf Hack) as Hfuel.
  destruct Hack as (Hwf & Hop & Hbody).
  unfold read_reg. rewrite Hp. cbn [lift_struct]. rewrite bind_ret.
  rewrite (command_bind_ok fuel ESP_READ_REG pkt 0 _ r rest st)
    by (assumption
        || (unfold wf_request, ESP_READ_REG; rewrite (pack_len _ _ _ Hp); simpl; lia)).
  cbn [snd fst]. rewrite Hbody. reflexivity.
Qed.

Lemma flash_finish_ok (fuel : nat) (reboot : bool) (pkt : bytes)
    (r : response) (rest : bytes) (st : t) :
  pack [I] [if negb reboot then 1 else 0] = Some pkt ->
  ack ESP_FLASH_END r -> (8 <= fuel)%nat ->
  input (_port st) = response_frame r ++ rest ->
  flash_finish fuel reboot st
  = (Return tt, ticks 1 (with_input (after_request ESP_FLASH_END pkt 0 st) rest)).
Proof.
  intros Hp Hack Hf Hi. pose proof (enough_fuel_ack fuel _ r Hf Hack) as Hfuel.
  destruct Hack as (Hwf & Hop & Hbody).
  unfold flash_finish. rewrite Hp. cbn [lift_struct]. rewrite bind_ret.
  rewrite (command_bind_ok fuel ESP_FLASH_END pkt 0 _ r rest st)
    by (assumption
        || (unfold wf_request, ESP_FLASH_END; rewrite (pack_len _ _ _ Hp); simpl; lia)).
  cbn [snd]. rewrite Hbody. reflexivity.
Qed.

(** [flash_id] end to end.  When the device acknowledges the flash-begin
    request, the two register writes, the register read and the flash-end
    request, [flash_id] returns the value field of the response to the
    register read; five responses were consumed and the read timeout is as
    it was. *)
Theorem flash_id_returns_register
    (fuel : nat) (r1 r2 r3 r4 r5 : response) (rest : bytes) (st : t) :
  ack ESP_FLASH_BEGIN r1 -> ack ESP_WRITE_REG r2 -> ack ESP_WRITE_REG r3 ->
  ack ESP_READ_REG r4 -> ack ESP_FLASH_END r5 ->
  (8 <= fuel)%nat ->
  input (_port st)
  = response_frame r1 ++ response_frame r2 ++ response_frame r3 ++ response_frame r4
      ++ response_frame r5 ++ rest ->
  exists st' : t,
    flash_id fuel st = (Return (r_val r4), st') /\ served_by 5 rest st st'.
Proof.
  intros Ha1 Ha2 Ha3 Ha4 Ha5 Hf Hi.
  set (w2 := response_frame r2 ++ response_frame r3 ++ response_frame r4
               ++ response_frame r5 ++ rest) in *.
  set (w3 := response_frame r3 ++ response_frame r4 ++ response_frame r5 ++ rest) in *.
  set (w4 := response_frame r4 ++ response_frame r5 ++ rest) in *.
  set (w5 := response_frame r5 ++ rest) in *.
  unfold flash_id.
  assert (Hp1 : exists pkt, pack [I; I; I; I]
                              [flash_begin_size 0 0; 0x200; ESP_FLASH_BLOCK; 0] = Some pkt)
    by (eexists; reflexivity).
  destruct Hp1 as [pkt1 Hp1].
  rewrite (bind_Return _ _ _ _ _ (flash_begin_ok fuel 0 0 pkt1 r1 w2 st Hp1 Ha1 Hf Hi)).
  set (st1 := with_timeout _ _).
  assert (Hp2 : exists pkt, pack [I; I; I; I] [0x60000240; 0x0; 0xffffffff; 0] = Some pkt)
    by (eexists; reflexivity).
  destruct Hp2 as [pkt2 Hp2].
  rewrite (bind_Return _ _ _ _ _
             (write_reg_ok fuel _ _ _ _ pkt2 r2 w3 st1 Hp2 Ha2 Hf eq_refl)).
  set (st2 := ticks 1 _).
  assert (Hp3 : exists pkt,
             pack [I; I; I; I] [0x60000200; 0x10000000; 0xffffffff; 0] = Some pkt)
    by (eexists; reflexivity).
  destruct Hp3 as [pkt3 Hp3].
  rewrite (bind_Return _ _ _ _ _
             (write_reg_ok fuel _ _ _ _ pkt3 r3 w4 st2 Hp3 Ha3 Hf eq_refl)).
  set (st3 := ticks 1 _).
  assert (Hp4 : exists pkt, pack [I] [0x60000240] = Some pkt) by (eexists; reflexivity).
  destruct Hp4 as [pkt4 Hp4].
  rewrite (bind_Return _ _ _ _ _
             (read_reg_ok fuel _ pkt4 r4 w5 st3 Hp4 Ha4 Hf eq_refl)).
  set (st4 := ticks 1 _).
  assert (Hp5 : exists pkt, pack [I] [if negb false then 1 else 0] = Some pkt)
    by (eexists; reflexivity).
  destruct Hp5 as [pkt5 Hp5].
  rewrite (bind_Return _ _ _ _ _
             (flash_finish_ok fuel false pkt5 r5 rest st4 Hp5 Ha5 Hf eq_refl)).
  eexists. split; [reflexivity|]. repeat split.
Qed.

Lemma flash_id_returns_register_witness :
  let r1 := mkResponse 0x02 0 [x00; x00] in
  let r2 := mkResponse 0x09 0 [x00; x00] in
  let r4 := mkResponse 0x0a 0x1640ef [x00; x00] in
  let r5 := mkResponse 0x04 0 [x00; x00] in
  let st := mk (mkSerial (Some 5%Q)
                  (response_frame r1 ++ response_frame r2 ++ response_frame r2
                     ++ response_frame r4 ++ response_frame r5 ++ []) []) 0 in
  exists st' : t,
    flash_id 8 st = (Return (r_val r4), st') /\ served_by 5 [] st st'.
Proof.
  intros r1 r2 r4 r5 st.
  apply (flash_id_returns_register 8 r1 r2 r2 r4 r5 [] st).
  - subst r1. unfold ack, wf_response, len. simpl. repeat split; lia.
  - subst r2. unfold ack, wf_response, len. simpl. repeat split; lia.
  - subst r2. unfold ack, wf_response, len. simpl. repeat split; lia.
  - subst r4. unfold ack, wf_response, len. simpl. repeat split; lia.
  - subst r5. unfold ack, wf_response, len. simpl. repeat split; lia.
  - lia.
  - reflexivity.
Defined.

End Transfers.

(** * The [write_flash] operation *)

Section WriteFlash.

Import ESPROM.

(** Every block the loop of [write_flash] sends has exactly 0x400 bytes,
    also the patched first block of a short image. *)
Lemma write_flash_block_len (flash_info : bytes) (address seq : Z) (image : bytes) :
  0 < len image -> len flash_info = 2 ->
  len (write_flash_block flash_info address seq image) = 0x400.
Proof.
  intros Himg Hfi. unfold write_flash_block, ESP_FLASH_BLOCK.
  set (block0 := firstn (Z.to_nat 1024) image).
  assert (H0 : (1 <= List.length block0 <= 1024)%nat).
  { unfold block0. rewrite length_firstn. unfold len in Himg. lia. }
  set (block := if (address =? 0) && (seq =? 0) && bytes_eqb (firstn 1 block0) [xe9]
                then firstn 2 block0 ++ flash_info ++ skipn 4 block0 else block0).
  assert (H1 : (List.length block <= 1024)%nat).
  { unfold block. destruct ((address =? 0) && (seq =? 0) && bytes_eqb (firstn 1 block0) [xe9]);
      [|lia].
    rewrite !length_app, length_firstn, length_skipn. unfold len in Hfi. lia. }
  unfold len. rewrite length_app, repeat_length. unfold len. lia.
Qed.

Lemma flash_block_ok (fuel : nat) (data : bytes) (seq : Z) (pkt : bytes)
    (r : response) (rest : bytes) (st : t) :
  pack [I; I; I; I] [len data; seq; 0; 0] = Some pkt ->
  len data < 65536 - 16 ->
  ack ESP_FLASH_DATA r -> (8 <= fuel)%nat ->
  input (_port st) = response_frame r ++ rest ->
  flash_block fuel data seq st
  = (Return tt,
     ticks 1 (with_input
                (after_request ESP_FLASH_DATA (pkt ++ data)
                   (checksum data ESP_CHECKSUM_MAGIC) st) rest)).
Proof.
  intros Hp Hlen Hack Hf Hi. pose proof (enough_fuel_ack fuel _ r Hf Hack) as Hfuel.
  destruct Hack as (Hwf & Hop & Hbody).
  pose proof (checksum_range data ESP_CHECKSUM_MAGIC
                ltac:(unfold ESP_CHECKSUM_MAGIC; lia)) as Hchk.
  unfold flash_block. rewrite Hp. cbn [lift_struct]. rewrite bind_ret.
  rewrite (command_bind_ok fuel ESP_FLASH_DATA (pkt ++ data) _ _ r rest st)
    by (assumption
        || (unfold wf_request, ESP_FLASH_DATA; rewrite len_app, (pack_len _ _ _ Hp);
            cbn [calcsize fold_right code_size Nat.add Z.of_nat Pos.of_succ_nat Pos.succ];
            lia)).
  cbn [snd]. rewrite Hbody. reflexivity.
Qed.

Lemma served_by_refl rest st : input (_port st) = rest -> served_by 0 rest st st.
Proof. intros Hi. now repeat split. Qed.

(** The loop of [write_flash], on a device that acknowledges every block:
    it sends the blocks of [flash_blocks] in order, numbered from [seq],
    and counts 0x400 bytes written per block. *)
Lemma write_flash_loop_ok (fuel : nat) (flash_info : bytes) (address : Z) :
  forall (turns : nat) (image : bytes) (seq written : Z)
         (rs : list response) (rest : bytes) (st : t),
  len flash_info = 2 -> (8 <= fuel)%nat ->
  0 <= seq -> seq + Z.of_nat turns < 2 ^ 32 ->
  len image <= Z.of_nat turns * 0x400 ->
  Forall (ack ESP_FLASH_DATA) rs ->
  List.length rs = List.length (flash_blocks turns flash_info address seq image) ->
  input (_port st) = response_frames rs ++ rest ->
  exists st' : t,
    write_flash_loop fuel turns flash_info address image seq written st
    = (Return (written + 0x400 * len (flash_blocks turns flash_info address seq image)),
       st')
    /\ served_by (List.length rs) rest st st'
    /\ output (_port st')
       = output (_port st)
           ++ flash_data_frames seq (flash_blocks turns flash_info address seq image).
Proof.
  induction turns as [|turns IH];
    intros image seq written rs rest st Hfi Hf Hseq Hmax Hturns Hacks Hn Hi.
  - cbn [flash_blocks List.length] in *. destruct rs; [|discriminate].
    exists st. cbn [write_flash_loop].
    assert ((len image >? 0) = false) as ->
      by (rewrite Z.gtb_ltb; apply Z.ltb_ge; lia).
    unfold ret. rewrite Z.add_0_r, app_nil_r.
    repeat split; try reflexivity. exact Hi.
  - cbn [flash_blocks write_flash_loop] in *.
    destruct (len image >? 0) eqn:Epos.
    + rewrite Z.gtb_ltb in Epos. apply Z.ltb_lt in Epos.
      set (block := write_flash_block flash_info address seq image) in *.
      pose proof (write_flash_block_len flash_info address seq image Epos Hfi) as Hbl.
      fold block in Hbl.
      destruct rs as [|r rs]; [discriminate|].
      inversion Hacks as [|? ? Hack Hacks']; subst.
      rewrite response_frames_cons in Hi.
      assert (Hp : pack [I; I; I; I] [len block; seq; 0; 0]
                   = Some (le_bytes 4 (len block) ++ le_bytes 4 seq ++ le_bytes 4 0
                             ++ le_bytes 4 0 ++ [])).
      { cbn [pack code_size].
        assert (in_range I (len block) = true) as ->
          by (apply in_range_spec; simpl; lia).
        assert (in_range I seq = true) as -> by (apply in_range_spec; simpl; lia).
        reflexivity. }
      rewrite (bind_Return _ _ _ _ _
                 (flash_block_ok fuel block seq _ r (response_frames rs ++ rest) st
                    Hp ltac:(lia) Hack Hf Hi)).
      set (st1 := ticks 1 _).
      destruct (IH (skipn (Z.to_nat ESP_FLASH_BLOCK) image) (seq + 1) (written + len block)
                  rs rest st1 Hfi Hf ltac:(lia) ltac:(lia)) as (st' & Hrun & Hserved & Hout).
      * unfold len in *. rewrite length_skipn. unfold ESP_FLASH_BLOCK. lia.
      * exact Hacks'.
      * cbn [List.length] in Hn. lia.
      * reflexivity.
      * exists st'. split; [|split].
        -- rewrite Hrun. f_equal. f_equal. unfold len at 3. cbn [List.length].
           unfold len at 2. lia.
        -- change (S (List.length rs)) with (List.length rs + 1)%nat || idtac.
           replace (List.length (r :: rs)) with (List.length rs + 1)%nat
             by (cbn [List.length]; lia).
           eapply served_by_trans; [|exact Hserved].
           apply served_by_command.
        -- rewrite Hout. cbn [flash_data_frames]. rewrite app_assoc. f_equal.
    + cbn [List.length] in Hn. destruct rs; [|discriminate].
      exists st. unfold ret. rewrite Z.add_0_r, app_nil_r.
      repeat split; try reflexivity. exact Hi.
Qed.

Lemma div_roundup_0x400_step (l : Z) :
  0x400 <= l -> div_roundup (l - 0x400) 0x400 = div_roundup l 0x400 - 1.
Proof. intros Hl. unfold div_roundup. Z.div_mod_to_equations. lia. Qed.

Lemma div_roundup_0x400_small (l : Z) : 0 < l <= 0x400 -> div_roundup l 0x400 = 1.
Proof. intros Hl. unfold div_roundup. Z.div_mod_to_equations. lia. Qed.

Lemma div_roundup_0x400_zero : div_roundup 0 0x400 = 0.
Proof. reflexivity. Qed.

(** With enough turns the loop goes through [div_roundup(len(image), 0x400)]
    blocks, each of 0x400 bytes. *)
Lemma flash_blocks_count (flash_info : bytes) (address : Z) :
  forall (turns : nat) (seq : Z) (image : bytes),
  len flash_info = 2 ->
  len image <= Z.of_nat turns * 0x400 ->
  len (flash_blocks turns flash_info address seq image) = div_roundup (len image) 0x400
  /\ Forall (fun b => len b = 0x400) (flash_blocks turns flash_info address seq image).
Proof.
  induction turns as [|turns IH]; intros seq image Hfi Hturns.
  - pose proof (len_nonneg image). assert (len image = 0) as Hz by lia.
    cbn [flash_blocks]. rewrite Hz. split; [reflexivity | constructor].
  - cbn [flash_blocks]. destruct (len image >? 0) eqn:Epos.
    + rewrite Z.gtb_ltb in Epos. apply Z.ltb_lt in Epos.
      assert (Hskip : len (skipn (Z.to_nat ESP_FLASH_BLOCK) image)
                      = Z.max 0 (len image - 0x400)).
      { unfold len. rewrite length_skipn. unfold ESP_FLASH_BLOCK. lia. }
      destruct (IH (seq + 1) (skipn (Z.to_nat ESP_FLASH_BLOCK) image) Hfi) as [Hc Hall];
        [lia|].
      split.
      * unfold len at 1. cbn [List.length]. rewrite Nat2Z.inj_succ.
        fold (len (flash_blocks turns flash_info address (seq + 1)
                     (skipn (Z.to_nat ESP_FLASH_BLOCK) image))).
        rewrite Hc, Hskip.
        destruct (Z_le_gt_dec 0x400 (len image)) as [Hbig | Hsmall].
        -- rewrite Z.max_r by lia. rewrite div_roundup_0x400_step by lia. lia.
        -- rewrite Z.max_l by lia. rewrite div_roundup_0x400_zero.
           rewrite div_roundup_0x400_small by lia. reflexivity.
      * constructor; [|exact Hall]. now apply write_flash_block_len.
    + rewrite Z.gtb_ltb in Epos. apply Z.ltb_ge in Epos.
      pose proof (len_nonneg image). assert (len image = 0) as Hz by lia.
      rewrite Hz. split; [reflexivity | constructor].
Qed.

(** A block that is not the first block of an image at address 0 starting
    with 0xE9 is the next 0x400 bytes of the file, padded with 0xFF. *)
Lemma write_flash_block_plain (flash_info : bytes) (address seq : Z) (image : bytes) :
  address <> 0 \/ seq <> 0 \/ firstn 1 image <> [xe9] ->
  write_flash_block flash_info address seq image
  = firstn 1024 image
      ++ List.repeat xff (Z.to_nat (0x400 - len (firstn 1024 image))).
Proof.
  intros Hplain. unfold write_flash_block, ESP_FLASH_BLOCK.
  change (Z.to_nat 1024) with 1024%nat.
  assert ((address =? 0) && (seq =? 0) && bytes_eqb (firstn 1 (firstn 1024 image)) [xe9]
          = false) as ->; [|reflexivity].
  rewrite firstn_firstn. change (Nat.min 1 1024) with 1%nat.
  destruct Hplain as [Ha | [Hs | Hb]].
  - apply Z.eqb_neq in Ha. now rewrite Ha.
  - apply Z.eqb_neq in Hs. rewrite Hs. now rewrite andb_false_r.
  - destruct (bytes_eqb (firstn 1 image) [xe9]) eqn:E; [|now rewrite andb_false_r].
    now apply bytes_eqb_eq in E.
Qed.

(** Put end to end, the blocks are the file followed by 0xFF up to a
    multiple of 0x400, when no block is patched. *)
Lemma flash_blocks_concat (flash_info : bytes) (address : Z) :
  forall (turns : nat) (seq : Z) (image : bytes),
  0 <= seq ->
  address <> 0 \/ seq <> 0 \/ firstn 1 image <> [xe9] ->
  len image <= Z.of_nat turns * 0x400 ->
  List.concat (flash_blocks turns flash_info address seq image)
  = image ++ List.repeat xff
               (Z.to_nat (div_roundup (len image) 0x400 * 0x400 - len image)).
Proof.
  induction turns as [|turns IH]; intros seq image Hseq Hplain Hturns.
  - pose proof (len_nonneg image). assert (len image = 0) as Hz by lia.
    destruct image; [reflexivity | unfold len in Hz; simpl in Hz; lia].
  - cbn [flash_blocks]. destruct (len image >? 0) eqn:Epos.
    + rewrite Z.gtb_ltb in Epos. apply Z.ltb_lt in Epos.
      cbn [List.concat]. rewrite (write_flash_block_plain _ _ _ _ Hplain).
      change (Z.to_nat ESP_FLASH_BLOCK) with 1024%nat.
      assert (Hskip : len (skipn 1024 image) = Z.max 0 (len image - 0x400)).
      { unfold len. rewrite length_skipn. lia. }
      rewrite (IH (seq + 1) (skipn 1024 image)) by (lia || (right; left; lia)).
      rewrite Hskip.
      destruct (Z_le_gt_dec 0x400 (len image)) as [Hbig | Hsmall].
      * assert (len (firstn 1024 image) = 0x400)
          by (unfold len in *; rewrite length_firstn; lia).
        replace (Z.to_nat (0x400 - len (firstn 1024 image))) with 0%nat by lia.
        cbn [List.repeat]. rewrite app_nil_r, Z.max_r by lia.
        rewrite div_roundup_0x400_step by lia.
        rewrite app_assoc, firstn_skipn. f_equal. f_equal. lia.
      * rewrite firstn_all2 by (unfold len in *; lia).
        rewrite skipn_all2 by (unfold len in *; lia).
        rewrite Z.max_l by lia. rewrite div_roundup_0x400_zero.
        rewrite div_roundup_0x400_small by lia.
        cbn [Z.to_nat Z.mul Z.sub Z.opp Z.add List.repeat app]. rewrite app_nil_r.
        f_equal; f_equal; lia.
    + rewrite Z.gtb_ltb in Epos. apply Z.ltb_ge in Epos.
      pose proof (len_nonneg image). assert (len image = 0) as Hz by lia.
      destruct image; [reflexivity | unfold len in Hz; simpl in Hz; lia].
Qed.

(** [write_flash] for one file, on a device that acknowledges the
    flash-begin request and every block.  The wire gets the FLASH_BEGIN
    request (erase size computed from the file length rounded up to whole
    blocks), then one FLASH_DATA request per block, numbered from 0 in
    order; there are [div_roundup(len(image), 0x400)] blocks, each of
    exactly 0x400 bytes; unless the first block is patched with the flash
    configuration (address 0 and a file starting with 0xE9), the blocks put
    end to end are the file followed by 0xFF bytes.  The count of written
    bytes is the number of blocks times 0x400, and one response per
    request was consumed. *)
Theorem write_flash_file_wire
    (fuel turns : nat) (flash_info : bytes) (address : Z) (image : bytes)
    (r0 : response) (rs : list response) (rest : bytes) (st : t) :
  len flash_info = 2 -> (8 <= fuel)%nat ->
  0 <= address < 2 ^ 32 ->
  0 <= flash_begin_size (div_roundup (len image) 0x400 * 0x400) address < 2 ^ 32 ->
  div_roundup (len image) 0x400 <= Z.of_nat turns < 2 ^ 32 ->
  ack ESP_FLASH_BEGIN r0 -> Forall (ack ESP_FLASH_DATA) rs ->
  len rs = div_roundup (len image) 0x400 ->
  input (_port st) = response_frame r0 ++ response_frames rs ++ rest ->
  exists (st' : t) (blocks : list bytes),
    write_flash_file fuel turns flash_info address image st
    = (Return (div_roundup (len image) 0x400 * 0x400), st')
    /\ served_by (S (List.length rs)) rest st st'
    /\ output (_port st')
       = output (_port st)
           ++ ([xc0]
                 ++ slip_escape
                      (request_packet ESP_FLASH_BEGIN
                         (le_bytes 4 (flash_begin_size
                                        (div_roundup (len image) 0x400 * 0x400) address)
                            ++ le_bytes 4 0x200 ++ le_bytes 4 0x400
                            ++ le_bytes 4 address ++ []) 0)
                 ++ [xc0])
           ++ flash_data_frames 0 blocks
    /\ len blocks = div_roundup (len image) 0x400
    /\ Forall (fun b => len b = 0x400) blocks
    /\ (address <> 0 \/ firstn 1 image <> [xe9] ->
        List.concat blocks
        = image ++ List.repeat xff
                     (Z.to_nat (div_roundup (len image) 0x400 * 0x400 - len image))).
Proof.
  intros Hfi Hf Haddr Hsize Hturns Ha0 Hacks Hn Hi.
  set (n := div_roundup (len image) 0x400) in *.
  assert (Hcover : len image <= Z.of_nat turns * 0x400).
  { pose proof (len_nonneg image). unfold n, div_roundup in Hturns.
    Z.div_mod_to_equations. lia. }
  destruct (flash_blocks_count flash_info address turns 0 image Hfi Hcover) as [Hcount Hall].
  fold n in Hcount.
  assert (Hp : pack [I; I; I; I]
                 [flash_begin_size (n * 0x400) address; 0x200; ESP_FLASH_BLOCK; address]
               = Some (le_bytes 4 (flash_begin_size (n * 0x400) address) ++ le_bytes 4 0x200
                         ++ le_bytes 4 0x400 ++ le_bytes 4 address ++ [])).
  { cbn [pack code_size].
    assert (in_range I (flash_begin_size (n * 0x400) address) = true) as ->
      by (apply in_range_spec; simpl; lia).
    assert (in_range I address = true) as -> by (apply in_range_spec; simpl; lia).
    reflexivity. }
  set (pkt := le_bytes 4 (flash_begin_size (n * 0x400) address) ++ le_bytes 4 0x200
                ++ le_bytes 4 0x400 ++ le_bytes 4 address ++ []) in *.
  pose proof (flash_begin_ok fuel (n * 0x400) address pkt r0 (response_frames rs ++ rest) st
                Hp Ha0 Hf Hi) as Hbegin.
  set (st1 := with_timeout _ _) in Hbegin.
  destruct (write_flash_loop_ok fuel flash_info address turns image 0 0 rs rest st1
              Hfi Hf ltac:(lia) ltac:(lia) Hcover Hacks)
    as (st' & Hrun & Hserved & Hout).
  { apply Nat2Z.inj. fold (len rs).
    fold (len (flash_blocks turns flash_info address 0 image)). congruence. }
  { reflexivity. }
  exists st', (flash_blocks turns flash_info address 0 image).
  split; [|split; [|split; [|split; [|split]]]].
  - unfold write_flash_file. fold n. change ESP_FLASH_BLOCK with 0x400.
    rewrite (bind_Return _ _ _ _ _ Hbegin). rewrite Hrun, Hcount. f_equal. f_equal. lia.
  - replace (S (List.length rs)) with (List.length rs + 1)%nat by lia.
    eapply served_by_trans; [|exact Hserved].
    split; repeat split.
  - rewrite Hout. rewrite app_assoc. f_equal.
  - exact Hcount.
  - exact Hall.
  - intros Hplain. apply flash_blocks_concat; [lia | | exact Hcover].
    destruct Hplain as [Ha | Hb]; [now left | now right; right].
Qed.

Lemma write_flash_file_wire_witness :
  let r0 := mkResponse 0x02 0 [x00; x00] in
  let r1 := mkResponse 0x03 0 [x00; x00] in
  let image := [xe9; x01; x02] in
  let st := mk (mkSerial (Some 5%Q)
                  (response_frame r0 ++ response_frames [r1] ++ [x55]) []) 0 in
  exists (st' : t) (blocks : list bytes),
    write_flash_file 8 1 [x02; x10] 0x1000 image st
    = (Return (div_roundup (len image) 0x400 * 0x400), st')
    /\ served_by (S (List.length [r1])) [x55] st st'
    /\ output (_port st')
       = output (_port st)
           ++ ([xc0]
                 ++ slip_escape
                      (request_packet ESP_FLASH_BEGIN
                         (le_bytes 4 (flash_begin_size
                                        (div_roundup (len image) 0x400 * 0x400) 0x1000)
                            ++ le_bytes 4 0x200 ++ le_bytes 4 0x400
                            ++ le_bytes 4 0x1000 ++ []) 0)
                 ++ [xc0])
           ++ flash_data_frames 0 blocks
    /\ len blocks = div_roundup (len image) 0x400
    /\ Forall (fun b => len b = 0x400) blocks
    /\ (0x1000 <> 0 \/ firstn 1 image <> [xe9] ->
        List.concat blocks
        = image ++ List.repeat xff
                     (Z.to_nat (div_roundup (len image) 0x400 * 0x400 - len image))).
Proof.
  intros r0 r1 image st.
  apply (write_flash_file_wire 8 1 [x02; x10] 0x1000 image r0 [r1] [x55] st).
  - reflexivity.
  - lia.
  - lia.
  - vm_compute. split; congruence.
  - vm_compute. split; congruence.
  - subst r0. unfold ack, wf_response, len. simpl. repeat split; lia.
  - subst r1. repeat constructor; unfold len; simpl; lia.
  - reflexivity.
  - reflexivity.
Defined.

End WriteFlash.

(** * The [load_ram] operation *)

Section LoadRam.

Import ESPROM.

Lemma div_roundup_0x1800_step (l : Z) :
  0x1800 <= l -> div_roundup (l - 0x1800) 0x1800 = div_roundup l 0x1800 - 1.
Proof. intros Hl. unfold div_roundup. Z.div_mod_to_equations. lia. Qed.

Lemma div_roundup_0x1800_small (l : Z) : 0 < l <= 0x1800 -> div_roundup l 0x1800 = 1.
Proof. intros Hl. unfold div_roundup. Z.div_mod_to_equations. lia. Qed.

(** The pieces [load_ram] cuts a segment into: as many as [div_roundup]
    says, none empty, none above 0x1800 bytes, and together the data. *)
Lemma ram_chunks_spec : forall (turns : nat) (data : bytes),
  len data <= Z.of_nat turns * 0x1800 ->
  len (ram_chunks turns data) = div_roundup (len data) 0x1800
  /\ List.concat (ram_chunks turns data) = data
  /\ Forall (fun b => 0 < len b <= 0x1800) (ram_chunks turns data).
Proof.
  induction turns as [|turns IH]; intros data Hturns.
  - pose proof (len_nonneg data).
    destruct data; [now repeat split | unfold len in *; simpl in *; lia].
  - cbn [ram_chunks]. destruct (len data >? 0) eqn:Epos.
    + rewrite Z.gtb_ltb in Epos. apply Z.ltb_lt in Epos.
      set (k := Z.to_nat ESP_RAM_BLOCK).
      assert (Hk : Z.of_nat k = 0x1800) by (unfold k, ESP_RAM_BLOCK; lia).
      assert (Hskip : len (skipn k data) = Z.max 0 (len data - 0x1800)).
      { unfold len. rewrite length_skipn. lia. }
      assert (Hfirst : len (firstn k data) = Z.min 0x1800 (len data)).
      { unfold len. rewrite length_firstn. lia. }
      destruct (IH (skipn k data)) as (Hc & Hcat & Hall); [lia|].
      split; [|split].
      * unfold len at 1. cbn [List.length]. rewrite Nat2Z.inj_succ.
        fold (len (ram_chunks turns (skipn k data))). rewrite Hc, Hskip.
        destruct (Z_le_gt_dec 0x1800 (len data)) as [Hbig | Hsmall].
        -- rewrite Z.max_r by lia. rewrite div_roundup_0x1800_step by lia. lia.
        -- rewrite Z.max_l by lia.
           rewrite (div_roundup_0x1800_small (len data)) by lia. reflexivity.
      * cbn [List.concat]. rewrite Hcat. apply firstn_skipn.
      * constructor; [lia | exact Hall].
    + rewrite Z.gtb_ltb in Epos. apply Z.ltb_ge in Epos. pose proof (len_nonneg data).
      destruct data; [now repeat split | unfold len in *; simpl in *; lia].
Qed.

Lemma Forall2_repeat_l {A B} (P : A -> B -> Prop) (a : A) (n : nat) (l : list B) :
  Forall2 P (List.repeat a n) l -> Forall (P a) l /\ List.length l = n.
Proof.
  revert l. induction n as [|n IH]; intros l H; cbn [List.repeat] in H.
  - inversion H. now split.
  - inversion H as [|? b ? l' Hab Hrest]; subst.
    destruct (IH l' Hrest) as [Hall Hlen]. split; [now constructor|].
    cbn [List.length]. now rewrite Hlen.
Qed.

(** The loop of [load_ram] over the blocks of one segment, on a device
    that acknowledges every block. *)
Lemma load_ram_blocks_ok (fuel : nat) :
  forall (turns : nat) (data : bytes) (seq : Z)
         (rs : list response) (rest : bytes) (st : t),
  (8 <= fuel)%nat -> 0 <= seq -> seq + Z.of_nat turns < 2 ^ 32 ->
  len data <= Z.of_nat turns * 0x1800 ->
  Forall (ack ESP_MEM_DATA) rs ->
  List.length rs = List.length (ram_chunks turns data) ->
  input (_port st) = response_frames rs ++ rest ->
  exists st' : t,
    load_ram_blocks fuel turns data seq st = (Return tt, st')
    /\ served_by (List.length rs) rest st st'
    /\ output (_port st') = output (_port st) ++ mem_data_frames seq (ram_chunks turns data).
Proof.
  induction turns as [|turns IH]; intros data seq rs rest st Hf Hseq Hmax Hturns Hacks Hn Hi.
  - cbn [ram_chunks List.length] in *. destruct rs; [|discriminate].
    exists st. cbn [load_ram_blocks].
    assert ((len data >? 0) = false) as -> by (rewrite Z.gtb_ltb; apply Z.ltb_ge; lia).
    unfold ret. rewrite app_nil_r. repeat split; try reflexivity. exact Hi.
  - cbn [ram_chunks load_ram_blocks] in *.
    destruct (len data >? 0) eqn:Epos.
    + rewrite Z.gtb_ltb in Epos. apply Z.ltb_lt in Epos.
      set (block := firstn (Z.to_nat ESP_RAM_BLOCK) data) in *.
      assert (Hbl : 0 < len block <= 0x1800).
      { unfold block, len in *. rewrite length_firstn. unfold ESP_RAM_BLOCK. lia. }
      destruct rs as [|r rs]; [discriminate|].
      inversion Hacks as [|? ? Hack Hacks']; subst.
      rewrite response_frames_cons in Hi.
      assert (Hp : pack [I; I; I; I] [len block; seq; 0; 0]
                   = Some (le_bytes 4 (len block) ++ le_bytes 4 seq ++ le_bytes 4 0
                             ++ le_bytes 4 0 ++ [])).
      { cbn [pack code_size].
        assert (in_range I (len block) = true) as ->
          by (apply in_range_spec; simpl; lia).
        assert (in_range I seq = true) as -> by (apply in_range_spec; simpl; lia).
        reflexivity. }
      rewrite (bind_Return _ _ _ _ _
                 (mem_block_ok fuel block seq _ r (response_frames rs ++ rest) st
                    Hp ltac:(lia) Hack Hf Hi)).
      set (st1 := ticks 1 _).
      destruct (IH (skipn (Z.to_nat ESP_RAM_BLOCK) data) (seq + 1)
                  rs rest st1 Hf ltac:(lia) ltac:(lia)) as (st' & Hrun & Hserved & Hout).
      * unfold len in *. rewrite length_skipn. unfold ESP_RAM_BLOCK. lia.
      * exact Hacks'.
      * cbn [List.length] in Hn. lia.
      * reflexivity.
      * exists st'. split; [exact Hrun|]. split.
        -- replace (List.length (r :: rs)) with (List.length rs + 1)%nat
             by (cbn [List.length]; lia).
           eapply served_by_trans; [|exact Hserved].
           apply served_by_command.
        -- rewrite Hout. cbn [mem_data_frames]. rewrite app_assoc. f_equal.
    + cbn [List.length] in Hn. destruct rs; [|discriminate].
      exists st. unfold ret. rewrite app_nil_r.
      repeat split; try reflexivity. exact Hi.
Qed.

(** The loop of [load_ram] over the segments, on a device that
    acknowledges every request. *)
Lemma load_ram_segments_ok (fuel turns : nat) :
  forall (segs : list ESPFirmwareImage.segment)
         (rs : list response) (rest : bytes) (st : t),
  (8 <= fuel)%nat -> (11 <= turns)%nat -> Z.of_nat turns < 2 ^ 32 ->
  Forall seg_ok segs ->
  Forall2 ack (List.concat (map (segment_ops turns) segs)) rs ->
  input (_port st) = response_frames rs ++ rest ->
  exists st' : t,
    load_ram_segments fuel turns segs st = (Return tt, st')
    /\ served_by (List.length rs) rest st st'
    /\ output (_port st')
       = output (_port st) ++ List.concat (map (segment_frames turns) segs).
Proof.
  induction segs as [|[[offset size] data] segs IH];
    intros rs rest st Hf Hturns Hmax Hok Hacks Hi.
  - cbn [map List.concat] in *. inversion Hacks; subst.
    exists st. cbn [load_ram_segments]. unfold ret. rewrite app_nil_r.
    repeat split; try reflexivity. exact Hi.
  - inversion Hok as [|? ? Hok1 Hok']; subst.
    destruct Hok1 as (Hsz & Hoff & Hsmall). subst size.
    pose proof (len_nonneg data) as Hnn.
    assert (Hcover : len data <= Z.of_nat turns * 0x1800) by lia.
    destruct (ram_chunks_spec turns data Hcover) as (Hcount & _ & _).
    cbn [map List.concat segment_ops] in Hacks.
    cbn [app] in Hacks.
    inversion Hacks as [|? r ? rs0 Hack0 Hacks0]; subst.
    apply Forall2_app_inv_l in Hacks0.
    destruct Hacks0 as (rsd & rsr & Hackd & Hackr & ->).
    apply Forall2_repeat_l in Hackd. destruct Hackd as [Hackd Hlend].
    rewrite response_frames_cons, response_frames_app, <- app_assoc in Hi.
    change ESP_RAM_BLOCK with 0x1800 in *.
    assert (Hdr : 0 <= div_roundup (len data) 0x1800 < 2 ^ 32).
    { unfold div_roundup. Z.div_mod_to_equations. lia. }
    assert (Hp : pack [I; I; I; I] [len data; div_roundup (len data) 0x1800; 0x1800; offset]
                 = Some (le_bytes 4 (len data) ++ le_bytes 4 (div_roundup (len data) 0x1800)
                           ++ le_bytes 4 0x1800 ++ le_bytes 4 offset ++ [])).
    { cbn [pack code_size].
      assert (in_range I (len data) = true) as -> by (apply in_range_spec; simpl; lia).
      assert (in_range I (div_roundup (len data) 0x1800) = true) as ->
        by (apply in_range_spec; simpl; lia).
      assert (in_range I offset = true) as -> by (apply in_range_spec; simpl; lia).
      reflexivity. }
    cbn [load_ram_segments]. change ESP_RAM_BLOCK with 0x1800.
    rewrite (bind_Return _ _ _ _ _
               (mem_begin_ok fuel _ _ _ _ _ r
                  (response_frames rsd ++ response_frames rsr ++ rest) st Hp Hack0 Hf Hi)).
    set (st1 := ticks 1 _).
    destruct (load_ram_blocks_ok fuel turns data 0 rsd (response_frames rsr ++ rest) st1
                Hf ltac:(lia) ltac:(lia) Hcover Hackd Hlend eq_refl)
      as (st2 & Hrun2 & Hserved2 & Hout2).
    rewrite (bind_Return _ _ _ _ _ Hrun2).
    destruct Hserved2 as (Hin2 & Htmo2 & Hrx2).
    destruct (IH rsr rest st2 Hf Hturns Hmax Hok' Hackr Hin2)
      as (st' & Hrun & Hserved & Hout).
    exists st'. split; [exact Hrun|]. split.
    + destruct Hserved as (Hin & Htmo & Hrx). repeat split.
      * exact Hin.
      * rewrite Htmo, Htmo2. reflexivity.
      * rewrite Hrx, Hrx2. cbn [List.length]. rewrite length_app.
        change (rx_calls st1) with (1 + rx_calls st)%nat. lia.
    + assert (Hout1 : output (_port st1)
                      = output (_port st)
                          ++ request_frame ESP_MEM_BEGIN
                               (le_bytes 4 (len data)
                                  ++ le_bytes 4 (div_roundup (len data) 0x1800)
                                  ++ le_bytes 4 0x1800 ++ le_bytes 4 offset ++ []) 0)
        by reflexivity.
      rewrite Hout, Hout2, Hout1. cbn [map List.concat segment_frames].
      change ESP_RAM_BLOCK with 0x1800. rewrite Hcount.
      now rewrite <- !app_assoc.
Qed.

(** [load_ram] on a parsed image and a device that acknowledges every
    request.  For each segment in order the wire gets a MEM_BEGIN request
    (size, number of blocks, block size 0x1800, address) and then exactly
    that number of MEM_DATA requests, numbered from 0; the blocks of a
    segment are not empty, have at most 0x1800 bytes and, put end to end,
    are the data of the segment, without padding.  A MEM_END request with
    the entry point closes the upload.  One response per request was
    consumed and the read timeout is as it was. *)
Theorem load_ram_wire
    (fuel turns : nat) (image : ESPFirmwareImage.t)
    (rs : list response) (rest : bytes) (st : t) :
  (8 <= fuel)%nat -> (11 <= turns)%nat -> Z.of_nat turns < 2 ^ 32 ->
  Forall seg_ok (ESPFirmwareImage.segments image) ->
  0 <= ESPFirmwareImage.entrypoint image < 2 ^ 32 ->
  Forall2 ack
    (List.concat (map (segment_ops turns) (ESPFirmwareImage.segments image))
       ++ [ESP_MEM_END]) rs ->
  input (_port st) = response_frames rs ++ rest ->
  exists st' : t,
    load_ram fuel turns image st = (Return tt, st')
    /\ served_by (List.length rs) rest st st'
    /\ output (_port st')
       = output (_port st)
           ++ List.concat (map (segment_frames turns) (ESPFirmwareImage.segments image))
           ++ request_frame ESP_MEM_END
                (le_bytes 4 (if ESPFirmwareImage.entrypoint image =? 0 then 1 else 0)
                   ++ le_bytes 4 (ESPFirmwareImage.entrypoint image) ++ []) 0
    /\ Forall (fun s : ESPFirmwareImage.segment =>
                 let '(offset, size, data) := s in
                 len (ram_chunks turns data) = div_roundup size ESP_RAM_BLOCK
                 /\ List.concat (ram_chunks turns data) = data
                 /\ Forall (fun b => 0 < len b <= 0x1800) (ram_chunks turns data))
              (ESPFirmwareImage.segments image).
Proof.
  intros Hf Hturns Hmax Hok Hentry Hacks Hi.
  apply Forall2_app_inv_l in Hacks.
  destruct Hacks as (rss & rse & Hackss & Hacke & ->).
  inversion Hacke as [|? r ? ? Hack Hnil]; subst. inversion Hnil; subst.
  rewrite response_frames_app, <- app_assoc in Hi.
  destruct (load_ram_segments_ok fuel turns (ESPFirmwareImage.segments image) rss
              (response_frames [r] ++ rest) st Hf Hturns Hmax Hok Hackss Hi)
    as (st1 & Hrun1 & (Hin1 & Htmo1 & Hrx1) & Hout1).
  set (entry := ESPFirmwareImage.entrypoint image) in *.
  assert (Hp : pack [I; I] [if entry =? 0 then 1 else 0; entry]
               = Some (le_bytes 4 (if entry =? 0 then 1 else 0) ++ le_bytes 4 entry ++ [])).
  { cbn [pack code_size].
    assert (in_range I (if entry =? 0 then 1 else 0) = true) as ->
      by (apply in_range_spec; destruct (entry =? 0); simpl; lia).
    assert (in_range I entry = true) as -> by (apply in_range_spec; simpl; lia).
    reflexivity. }
  assert (Hin1' : input (_port st1) = response_frame r ++ rest).
  { rewrite Hin1. unfold response_frames. cbn [map List.concat].
    now rewrite app_nil_r. }
  set (pkt := le_bytes 4 (if entry =? 0 then 1 else 0) ++ le_bytes 4 entry ++ []) in *.
  exists (ticks 1 (with_input (after_request ESP_MEM_END pkt 0 st1) rest)).
  split; [|split; [|split]].
  - unfold load_ram. rewrite (bind_Return _ _ _ _ _ Hrun1). fold entry.
    exact (mem_finish_ok fuel entry pkt r rest st1 Hp Hack Hf Hin1').
  - replace (List.length (rss ++ [r])) with (1 + List.length rss)%nat
      by (rewrite length_app; cbn [List.length]; lia).
    eapply served_by_trans; [|apply served_by_command].
    repeat split; eassumption.
  - change (output (_port (ticks 1 (with_input (after_request ESP_MEM_END pkt 0 st1) rest))))
      with (output (_port st1) ++ request_frame ESP_MEM_END pkt 0).
    rewrite Hout1, <- !app_assoc. reflexivity.
  - eapply Forall_impl; [|exact Hok].
    intros [[offset size] data] (Hsz & _ & Hsmall).
    assert (Hcover : len data <= Z.of_nat turns * 0x1800) by lia.
    destruct (ram_chunks_spec turns data Hcover) as (Hc & Hcat & Hall).
    rewrite Hsz. change ESP_RAM_BLOCK with 0x1800. now repeat split.
Qed.

Lemma load_ram_wire_witness :
  let a5 := mkResponse 0x05 0 [x00; x00] in
  let a7 := mkResponse 0x07 0 [x00; x00] in
  let a6 := mkResponse 0x06 0 [x00; x00] in
  let rs := [a5; a7; a5; a7; a6] in
  let st := mk (mkSerial (Some 5%Q) (response_frames rs ++ [x55]) []) 0 in
  exists st' : t,
    load_ram 8 11 example_image st = (Return tt, st')
    /\ served_by (List.length rs) [x55] st st'
    /\ output (_port st')
       = output (_port st)
           ++ List.concat (map (segment_frames 11) (ESPFirmwareImage.segments example_image))
           ++ request_frame ESP_MEM_END
                (le_bytes 4 (if ESPFirmwareImage.entrypoint example_image =? 0 then 1 else 0)
                   ++ le_bytes 4 (ESPFirmwareImage.entrypoint example_image) ++ []) 0
    /\ Forall (fun s : ESPFirmwareImage.segment =>
                 let '(offset, size, data) := s in
                 len (ram_chunks 11 data) = div_roundup size ESP_RAM_BLOCK
                 /\ List.concat (ram_chunks 11 data) = data
                 /\ Forall (fun b => 0 < len b <= 0x1800) (ram_chunks 11 data))
              (ESPFirmwareImage.segments example_image).
Proof.
  intros a5 a7 a6 rs st.
  apply (load_ram_wire 8 11 example_image rs [x55] st).
  - lia.
  - lia.
  - lia.
  - repeat constructor; simpl; lia.
  - simpl. lia.
  - subst rs a5 a7 a6.
    repeat constructor; unfold wf_response, len; simpl; lia.
  - reflexivity.
Defined.

End LoadRam.
